(** * HMA1: the Hierarchical Modeling Algorithm of [sdv/relational/hma.py]

    A shallow embedding of the fitting and sampling orchestration of
    [HMA1], and the properties of it that the design document states.

    Conventions of the embedding.
    - A pandas cell is a float or missing.  Floats are idealised as
      rationals ([Q]); [None] stands for NaN / [None].
    - A [Series] is an ordered list of labelled cells; a [DataFrame] is an
      ordered list of column names and an ordered list of indexed rows.
    - Python exceptions are values of [exn]; a computation that may raise
      returns a [result].
    - The schema collaborator ([self.metadata]) and the pluggable table
      model ([self._model], numpy's random generator, the primary-key
      generator of the base class) are interfaces: records of functions.
      Randomness and key counters live in an abstract world [W] threaded
      through the sampling code. *)

From Stdlib Require Import QArith Qround Lqa.
From stdpp Require Import gmap strings list.

Local Open Scope string_scope.
Local Open Scope list_scope.

(** ** Cells *)

Definition cell : Type := option Q.

Definition NaN : cell := None.

Definition isnull (c : cell) : bool :=
  match c with None => true | Some _ => false end.

(** Equality of labels as pandas groups them: NaN labels are one group. *)
Definition cell_eqb (a b : cell) : bool :=
  match a, b with
  | None, None => true
  | Some x, Some y => Qeq_bool x y
  | _, _ => false
  end.

(** Python's [c == q] on a float cell: false on NaN. *)
Definition py_eq (c : cell) (q : Q) : bool :=
  match c with Some x => Qeq_bool x q | None => false end.

(** Python's [a < b] on floats: false as soon as one side is NaN. *)
Definition py_lt (a b : cell) : bool :=
  match a, b with
  | Some x, Some y => negb (Qle_bool y x)
  | _, _ => false
  end.

(** Python's builtin [min(a, b)]: [b] when [b < a], else [a]. *)
Definition py_min (a b : cell) : cell := if py_lt b a then b else a.

(** Python's builtin [max(a, b)]: [b] when [b > a], else [a]. *)
Definition py_max (a b : cell) : cell := if py_lt a b then b else a.

(** ** Exceptions *)

Inductive exn : Type :=
| KeyError
| IndexError
| ValueError
| ZeroDivisionError
| AttributeError
| LinAlgError
| OtherError (msg : string).

Inductive result (A : Type) : Type :=
| Ok (a : A)
| Raise (e : exn).
Arguments Ok {A} a.
Arguments Raise {A} e.

Definition rbind {A B} (r : result A) (k : A -> result B) : result B :=
  match r with Ok a => k a | Raise e => Raise e end.

Declare Scope result_scope.
Delimit Scope result_scope with result.
Notation "x <-- r ;; k" := (rbind r (fun x => k))
  (at level 100, r at next level, right associativity) : result_scope.

(** ** Strings *)

(** [s.startswith(p)] *)
Fixpoint startswith (p s : string) : bool :=
  match p, s with
  | EmptyString, _ => true
  | String a p', String b s' => Ascii.eqb a b && startswith p' s'
  | String _ _, EmptyString => false
  end.

(** [s.endswith(suf)] *)
Definition endswith (suf s : string) : bool :=
  (String.length suf <=? String.length s)%nat &&
  String.eqb (String.substring (String.length s - String.length suf)
                               (String.length suf) s) suf.

(** [s[n:]] *)
Definition drop_chars (n : nat) (s : string) : string :=
  String.substring n (String.length s - n) s.

(** ** Series *)

Definition Series (L : Type) : Type := list (L * cell).

Section SeriesOps.
Context {L : Type} (leqb : L -> L -> bool).

Definition s_index (s : Series L) : list L := map fst s.
Definition s_values (s : Series L) : list cell := map snd s.

(** [label in s] *)
Definition s_mem (l : L) (s : Series L) : bool :=
  existsb (fun kv => leqb kv.1 l) s.

(** [s.get(label)]: the first entry under [label]. *)
Definition s_get (l : L) (s : Series L) : option cell :=
  snd <$> List.find (fun kv => leqb kv.1 l) s.

(** [s[label] = v] on a label that may be new. *)
Fixpoint s_set (l : L) (v : cell) (s : Series L) : Series L :=
  match s with
  | [] => [(l, v)]
  | (k, c) :: s' => if leqb k l then (k, v) :: s' else (k, c) :: s_set l v s'
  end.

(** [s.fillna(v)] for a scalar [v]. *)
Definition s_fillna (v : cell) (s : Series L) : Series L :=
  map (fun kv => (kv.1, if isnull kv.2 then v else kv.2)) s.

(** [s.fillna(other)] for a series: missing entries take the entry of
    [other] under the same label, and stay missing without one. *)
Definition s_fillna_series (other : Series L) (s : Series L) : Series L :=
  map (fun kv =>
         (kv.1, if isnull kv.2
                then match s_get kv.1 other with Some c => c | None => NaN end
                else kv.2)) s.
End SeriesOps.

(** The defined entries of a list of cells. *)
Definition valid (cs : list cell) : list Q := omap id cs.

Definition Qsum (qs : list Q) : Q := fold_right Qplus 0%Q qs.

(** [s.mean()]: the mean of the defined entries, NaN without any. *)
Definition s_mean {L} (s : Series L) : cell :=
  match valid (s_values s) with
  | [] => NaN
  | qs => Some (Qsum qs / inject_Z (Z.of_nat (length qs)))%Q
  end.

(** [s.max()]: the largest defined entry, NaN without any. *)
Definition s_max {L} (s : Series L) : cell :=
  match valid (s_values s) with
  | [] => NaN
  | q :: qs => Some (fold_left (fun a b => if Qle_bool a b then b else a) qs q)
  end.

(** [(s == 0).all()] *)
Definition s_all_zero {L} (s : Series L) : bool :=
  forallb (fun c => py_eq c 0%Q) (s_values s).

(** [s.clip(lower)] *)
Definition s_clip_lower {L} (lower : Q) (s : Series L) : Series L :=
  map (fun kv => (kv.1, match kv.2 with
                        | Some q => Some (if Qle_bool lower q then q else lower)
                        | None => None
                        end)) s.

(** ** Data frames *)

(** A row: its index label and its cells by column name. *)
Definition Row : Type := cell * Series string.

Record DataFrame : Type := mkDataFrame {
  columns : list string;
  records : list Row;
}.

Definition row_get (c : string) (r : Series string) : cell :=
  default NaN (s_get String.eqb c r).

Definition row_set (c : string) (v : cell) (r : Series string) : Series string :=
  s_set String.eqb c v r.

Definition row_del (c : string) (r : Series string) : Series string :=
  List.filter (fun kv => negb (String.eqb kv.1 c)) r.

(** A row laid out on the given columns, NaN where it has no entry. *)
Definition reindex_row (cs : list string) (r : Series string) : Series string :=
  map (fun c => (c, row_get c r)) cs.

Definition inb (c : string) (cs : list string) : bool :=
  existsb (String.eqb c) cs.

(** Append the names of [ds] that [cs] lacks, in order. *)
Definition add_columns (cs ds : list string) : list string :=
  fold_left (fun acc d => if inb d acc then acc else acc ++ [d]) ds cs.

(** [len(df)] *)
Definition df_len (df : DataFrame) : nat := length (records df).

(** [df.index] *)
Definition df_index (df : DataFrame) : list cell := map fst (records df).

(** [range(n)] as index labels. *)
Definition range_index (n : nat) : list cell :=
  map (fun i => Some (inject_Z (Z.of_nat i))) (seq 0 n).

(** [df[c]] *)
Definition df_getitem (c : string) (df : DataFrame) : result (Series cell) :=
  if inb c (columns df)
  then Ok (map (fun r : Row => (r.1, row_get c r.2)) (records df))
  else Raise KeyError.

(** [df[c] = v] for a scalar [v], broadcast to every row. *)
Definition df_set_scalar (c : string) (v : cell) (df : DataFrame) : DataFrame :=
  {| columns := add_columns (columns df) [c];
     records := map (fun r : Row => (r.1, row_set c v r.2)) (records df) |}.

(** Equality of two index objects, label by label. *)
Fixpoint index_equal (a b : list cell) : bool :=
  match a, b with
  | [], [] => true
  | x :: a', y :: b' => cell_eqb x y && index_equal a' b'
  | _, _ => false
  end.

(** Does a label occur twice? *)
Fixpoint has_duplicates (a : list cell) : bool :=
  match a with
  | [] => false
  | x :: a' => existsb (cell_eqb x) a' || has_duplicates a'
  end.

(** [df[c] = s] for a series [s].  With the index of [df] the values
    are taken as they come.  Otherwise [s] is reindexed on the index of
    [df]: a row whose label [s] lacks gets NaN, and a label that [s]
    holds twice is a [ValueError]. *)
Definition df_set_series (c : string) (s : Series cell) (df : DataFrame)
  : result DataFrame :=
  if index_equal (s_index s) (df_index df)
  then Ok {| columns := add_columns (columns df) [c];
             records := zip_with (fun (r : Row) v => (r.1, row_set c v r.2))
                                 (records df) (s_values s) |}
  else if has_duplicates (s_index s) then Raise ValueError
  else Ok {| columns := add_columns (columns df) [c];
             records := map (fun r : Row =>
                               (r.1, row_set c (default NaN (s_get cell_eqb r.1 s)) r.2))
                            (records df) |}.

(** [df[c] = values] for a plain sequence: positional, and a
    [ValueError] when the lengths differ. *)
Definition df_set_values (c : string) (vs : list cell) (df : DataFrame)
  : result DataFrame :=
  if (length vs =? df_len df)%nat
  then Ok {| columns := add_columns (columns df) [c];
             records := zip_with (fun (r : Row) v => (r.1, row_set c v r.2))
                                 (records df) vs |}
  else Raise ValueError.

(** [df[cs]] for a list of names. *)
Definition df_select (cs : list string) (df : DataFrame) : result DataFrame :=
  if forallb (fun c => inb c (columns df)) cs
  then Ok {| columns := cs;
             records := map (fun r : Row => (r.1, reindex_row cs r.2)) (records df) |}
  else Raise KeyError.

(** [del df[c]] on a column known to be there. *)
Definition df_del (c : string) (df : DataFrame) : DataFrame :=
  {| columns := List.filter (fun d => negb (String.eqb d c)) (columns df);
     records := map (fun r : Row => (r.1, row_del c r.2)) (records df) |}.

(** [df.set_index(c)] *)
Definition set_index (c : string) (df : DataFrame) : result DataFrame :=
  if inb c (columns df)
  then Ok {| columns := List.filter (fun d => negb (String.eqb d c)) (columns df);
             records := map (fun r : Row => (row_get c r.2, row_del c r.2))
                            (records df) |}
  else Raise KeyError.

(** [df.reset_index(drop=True)] *)
Definition reset_index_drop (df : DataFrame) : DataFrame :=
  {| columns := columns df;
     records := zip_with (fun i (r : Row) => (i, r.2))
                         (range_index (df_len df)) (records df) |}.

(** [df.loc[[label]]]: the rows under [label]; [KeyError] without any. *)
Definition loc_label (label : cell) (df : DataFrame) : result DataFrame :=
  match List.filter (fun r : Row => cell_eqb r.1 label) (records df) with
  | [] => Raise KeyError
  | rs => Ok {| columns := columns df; records := rs |}
  end.

(** [s.unique()]: first occurrences, in order. *)
Definition unique (cs : list cell) : list cell :=
  fold_left (fun acc c => if existsb (cell_eqb c) acc then acc else acc ++ [c]) cs [].

(** [pd.concat([a, b]).reset_index(drop=True)] *)
Definition concat_reset (a b : DataFrame) : DataFrame :=
  let cs := add_columns (columns a) (columns b) in
  reset_index_drop
    {| columns := cs;
       records := map (fun r : Row => (r.1, reindex_row cs r.2))
                      (records a ++ records b) |}.

(** [pd.DataFrame(rows, index=index)] for a list of row series. *)
Definition DataFrame_of_rows (rows : list (Series string)) (index : list cell)
  : DataFrame :=
  let cs := fold_left (fun acc r => add_columns acc (s_index r)) rows [] in
  {| columns := cs;
     records := zip_with (fun i r => (i, reindex_row cs r)) index rows |}.

(** [left.merge(right, how='left', left_index=True, right_index=True)].
    A name the two frames share is renamed on both sides ([_x], [_y]). *)
Definition merge_left_index (left right : DataFrame) : DataFrame :=
  let shared c := inb c (columns left) && inb c (columns right) in
  let lname c := if shared c then c +:+ "_x" else c in
  let rname c := if shared c then c +:+ "_y" else c in
  let lrow (r : Series string) := map (fun c => (lname c, row_get c r)) (columns left) in
  let rrow (r : Series string) := map (fun c => (rname c, row_get c r)) (columns right) in
  {| columns := map lname (columns left) ++ map rname (columns right);
     records :=
       flat_map (fun l : Row =>
                   match List.filter (fun r : Row => cell_eqb r.1 l.1) (records right) with
                   | [] => [(l.1, lrow l.2 ++ rrow [])]
                   | ms => map (fun m : Row => (l.1, lrow l.2 ++ rrow m.2)) ms
                   end)
                (records left) |}.

(** [df[c].fillna(v, inplace=True)] and [df[c] = df[c].fillna(v)], on a
    column known to be there. *)
Definition df_fillna_column (c : string) (v : cell) (df : DataFrame) : DataFrame :=
  {| columns := columns df;
     records := map (fun r : Row =>
                       (r.1, if isnull (row_get c r.2) then row_set c v r.2 else r.2))
                    (records df) |}.

(** ** Dictionaries that keep insertion order *)

Section Dict.
Context {K V : Type} (keqb : K -> K -> bool).

Definition d_get (k : K) (d : list (K * V)) : option V :=
  snd <$> List.find (fun kv => keqb kv.1 k) d.

Definition d_mem (k : K) (d : list (K * V)) : bool :=
  existsb (fun kv => keqb kv.1 k) d.

(** [d[k]] *)
Definition d_getitem (k : K) (d : list (K * V)) : result V :=
  match d_get k d with Some v => Ok v | None => Raise KeyError end.

(** [d[k] = v]: in place for a known key, appended for a new one. *)
Fixpoint d_set (k : K) (v : V) (d : list (K * V)) : list (K * V) :=
  match d with
  | [] => [(k, v)]
  | (k', v') :: d' => if keqb k' k then (k', v) :: d' else (k', v') :: d_set k v d'
  end.
End Dict.

(** [registry[k]] on a [dict] whose order is never observed. *)
Definition reg_getitem {V} (k : string) (m : gmap string V) : result V :=
  match m !! k with Some v => Ok v | None => Raise KeyError end.

(** Python's [round] on a float: halves go to the even neighbour. *)
Definition py_round (q : Q) : Z :=
  let f := Qfloor q in
  let d := (q - inject_Z f)%Q in
  match (d ?= 1 # 2)%Q with
  | Lt => f
  | Gt => (f + 1)%Z
  | Eq => if Z.even f then f else (f + 1)%Z
  end.

(** ** The collaborators *)

(** A table's metadata as the schema collaborator hands it out. *)
Record FieldMeta : Type := mkField {
  f_type : string;
  f_subtype : option string;
}.

Record TableMeta : Type := mkTableMeta {
  tm_name : option string;
  tm_primary_key : option string;
  tm_fields : list (string * FieldMeta);
}.

(** The schema collaborator, [self.metadata]. *)
Record Metadata (dtype : Type) : Type := {
  get_tables : list string;
  get_parents : string -> list string;
  get_children : string -> list string;
  (** [get_foreign_keys(parent, child)] *)
  get_foreign_keys : string -> string -> list string;
  get_primary_key : string -> option string;
  (** [get_dtypes(table, ids=True)], in declared order *)
  get_dtypes : string -> list (string * dtype);
  get_table_meta : string -> TableMeta;
  load_table : string -> result DataFrame;
  validate : option (list (string * DataFrame)) -> result unit;
}.
Arguments get_tables {_} _.
Arguments get_parents {_} _ _.
Arguments get_children {_} _ _.
Arguments get_foreign_keys {_} _ _ _.
Arguments get_primary_key {_} _ _.
Arguments get_dtypes {_} _ _.
Arguments get_table_meta {_} _ _.
Arguments load_table {_} _ _.
Arguments validate {_} _ _.

(** The pluggable table model ([self._model]) and the other code the
    orchestrator calls into: numpy's [astype] and [random.choice], the
    float64 arithmetic of pandas and numpy that the parent draw rests
    on, and the primary-key generator of the base class.  [W] is the
    state these read and write (random generator, key counters). *)
Record Capability (W dtype Model : Type) : Type := {
  (** [model = self._model(table_metadata=meta); model.fit(rows)]; the
      flag tells whether [**self._model_kwargs] is passed as well *)
  model_fit : bool -> TableMeta -> DataFrame -> result Model;
  get_metadata : Model -> TableMeta;
  get_parameters : Model -> result (Series string);
  (** [model = self._model(table_metadata=meta); model.set_parameters(p)] *)
  set_parameters : TableMeta -> list (string * cell) -> result Model;
  _num_rows : Model -> nat;
  _sample_with_progress_bar : Model -> nat -> W -> result (DataFrame * W);
  get_likelihood : Model -> DataFrame -> result (list cell);
  (** [self._get_primary_keys(table_name, n)] of the base class: [n]
      fresh key values, in the order of the rows *)
  _get_primary_keys : string -> nat -> W -> result (list cell * W);
  (** [np.random.choice(a, p=weights)] *)
  random_choice : list cell -> list cell -> W -> result (cell * W);
  (** [astype(dtype)] on one defined value *)
  astype : dtype -> Q -> Q;
  (** [Series.mean()] on float64 values: the mean as pandas computes
      it, rounding, underflow and all; missing values are skipped *)
  series_mean : list cell -> cell;
  (** [Series.sum()] on float64 values, missing values skipped *)
  series_sum : list cell -> cell;
  (** [x / y] on float64, as numpy divides *)
  float_div : cell -> cell -> cell;
}.
Arguments model_fit {_ _ _} _ _ _ _.
Arguments get_metadata {_ _ _} _ _.
Arguments get_parameters {_ _ _} _ _.
Arguments set_parameters {_ _ _} _ _ _.
Arguments _num_rows {_ _ _} _ _.
Arguments _sample_with_progress_bar {_ _ _} _ _ _ _.
Arguments get_likelihood {_ _ _} _ _ _.
Arguments _get_primary_keys {_ _ _} _ _ _ _.
Arguments random_choice {_ _ _} _ _ _ _.
Arguments astype {_ _ _} _ _ _.
Arguments series_mean {_ _ _} _ _.
Arguments series_sum {_ _ _} _ _.
Arguments float_div {_ _ _} _ _ _.

(** Modelled from the spec: the part of the Table Model Capability's
    contract (section 6, [sample(n) -> rows]; section 4.4, "count taken
    from the extracted [num_rows]") that the row-count properties rest
    on.  The table model itself lives in [sdv.tabular], outside this
    file's source: sampling [n] rows returns [n] rows, and a model set
    from parameters samples no more rows than the [num_rows] it was
    given. *)
Record SamplerContract {W dtype Model : Type} (cap : Capability W dtype Model)
  : Prop := {
  sample_length :
    forall model n w df w',
      _sample_with_progress_bar cap model n w = Ok (df, w') ->
      length (records df) = n;
  num_rows_bound :
    forall table_meta parameters model q (m : nat),
      set_parameters cap table_meta parameters = Ok model ->
      s_get String.eqb "num_rows" parameters = Some (Some q) ->
      (q <= inject_Z (Z.of_nat m))%Q ->
      (_num_rows cap model <= m)%nat;
}.

(** The registries of an [HMA1] instance. *)
Record HMA1 (Model : Type) : Type := mkHMA1 {
  _models : gmap string Model;
  _table_sizes : gmap string nat;
  _max_child_rows : gmap string cell;
}.
Arguments mkHMA1 {_} _ _ _.
Arguments _models {_} _.
Arguments _table_sizes {_} _.
Arguments _max_child_rows {_} _.

(** Computations that read and write the world and may raise. *)
Definition M (W A : Type) : Type := W -> result (A * W).

Definition mret {W A} (a : A) : M W A := fun w => Ok (a, w).

Definition mbind {W A B} (m : M W A) (k : A -> M W B) : M W B :=
  fun w => match m w with Ok (a, w') => k a w' | Raise e => Raise e end.

Definition lift {W A} (r : result A) : M W A :=
  fun w => match r with Ok a => Ok (a, w) | Raise e => Raise e end.

Declare Scope m_scope.
Delimit Scope m_scope with M.
Notation "x <~ m ;; k" := (mbind m (fun x => k))
  (at level 100, m at next level, right associativity) : m_scope.

(** A [for] loop threading the loop-carried state. *)
Fixpoint for_each {W A S} (body : S -> A -> M W S) (xs : list A) (s : S) : M W S :=
  match xs with
  | [] => mret s
  | x :: xs' => mbind (body s x) (for_each body xs')
  end.

Fixpoint rfor_each {A S} (body : S -> A -> result S) (xs : list A) (s : S) : result S :=
  match xs with
  | [] => Ok s
  | x :: xs' => rbind (body s x) (rfor_each body xs')
  end.

(** [RecursionError]: what Python raises when the interpreter's
    recursion limit (the fuel of the recursive definitions) is hit. *)
Definition RecursionError : exn := OtherError "RecursionError".

(** * The algorithm *)

Section HMA1.
Context {W dtype Model : Type}.
Context (metadata : Metadata dtype) (cap : Capability W dtype Model).

Local Open Scope m_scope.

Local Abbreviation Tables := (list (string * DataFrame)).

(** The column-name prefix of a (child table, foreign key) pair. *)
Definition ext_prefix (table_name foreign_key : string) : string :=
  "__" +:+ table_name +:+ "__" +:+ foreign_key +:+ "__".

(** ** Sampling *)

(** [HMA1._extract_parameters] *)
Definition _extract_parameters (self : HMA1 Model) (parent_row : Series string)
    (table_name foreign_key : string) : result (list (string * cell)) :=
  let prefix := ext_prefix table_name foreign_key in
  let flat_parameters :=
    List.filter (fun kv => startswith prefix kv.1) parent_row in
  let num_rows_key := prefix +:+ "num_rows" in
  rbind
    (if s_mem String.eqb num_rows_key flat_parameters
     then
       let num_rows := row_get num_rows_key flat_parameters in
       rbind (reg_getitem num_rows_key (_max_child_rows self)) (fun recorded =>
       Ok (row_set num_rows_key (py_min recorded num_rows) flat_parameters))
     else Ok flat_parameters)
    (fun flat_parameters =>
       Ok (map (fun kv => (drop_chars (String.length prefix) kv.1, kv.2))
               flat_parameters)).

(** [if name:] on a name that may be [None]: the empty string is falsy. *)
Definition truthy (name : option string) : option string :=
  match name with
  | Some "" | None => None
  | Some n => Some n
  end.

(** [HMA1._sample_rows]; [num_rows or model._num_rows] takes the
    model's count for [None] and for [0] alike. *)
Definition _sample_rows (model : Model) (table_name : string)
    (num_rows : option nat) : M W DataFrame :=
  let num_rows :=
    match num_rows with
    | Some (S n) => S n
    | Some O | None => _num_rows cap model
    end in
  sampled <~ _sample_with_progress_bar cap model num_rows ;;
  match truthy (get_primary_key metadata table_name) with
  | Some primary_key_name =>
      primary_key_values <~ _get_primary_keys cap table_name (df_len sampled) ;;
      lift (df_set_values primary_key_name primary_key_values sampled)
  | None => mret sampled
  end.

(** [row[key]] for a key that may be [None]. *)
Definition row_getitem (key : option string) (row : Series string) : result cell :=
  match key with
  | Some k => match s_get String.eqb k row with
              | Some c => Ok c
              | None => Raise KeyError
              end
  | None => Raise KeyError
  end.

(** [xs[0]] *)
Definition first {A} (xs : list A) : result A :=
  match xs with x :: _ => Ok x | [] => Raise IndexError end.

(** [HMA1._sample_child_rows] *)
Definition _sample_child_rows (self : HMA1 Model)
    (table_name parent_name : string) (parent_row : Series string)
    (sampled_data : Tables) : M W Tables :=
  foreign_key <~ lift (first (get_foreign_keys metadata parent_name table_name)) ;;
  parameters <~ lift (_extract_parameters self parent_row table_name foreign_key) ;;
  fitted <~ lift (reg_getitem table_name (_models self)) ;;
  let table_meta := get_metadata cap fitted in
  model <~ lift (set_parameters cap table_meta parameters) ;;
  table_rows <~ _sample_rows model table_name None ;;
  if (df_len table_rows =? 0)%nat then mret sampled_data
  else
    let parent_key := get_primary_key metadata parent_name in
    parent_id <~ lift (row_getitem parent_key parent_row) ;;
    let table_rows := df_set_scalar foreign_key parent_id table_rows in
    match d_get String.eqb table_name sampled_data with
    | None => mret (d_set String.eqb table_name table_rows sampled_data)
    | Some previous =>
        mret (d_set String.eqb table_name (concat_reset previous table_rows)
                    sampled_data)
    end.

(** The parent row asks for no child row: whatever model is set from
    its parameters has a row count of zero. *)
Definition asks_for_none (self : HMA1 Model) (child_name table_name : string)
    (parent_row : Series string) : Prop :=
  forall foreign_key parameters fitted model,
    first (get_foreign_keys metadata table_name child_name) = Ok foreign_key ->
    _extract_parameters self parent_row child_name foreign_key = Ok parameters ->
    _models self !! child_name = Some fitted ->
    set_parameters cap (get_metadata cap fitted) parameters = Ok model ->
    _num_rows cap model = 0%nat.

(** The inner loop of [_sample_children]: one call of
    [_sample_child_rows] per row of the parent table. *)
Definition sample_child_table (self : HMA1 Model) (child_name table_name : string)
    (table_rows : DataFrame) (sampled_data : Tables) : M W Tables :=
  for_each (fun sampled_data (row : Row) =>
              _sample_child_rows self child_name table_name row.2 sampled_data)
           (records table_rows) sampled_data.

(** [HMA1._sample_children]; [fuel] bounds the depth of the recursion. *)
Fixpoint _sample_children (fuel : nat) (self : HMA1 Model) (table_name : string)
    (sampled_data : Tables) (table_rows : DataFrame) : M W Tables :=
  match fuel with
  | O => lift (Raise RecursionError)
  | S fuel =>
      for_each
        (fun sampled_data child_name =>
           if d_mem String.eqb child_name sampled_data then mret sampled_data
           else
             sampled_data <~ sample_child_table self child_name table_name
                               table_rows sampled_data ;;
             child_rows <~ lift (d_getitem String.eqb child_name sampled_data) ;;
             _sample_children fuel self child_name sampled_data child_rows)
        (get_children metadata table_name) sampled_data
  end.
(** The batch of child rows sampled for one parent row: how many rows
    the model set from the parameters of the row sampled, and, when it
    sampled any, the primary-key value of the row that was stamped on
    them. *)
Definition batch_of (self : HMA1 Model) (child_name parent_name foreign_key : string)
    (parent : Row) (batch : nat * cell) : Prop :=
  exists parameters fitted model (w0 w1 : W) sampled,
    _extract_parameters self parent.2 child_name foreign_key = Ok parameters
    /\ _models self !! child_name = Some fitted
    /\ set_parameters cap (get_metadata cap fitted) parameters = Ok model
    /\ _sample_rows model child_name None w0 = Ok (sampled, w1)
    /\ batch.1 = df_len sampled
    /\ (batch.1 <> 0%nat ->
        row_getitem (get_primary_key metadata parent_name) parent.2 = Ok batch.2).

(** The child table was generated from the rows of the parent table:
    there is one batch for each parent row, in the order of the rows,
    and the foreign-key column of the child table reads, batch after
    batch, the key of the parent row of the batch on each of its rows. *)
Definition generated_from (self : HMA1 Model) (child_name : string)
    (child_rows : DataFrame) (parent_name : string) (parent_rows : DataFrame) : Prop :=
  exists foreign_key batches,
    first (get_foreign_keys metadata parent_name child_name) = Ok foreign_key
    /\ Forall2 (batch_of self child_name parent_name foreign_key)
               (records parent_rows) batches
    /\ map (fun r : Row => row_get foreign_key r.2) (records child_rows)
       = flat_map (fun batch : nat * cell => repeat batch.2 batch.1) batches.

(** The fallback ladder of [_find_parent_id]: the series the weights
    are computed from.  The mean is the one pandas computes. *)
Definition ladder (likelihoods num_rows : Series cell) : Series cell :=
  let mean := series_mean cap (s_values likelihoods) in
  if s_all_zero likelihoods then num_rows
  else if isnull mean || py_eq mean 0 then s_fillna_series cell_eqb num_rows likelihoods
  else s_fillna mean likelihoods.

(** The weights [_find_parent_id] hands to [np.random.choice]: the sum
    and the quotients are the ones pandas and numpy compute. *)
Definition choice_weights (likelihoods : Series cell) : list cell :=
  let total := series_sum cap (s_values likelihoods) in
  if py_eq total 0 then
    let length := length likelihoods in
    repeat (float_div cap (Some 1%Q) (Some (inject_Z (Z.of_nat length)))) length
  else
    map (fun c => float_div cap c total) (s_values likelihoods).

(** [HMA1._find_parent_id] *)
Definition _find_parent_id (likelihoods num_rows : Series cell) : M W cell :=
  let likelihoods := ladder likelihoods num_rows in
  random_choice cap (s_index likelihoods) (choice_weights likelihoods).

(** [pd.DataFrame(likelihoods, index=index)], row by row: column
    [parent_id] holds the array stored under it, or nothing but missing
    values when [None] was stored.  An array of the wrong length is a
    [ValueError]. *)
Definition likelihood_frame (likelihoods : list (cell * option (list cell)))
    (index : list cell) : result (list (cell * Series cell)) :=
  if forallb (fun kv : cell * option (list cell) =>
                match kv.2 with
                | Some values => (length values =? length index)%nat
                | None => true
                end) likelihoods
  then Ok (imap (fun i label =>
                   (label,
                    map (fun kv : cell * option (list cell) =>
                           (kv.1, match kv.2 with
                                  | Some values => nth i values NaN
                                  | None => NaN
                                  end)) likelihoods)) index)
  else Raise ValueError.

(** The loop body of [_get_likelihoods]. *)
Definition likelihood_of_parent (self : HMA1 Model) (table_rows : DataFrame)
    (table_name foreign_key : string)
    (likelihoods : list (cell * option (list cell))) (parent : Row)
  : result (list (cell * option (list cell))) :=
  let parent_id := parent.1 in
  rbind (_extract_parameters self parent.2 table_name foreign_key) (fun parameters =>
  rbind (reg_getitem table_name (_models self)) (fun fitted =>
  let table_meta := get_metadata cap fitted in
  rbind (set_parameters cap table_meta parameters) (fun model =>
  match get_likelihood cap model table_rows with
  | Ok values => Ok (d_set cell_eqb parent_id (Some values) likelihoods)
  | Raise AttributeError | Raise LinAlgError =>
      Ok (d_set cell_eqb parent_id None likelihoods)
  | Raise e => Raise e
  end))).

(** [HMA1._get_likelihoods] *)
Definition _get_likelihoods (self : HMA1 Model) (table_rows parent_rows : DataFrame)
    (table_name foreign_key : string) : result (list (cell * Series cell)) :=
  rbind (rfor_each (likelihood_of_parent self table_rows table_name foreign_key)
                   (records parent_rows) [])
        (fun likelihoods => likelihood_frame likelihoods (df_index table_rows)).

(** [HMA1._find_parent_ids] *)
Definition _find_parent_ids (self : HMA1 Model)
    (table_name parent_name foreign_key : string) (sampled_data : Tables)
  : M W (Series cell) :=
  table_rows <~ lift (d_getitem String.eqb table_name sampled_data) ;;
  parent_rows <~
    match d_get String.eqb parent_name sampled_data with
    | Some rows => mret rows
    | None =>
        parent_size <~ lift (reg_getitem parent_name (_table_sizes self)) ;;
        table_size <~ lift (reg_getitem table_name (_table_sizes self)) ;;
        ratio <~ lift (if (table_size =? 0)%nat then Raise ZeroDivisionError
                       else Ok (inject_Z (Z.of_nat parent_size)
                                / inject_Z (Z.of_nat table_size))%Q) ;;
        let num_parent_rows :=
          Nat.max (Z.to_nat (py_round (inject_Z (Z.of_nat (df_len table_rows)) * ratio)%Q))
                  1 in
        parent_model <~ lift (reg_getitem parent_name (_models self)) ;;
        _sample_rows parent_model parent_name (Some num_parent_rows)
    end ;;
  let primary_key := get_primary_key metadata parent_name in
  parent_rows <~ lift (match primary_key with
                       | Some k => set_index k parent_rows
                       | None => Raise KeyError
                       end) ;;
  column <~ lift (df_getitem (ext_prefix table_name foreign_key +:+ "num_rows")
                             parent_rows) ;;
  let num_rows := s_clip_lower 0 (s_fillna (Some 0%Q) column) in
  likelihoods <~ lift (_get_likelihoods self table_rows parent_rows
                                        table_name foreign_key) ;;
  for_each (fun (parent_ids : Series cell) (row : cell * Series cell) =>
              parent_id <~ _find_parent_id row.2 num_rows ;;
              mret (parent_ids ++ [(row.1, parent_id)]))
           likelihoods [].

(** [s.dropna()] *)
Definition dropna {L} (s : Series L) : Series L :=
  List.filter (fun kv => negb (isnull kv.2)) s.

(** [s.astype(dtype)] on a series without missing values. *)
Definition s_astype {L} (dt : dtype) (s : Series L) : Series L :=
  map (fun kv => (kv.1, option_map (astype cap dt) kv.2)) s.

(** The foreign-key part of [_finalize] for one table: a declared
    foreign key the table lacks is drawn by [_find_parent_ids].  The
    table is the very object stored in [sampled_data], so each
    assignment shows there. *)
Definition add_parent_keys (self : HMA1 Model) (table_name : string)
    (sampled_data : Tables) : M W Tables :=
  for_each
    (fun sampled_data parent_name =>
       for_each
         (fun sampled_data foreign_key =>
            table_rows <~ lift (d_getitem String.eqb table_name sampled_data) ;;
            if inb foreign_key (columns table_rows) then mret sampled_data
            else
              parent_ids <~ _find_parent_ids self table_name parent_name
                              foreign_key sampled_data ;;
              table_rows <~ lift (df_set_series foreign_key parent_ids table_rows) ;;
              mret (d_set String.eqb table_name table_rows sampled_data))
         (get_foreign_keys metadata parent_name table_name) sampled_data)
    (get_parents metadata table_name) sampled_data.

(** The dtype part of [_finalize] for one table:
    [table_rows[name] = table_rows[name].dropna().astype(dtype)]. *)
Definition apply_dtypes (dtypes : list (string * dtype)) (table_rows : DataFrame)
  : result DataFrame :=
  rfor_each (fun table_rows (nd : string * dtype) =>
               rbind (df_getitem nd.1 table_rows) (fun column =>
               df_set_series nd.1 (s_astype nd.2 (dropna column)) table_rows))
            dtypes table_rows.


(** [HMA1._finalize] *)
Definition _finalize (self : HMA1 Model) (sampled_data : Tables) : M W Tables :=
  out <~ for_each
    (fun (st : Tables * Tables) table_name =>
       let (sampled_data, final_data) := st in
       sampled_data <~ add_parent_keys self table_name sampled_data ;;
       table_rows <~ lift (d_getitem String.eqb table_name sampled_data) ;;
       let dtypes := get_dtypes metadata table_name in
       table_rows <~ lift (apply_dtypes dtypes table_rows) ;;
       final <~ lift (df_select (map fst dtypes) table_rows) ;;
       mret (d_set String.eqb table_name table_rows sampled_data,
             d_set String.eqb table_name final final_data))
    (map fst sampled_data) (sampled_data, []) ;;
  mret out.2.

(** [HMA1._sample_table] *)
Definition _sample_table (fuel : nat) (self : HMA1 Model) (table_name : string)
    (num_rows : option nat) (sample_children : bool) (sampled_data : option Tables)
  : M W Tables :=
  let sampled_data := default [] sampled_data in
  num_rows <~ match num_rows with
              | None => lift (reg_getitem table_name (_table_sizes self))
              | Some n => mret n
              end ;;
  model <~ lift (reg_getitem table_name (_models self)) ;;
  table_rows <~ _sample_rows model table_name (Some num_rows) ;;
  let sampled_data := d_set String.eqb table_name table_rows sampled_data in
  if sample_children
  then _sample_children fuel self table_name sampled_data table_rows
  else mret sampled_data.

(** What [_sample] returns: the whole dataset, or one table. *)
Inductive Sampled : Type :=
| Dataset (tables : Tables)
| Table (rows : DataFrame).

(** [HMA1._sample] *)
Definition _sample (fuel : nat) (self : HMA1 Model) (table_name : option string)
    (num_rows : option nat) (sample_children : bool) : M W Sampled :=
  match truthy table_name with
  | Some table_name =>
      sampled_data <~ _sample_table fuel self table_name num_rows sample_children None ;;
      sampled_data <~ _finalize self sampled_data ;;
      if sample_children then mret (Dataset sampled_data)
      else
        rows <~ lift (d_getitem String.eqb table_name sampled_data) ;;
        mret (Table rows)
  | None =>
      sampled_data <~ for_each
        (fun sampled_data table =>
           match get_parents metadata table with
           | [] => _sample_table fuel self table num_rows true (Some sampled_data)
           | _ :: _ => mret sampled_data
           end)
        (get_tables metadata) [] ;;
      sampled_data <~ _finalize self sampled_data ;;
      mret (Dataset sampled_data)
  end.
(** ** Modeling *)

(** [row.loc[columns] = None]: a [KeyError] when a label is not in the row. *)
Definition loc_set_missing (cols : list string) (row : Series string)
  : result (Series string) :=
  if forallb (fun c => s_mem String.eqb c row) cols
  then Ok (fold_left (fun r c => row_set c NaN r) cols row)
  else Raise KeyError.

(** The [try] block of [_get_extension] for one group of child rows.
    It returns [scale_columns] as the block leaves it, and the row to
    append or the exception that ended the block. *)
Definition fit_group (table_meta : TableMeta) (child_name foreign_key : string)
    (scale_columns : option (list string)) (child_rows : DataFrame)
  : option (list string) * result (Series string) :=
  match model_fit cap false table_meta (reset_index_drop child_rows) with
  | Raise e => (scale_columns, Raise e)
  | Ok model =>
      match get_parameters cap model with
      | Raise e => (scale_columns, Raise e)
      | Ok row =>
          let row := map (fun kv : string * cell =>
                            (ext_prefix child_name foreign_key +:+ kv.1, kv.2)) row in
          let scale_columns :=
            match scale_columns with
            | None => List.filter (endswith "scale") (s_index row)
            | Some cols => cols
            end in
          (Some scale_columns,
           if (df_len child_rows =? 1)%nat
           then loc_set_missing scale_columns row
           else Ok row)
      end
  end.

(** The loop-carried state of [_get_extension]. *)
Record Extension : Type := mkExtension {
  extension_rows : list (Series string);
  index : list cell;
  scale_columns : option (list string);
}.

(** The rows of one foreign-key value, without the child's primary key. *)
Definition group_rows (child_primary : option string) (child_table : DataFrame)
    (foreign_key_value : cell) : result DataFrame :=
  rbind (loc_label foreign_key_value child_table) (fun child_rows =>
  Ok (match child_primary with
      | Some pk => if inb pk (columns child_rows) then df_del pk child_rows
                   else child_rows
      | None => child_rows
      end)).

(** The group of a foreign-key value was fit and its parameters read:
    the first two statements of the [try] block returned. *)
Definition group_fits (table_meta : TableMeta) (child_primary : option string)
    (child_table : DataFrame) (foreign_key_value : cell) : Prop :=
  exists child_rows model row,
    group_rows child_primary child_table foreign_key_value = Ok child_rows
    /\ model_fit cap false table_meta (reset_index_drop child_rows) = Ok model
    /\ get_parameters cap model = Ok row.





(** The loop body of [_get_extension]: [except Exception: pass] drops
    the group whose block raised. *)
Definition extension_step (table_meta : TableMeta) (child_name foreign_key : string)
    (child_primary : option string) (child_table : DataFrame)
    (st : Extension) (foreign_key_value : cell) : result Extension :=
  rbind (group_rows child_primary child_table foreign_key_value) (fun child_rows =>
  match fit_group table_meta child_name foreign_key (scale_columns st) child_rows with
  | (cols, Ok row) =>
      Ok {| extension_rows := extension_rows st ++ [row];
            index := index st ++ [foreign_key_value];
            scale_columns := cols |}
  | (cols, Raise _) =>
      Ok {| extension_rows := extension_rows st;
            index := index st;
            scale_columns := cols |}
  end).

(** The loop of [_get_extension], from the table indexed by the key. *)
Definition extension_loop (table_meta : TableMeta) (child_name foreign_key : string)
    (child_primary : option string) (child_table : DataFrame)
    (foreign_key_values : list cell) : result Extension :=
  rfor_each (extension_step table_meta child_name foreign_key child_primary child_table)
            foreign_key_values
            {| extension_rows := []; index := []; scale_columns := None |}.

(** [HMA1._get_extension] *)
Definition _get_extension (self : HMA1 Model) (child_name : string)
    (child_table : DataFrame) (foreign_key : string) : result DataFrame :=
  rbind (reg_getitem child_name (_models self)) (fun fitted =>
  let table_meta := get_metadata cap fitted in
  rbind (df_getitem foreign_key child_table) (fun column =>
  let foreign_key_values := unique (s_values column) in
  rbind (set_index foreign_key child_table) (fun child_table =>
  let child_primary := get_primary_key metadata child_name in
  rbind (extension_loop table_meta child_name foreign_key child_primary
                        child_table foreign_key_values) (fun st =>
  Ok (DataFrame_of_rows (extension_rows st) (index st)))))).

(** [HMA1._load_table] *)
Definition _load_table (tables : Tables) (table_name : string)
  : result (DataFrame * Tables) :=
  match d_get String.eqb table_name tables with
  | Some table => Ok (table, tables)
  | None =>
      rbind (load_table metadata table_name) (fun table =>
      Ok (table, d_set String.eqb table_name table tables))
  end.

(** The body of the inner loop of [_extend_table], for one foreign key
    of one child.  [table[num_rows_key]] is the frame's own column (the
    pandas of the code's day, without copy-on-write), so filling it in
    place fills the frame. *)
Definition extend_with_key (child_name : string) (child_table : DataFrame)
    (st : HMA1 Model * DataFrame) (foreign_key : string)
  : result (HMA1 Model * DataFrame) :=
  let (self, table) := st in
  rbind (_get_extension self child_name child_table foreign_key) (fun extension =>
  let table := merge_left_index table extension in
  let num_rows_key := ext_prefix child_name foreign_key +:+ "num_rows" in
  rbind (df_getitem num_rows_key table) (fun _ =>
  let table := df_fillna_column num_rows_key (Some 0%Q) table in
  rbind (df_getitem num_rows_key table) (fun column =>
  Ok (mkHMA1 (_models self) (_table_sizes self)
             (<[num_rows_key := s_max column]> (_max_child_rows self)),
      table)))).

(** [HMA1._extend_table]; [model_table] is the recursive call
    [self._model_table]. *)
Definition _extend_table
    (model_table : HMA1 Model -> string -> Tables
                   -> result (DataFrame * HMA1 Model * Tables))
    (self : HMA1 Model) (table : DataFrame) (tables : Tables) (table_name : string)
  : result (DataFrame * HMA1 Model * Tables) :=
  rfor_each
    (fun (st : DataFrame * HMA1 Model * Tables) child_name =>
       let '(table, self, tables) := st in
       rbind (match _models self !! child_name with
              | None => model_table self child_name tables
              | Some _ =>
                  rbind (d_getitem String.eqb child_name tables) (fun child_table =>
                  Ok (child_table, self, tables))
              end) (fun child =>
       let '(child_table, self, tables) := child in
       let foreign_keys := get_foreign_keys metadata table_name child_name in
       rbind (rfor_each (extend_with_key child_name child_table)
                        foreign_keys (self, table)) (fun out =>
       Ok (out.2, out.1, tables))))
    (get_children metadata table_name) (table, self, tables).

(** [df.pop(c)] *)
Definition df_pop (c : string) (df : DataFrame) : result (list cell * DataFrame) :=
  rbind (df_getitem c df) (fun column => Ok (s_values column, df_del c df)).

(** [del d[k]] *)
Definition d_del {V} (k : string) (d : list (string * V)) : result (list (string * V)) :=
  if d_mem String.eqb k d
  then Ok (List.filter (fun kv => negb (String.eqb kv.1 k)) d)
  else Raise KeyError.

(** [HMA1._prepare_for_modeling].  The table is changed in place, so it
    is returned with the metadata and the id columns.  Every cell is a
    float here, which is the branch of the [dtype] test that imputes
    the mean. *)
Definition _prepare_for_modeling (table_data : DataFrame) (table_name : string)
    (primary_key : option string)
  : result (TableMeta * list (string * list cell) * DataFrame) :=
  let table_meta := get_table_meta metadata table_name in
  rbind (match truthy primary_key with
         | Some pk => d_del pk (tm_fields table_meta)
         | None => Ok (tm_fields table_meta)
         end) (fun fields =>
  let pk_meta := match truthy primary_key with
                 | Some _ => None
                 | None => tm_primary_key table_meta
                 end in
  rbind (rfor_each
           (fun (st : list (string * FieldMeta) * list (string * list cell) * DataFrame)
                (nf : string * FieldMeta) =>
              let '(fields, keys, table_data) := st in
              if String.eqb (f_type nf.2) "id"
              then rbind (df_pop nf.1 table_data) (fun popped =>
                   rbind (d_del nf.1 fields) (fun fields =>
                   Ok (fields, d_set String.eqb nf.1 popped.1 keys, popped.2)))
              else Ok st)
           fields (fields, [], table_data)) (fun st =>
  let '(fields, keys, table_data) := st in
  rbind (rfor_each
           (fun (st : list (string * FieldMeta) * DataFrame) column =>
              let (fields, table_data) := st in
              if d_mem String.eqb column fields then Ok st
              else
                rbind (df_getitem column table_data) (fun column_data =>
                let fill_value :=
                  if forallb isnull (s_values column_data) then Some 0%Q
                  else s_mean column_data in
                Ok (d_set String.eqb column (mkField "numerical" (Some "float")) fields,
                    df_fillna_column column fill_value table_data)))
           (columns table_data) (fields, table_data)) (fun st =>
  Ok (mkTableMeta (Some table_name) pk_meta st.1, keys, st.2)))).

(** [df.reset_index(inplace=True)] on a frame indexed by column [c]. *)
Definition reset_index (c : string) (df : DataFrame) : DataFrame :=
  {| columns := c :: columns df;
     records := zip_with (fun i (r : Row) => (i, (c, r.1) :: r.2))
                         (range_index (df_len df)) (records df) |}.

(** [HMA1._model_table]; [fuel] bounds the depth of the recursion. *)
Fixpoint _model_table (fuel : nat) (self : HMA1 Model) (table_name : string)
    (tables : Tables) : result (DataFrame * HMA1 Model * Tables) :=
  match fuel with
  | O => Raise RecursionError
  | S fuel =>
      rbind (_load_table tables table_name) (fun loaded =>
      let (table, tables) := loaded in
      let self := mkHMA1 (_models self)
                         (<[table_name := df_len table]> (_table_sizes self))
                         (_max_child_rows self) in
      let primary_key := get_primary_key metadata table_name in
      rbind (match truthy primary_key with
             | Some pk =>
                 rbind (set_index pk table) (fun table =>
                 _extend_table (_model_table fuel) self table tables table_name)
             | None => Ok (table, self, tables)
             end) (fun extended =>
      let '(table, self, tables) := extended in
      rbind (_prepare_for_modeling table table_name primary_key) (fun prepared =>
      let '(table_meta, keys, table) := prepared in
      rbind (model_fit cap true table_meta table) (fun model =>
      let self := mkHMA1 (<[table_name := model]> (_models self))
                         (_table_sizes self) (_max_child_rows self) in
      let table := match truthy primary_key with
                   | Some pk => reset_index pk table
                   | None => table
                   end in
      rbind (rfor_each (fun table (kv : string * list cell) =>
                          df_set_values kv.1 kv.2 table) keys table) (fun table =>
      Ok (table, self, d_set String.eqb table_name table tables))))))
  end.

(** [HMA1._fit] *)
Definition _fit (fuel : nat) (self : HMA1 Model) (tables : option Tables)
  : result (HMA1 Model) :=
  rbind (validate metadata tables) (fun _ =>
  let tables := default [] tables in
  rbind (rfor_each
           (fun (st : HMA1 Model * Tables) table_name =>
              match get_parents metadata table_name with
              | [] =>
                  rbind (_model_table fuel st.1 table_name st.2) (fun out =>
                  Ok (out.1.2, out.2))
              | _ :: _ => Ok st
              end)
           (get_tables metadata) (self, tables)) (fun st =>
  Ok st.1)).

(** The registries only grow from [self] to [self']: what has an entry
    keeps one. *)
Definition grows (self self' : HMA1 Model) : Prop :=
  (forall k, is_Some (_models self !! k) -> is_Some (_models self' !! k))
  /\ (forall k, is_Some (_table_sizes self !! k) -> is_Some (_table_sizes self' !! k))
  /\ (forall k, is_Some (_max_child_rows self !! k) ->
                is_Some (_max_child_rows self' !! k)).

(** What sampling looks up is there: a table that has a model has a
    size and, when it has a primary key, a model for each of its
    children and a recorded maximum for each foreign key of theirs. *)
Definition registered (self : HMA1 Model) : Prop :=
  forall table_name,
    is_Some (_models self !! table_name) ->
    is_Some (_table_sizes self !! table_name)
    /\ (is_Some (truthy (get_primary_key metadata table_name)) ->
        forall child_name,
          In child_name (get_children metadata table_name) ->
          is_Some (_models self !! child_name)
          /\ forall foreign_key,
               In foreign_key (get_foreign_keys metadata table_name child_name) ->
               is_Some (_max_child_rows self
                          !! (ext_prefix child_name foreign_key +:+ "num_rows"))).
End HMA1.

(** * A small instance

    A two-table schema, [parent(id, a)] and [child(id, parent_id, b)],
    and a table model simple enough to run: it is used to evaluate the
    algorithm on concrete data. *)

Module Toy.

Inductive dtype : Type := int64 | float64.

Record Model : Type := mkModel {
  meta : TableMeta;
  parameters : list (string * cell);
}.

Definition all_cells (df : DataFrame) : list cell :=
  flat_map (fun r : Row => s_values r.2) (records df).

(** Fitting fails on a table with a missing cell; the parameters are
    the mean of all cells, a spread and the number of rows. *)
Definition fit (_ : bool) (m : TableMeta) (df : DataFrame) : result Model :=
  if existsb isnull (all_cells df) then Raise LinAlgError
  else Ok (mkModel m
             [("loc", s_mean (map (fun c => (tt, c)) (all_cells df)));
              ("scale", Some (inject_Z (Z.of_nat (df_len df))));
              ("num_rows", Some (inject_Z (Z.of_nat (df_len df))))]).

Definition num_rows_of (m : Model) : nat :=
  match s_get String.eqb "num_rows" (parameters m) with
  | Some (Some q) => Z.to_nat (py_round q)
  | _ => 0%nat
  end.

(** Sampling returns as many rows as asked for, over the fields of the
    model's metadata; the cells count up from the world's counter,
    modulo 4. *)
Definition sample (m : Model) (n : nat) (w : nat) : result (DataFrame * nat) :=
  let cs := map fst (tm_fields (meta m)) in
  Ok ({| columns := cs;
         records :=
           map (fun i : nat =>
                  (Some (inject_Z (Z.of_nat i)),
                   map (fun c => (c, Some (inject_Z (Z.of_nat ((w + i) mod 4))))) cs))
               (seq 0 n) |},
      (w + n)%nat).

(** The likelihood is the [loc] parameter for every row; without one the
    evaluation fails. *)
Definition likelihood (m : Model) (df : DataFrame) : result (list cell) :=
  match s_get String.eqb "loc" (parameters m) with
  | Some (Some q) => Ok (map (fun _ => Some q) (records df))
  | Some None => Raise LinAlgError
  | None => Raise AttributeError
  end.

(** Fresh keys count up from the world's counter. *)
Definition primary_keys (_ : string) (n : nat) (w : nat) : result (list cell * nat) :=
  Ok (map (fun i => Some (inject_Z (Z.of_nat (w + i)))) (seq 0 n), (w + n)%nat).

(** The draw picks the first label of positive weight. *)
Definition choice (a p : list cell) (w : nat) : result (cell * nat) :=
  match List.find (fun ap : cell * cell =>
                     match ap.2 with
                     | Some q => negb (Qle_bool q 0)
                     | None => false
                     end) (zip a p) with
  | Some ap => Ok (ap.1, w)
  | None => Raise ValueError
  end.

Definition cast (d : dtype) (q : Q) : Q :=
  match d with
  | int64 => inject_Z (Z.quot (Qnum q) (Zpos (Qden q)))
  | float64 => q
  end.

(** The arithmetic of the small instance is exact: the mean and the sum
    of the defined values, and a quotient that is missing for a zero
    divisor. *)
Definition mean (cs : list cell) : cell := s_mean (map (fun c => (tt, c)) cs).

Definition sum (cs : list cell) : cell := Some (Qsum (valid cs)).

Definition div (a b : cell) : cell :=
  match a, b with
  | Some x, Some y => if Qeq_bool y 0 then NaN else Some (x / y)%Q
  | _, _ => NaN
  end.

Definition cap : Capability nat dtype Model :=
  {| model_fit := fit;
     get_metadata := meta;
     get_parameters := fun m => Ok (parameters m);
     set_parameters := fun tm p => Ok (mkModel tm p);
     _num_rows := num_rows_of;
     _sample_with_progress_bar := sample;
     get_likelihood := likelihood;
     _get_primary_keys := primary_keys;
     random_choice := choice;
     astype := cast;
     series_mean := mean;
     series_sum := sum;
     float_div := div |}.



Definition is_parent (t : string) : bool := String.eqb t "parent".
Definition is_child (t : string) : bool := String.eqb t "child".

(** The schema, with the foreign keys of the pair as a parameter. *)
Definition schema (foreign_keys : list string) : Metadata dtype :=
  {| get_tables := ["parent"; "child"];
     get_parents := fun t => if is_child t then ["parent"] else [];
     get_children := fun t => if is_parent t then ["child"] else [];
     get_foreign_keys := fun p c =>
       if is_parent p && is_child c then foreign_keys else [];
     get_primary_key := fun t =>
       if is_parent t || is_child t then Some "id" else None;
     get_dtypes := fun t =>
       if is_parent t then [("id", int64); ("a", float64)]
       else if is_child t
            then [("id", int64)] ++ map (fun k => (k, int64)) foreign_keys
                 ++ [("b", float64)]
            else [];
     get_table_meta := fun t =>
       if is_parent t
       then mkTableMeta None (Some "id")
              [("id", mkField "id" None); ("a", mkField "numerical" (Some "float"))]
       else mkTableMeta None (Some "id")
              ([("id", mkField "id" None)]
               ++ map (fun k => (k, mkField "id" None)) foreign_keys
               ++ [("b", mkField "numerical" (Some "float"))]);
     load_table := fun _ => Raise KeyError;
     validate := fun _ => Ok tt |}.

Definition metadata : Metadata dtype := schema ["parent_id"].

Definition num (z : Z) : cell := Some (inject_Z z).

Definition frame (cs : list string) (rows : list (list cell)) : DataFrame :=
  {| columns := cs;
     records := zip_with (fun i vs => (i, zip cs vs))
                         (range_index (length rows)) rows |}.

(** Three parent rows with two, one and no child rows. *)
Definition parent_table : DataFrame :=
  frame ["id"; "a"] [[num 1; num 10]; [num 2; num 20]; [num 3; num 30]].

Definition child_table : DataFrame :=
  frame ["id"; "parent_id"; "b"]
        [[num 1; num 1; num 5]; [num 2; num 1; num 7]; [num 3; num 2; num 9]].

Definition tables : list (string * DataFrame) :=
  [("parent", parent_table); ("child", child_table)].

Definition unfitted : HMA1 Model := mkHMA1 ∅ ∅ ∅.

(** The instance fit on [tables]. *)
Definition fitted : HMA1 Model :=
  match _fit metadata cap 5 unfitted (Some tables) with
  | Ok self => self
  | Raise _ => unfitted
  end.


(** A child table whose group for parent 2 cannot be fit (a missing
    cell), and which has no row for parent 4. *)
Definition child_table_gap : DataFrame :=
  frame ["id"; "parent_id"; "b"]
        [[num 1; num 1; num 5]; [num 2; num 1; num 7];
         [num 3; num 2; NaN]; [num 4; num 3; num 9]].

(** The parent table indexed by its primary key. *)
Definition parent_indexed : DataFrame :=
  match set_index "id" parent_table with
  | Ok table => table
  | Raise _ => parent_table
  end.

(** Three sampled parent rows. *)
Definition sampled_parents : DataFrame :=
  match _sample_table metadata cap 5 fitted "parent" (Some 3%nat) false None 100%nat with
  | Ok ([(_, rows)], _) => rows
  | _ => parent_table
  end.

(** Sampled parent rows that all ask for no child row. *)
Definition childless_parents : DataFrame :=
  frame ["a"; "__child__parent_id__loc"; "__child__parent_id__scale";
         "__child__parent_id__num_rows"; "id"]
        [[num 1; num 6; num 1; num 0; num 100];
         [num 2; num 6; num 1; num 0; num 101]].

(** Sampled parent rows, one of them with a missing value. *)
Definition gappy_parents : DataFrame :=
  frame ["id"; "a"] [[num 100; num 5]; [num 101; NaN]].



(** A sampled parent row that asks for three child rows. *)
Definition parent_row : Series string :=
  [("a", num 7);
   ("__child__parent_id__loc", num 6);
   ("__child__parent_id__scale", num 1);
   ("__child__parent_id__num_rows", num 3);
   ("id", num 100)].

End Toy.

(** * Properties *)

(** ** Labels *)

Lemma cell_eqb_refl (c : cell) : cell_eqb c c = true.
Proof. destruct c as [q|]; simpl; [apply Qeq_bool_iff, Qeq_refl | reflexivity]. Qed.

Lemma cell_eqb_sym_false (a b : cell) : cell_eqb a b = false -> cell_eqb b a = false.
Proof.
  destruct a as [x|], b as [y|]; simpl; auto.
  intros H. destruct (Qeq_bool y x) eqn:E; [|reflexivity].
  apply Qeq_bool_iff, Qeq_sym, Qeq_bool_iff in E. congruence.
Qed.

Lemma cell_eqb_trans_r (a b v : cell) :
  cell_eqb a v = true -> cell_eqb b v = true -> cell_eqb a b = true.
Proof.
  destruct a as [x|], b as [y|], v as [z|]; simpl; try discriminate; auto.
  rewrite !Qeq_bool_iff. intros H1 H2. rewrite H1, H2. reflexivity.
Qed.

Lemma cell_eqb_sym (a b : cell) : cell_eqb a b = cell_eqb b a.
Proof.
  destruct (cell_eqb a b) eqn:E.
  - symmetry. apply (cell_eqb_trans_r b a b); [apply cell_eqb_refl | exact E].
  - symmetry. now apply cell_eqb_sym_false.
Qed.

(** ** Loops *)

Lemma for_each_invariant {W A S} (P : S -> Prop) (body : S -> A -> M W S)
    (xs : list A) (s s' : S) (w w' : W) :
  (forall s x w s' w', P s -> In x xs -> body s x w = Ok (s', w') -> P s') ->
  P s -> for_each body xs s w = Ok (s', w') -> P s'.
Proof.
  revert s w. induction xs as [|x xs IH]; intros s w Hbody Hs H; simpl in H.
  - unfold mret in H. now injection H as <- <-.
  - unfold mbind in H. destruct (body s x w) as [[s1 w1]|e] eqn:E; [|discriminate].
    apply (IH s1 w1); [|eapply Hbody; [exact Hs | now left | exact E] | exact H].
    intros s2 y w2 s3 w3 Hs2 Hy. apply Hbody; [exact Hs2 | now right].
Qed.

Lemma rfor_each_invariant {A S} (P : S -> Prop) (body : S -> A -> result S)
    (xs : list A) (s s' : S) :
  (forall s x s', P s -> In x xs -> body s x = Ok s' -> P s') ->
  P s -> rfor_each body xs s = Ok s' -> P s'.
Proof.
  revert s. induction xs as [|x xs IH]; intros s Hbody Hs H; simpl in H.
  - now injection H as <-.
  - unfold rbind in H. destruct (body s x) as [s1|e] eqn:E; [|discriminate].
    apply (IH s1); [|eapply Hbody; [exact Hs | now left | exact E] | exact H].
    intros s2 y s3 Hs2 Hy. apply Hbody; [exact Hs2 | now right].
Qed.

(** ** Strings *)

Lemma startswith_append (p s : string) : startswith p (p +:+ s) = true.
Proof.
  induction p as [|a p IH]; simpl; [reflexivity|].
  now rewrite Ascii.eqb_refl.
Qed.

Lemma substring_all (s : string) : String.substring 0 (String.length s) s = s.
Proof. induction s as [|a s IH]; simpl; [reflexivity | now rewrite IH]. Qed.

Lemma drop_chars_append (p s : string) :
  drop_chars (String.length p) (p +:+ s) = s.
Proof.
  unfold drop_chars. induction p as [|a p IH]; simpl.
  - rewrite Nat.sub_0_r. apply substring_all.
  - exact IH.
Qed.

Lemma startswith_split (p k : string) :
  startswith p k = true -> k = p +:+ drop_chars (String.length p) k.
Proof.
  revert k. induction p as [|a p IH]; intros k H.
  - unfold drop_chars. simpl. rewrite Nat.sub_0_r. now rewrite substring_all.
  - destruct k as [|b k]; simpl in H; [discriminate|].
    apply andb_prop in H as [E H]. apply Ascii.eqb_eq in E as ->.
    apply IH in H. unfold drop_chars in *. simpl.
    change (String b k = String b (p +:+ String.substring (String.length p)
                           (String.length k - String.length p) k)).
    f_equal. exact H.
Qed.

Lemma append_inj_r (p s t : string) : p +:+ s = p +:+ t -> s = t.
Proof. induction p as [|a p IH]; simpl; [auto | intros [= H]; auto]. Qed.

(** Stripping the prefix turns the namespaced [num_rows] key, and only
    that key, into ["num_rows"]. *)
Lemma strip_is_num_rows (p k : string) :
  startswith p k = true ->
  String.eqb (drop_chars (String.length p) k) "num_rows"
  = String.eqb k (p +:+ "num_rows").
Proof.
  intros H. apply startswith_split in H.
  destruct (String.eqb_spec (drop_chars (String.length p) k) "num_rows") as [E|E];
    destruct (String.eqb_spec k (p +:+ "num_rows")) as [F|F]; try reflexivity.
  - exfalso. apply F. rewrite H, E. reflexivity.
  - exfalso. apply E. rewrite F. apply drop_chars_append.
Qed.

(** ** Rows and series *)

Lemma s_get_s_set_eq (c : string) (v : cell) (r : Series string) :
  s_get String.eqb c (s_set String.eqb c v r) = Some v.
Proof.
  unfold s_get. induction r as [|[k x] r IH]; simpl.
  - now rewrite String.eqb_refl.
  - destruct (String.eqb k c) eqn:E; simpl; rewrite E; [reflexivity | exact IH].
Qed.

Lemma s_get_s_set_ne (c d : string) (v : cell) (r : Series string) :
  c <> d -> s_get String.eqb d (s_set String.eqb c v r) = s_get String.eqb d r.
Proof.
  intros N. unfold s_get. induction r as [|[k x] r IH]; simpl.
  - destruct (String.eqb_spec c d); [contradiction | reflexivity].
  - destruct (String.eqb_spec k c) as [->|]; simpl.
    + destruct (String.eqb_spec c d); [contradiction | reflexivity].
    + destruct (String.eqb k d); [reflexivity | exact IH].
Qed.

Lemma row_get_row_set_eq (c : string) (v : cell) (r : Series string) :
  row_get c (row_set c v r) = v.
Proof. unfold row_get, row_set. now rewrite s_get_s_set_eq. Qed.

Lemma row_get_row_set_ne (c d : string) (v : cell) (r : Series string) :
  c <> d -> row_get d (row_set c v r) = row_get d r.
Proof. intros N. unfold row_get, row_set. now rewrite s_get_s_set_ne. Qed.

Lemma s_index_s_set_mem (c : string) (v : cell) (r : Series string) :
  s_mem String.eqb c r = true -> s_index (s_set String.eqb c v r) = s_index r.
Proof.
  unfold s_index. induction r as [|[k x] r IH]; simpl; [discriminate|].
  destruct (String.eqb k c) eqn:E; simpl; [reflexivity|].
  intros H. f_equal. exact (IH H).
Qed.

Lemma s_mem_s_get (c : string) (r : Series string) :
  s_mem String.eqb c r = false -> s_get String.eqb c r = None.
Proof.
  unfold s_mem, s_get. induction r as [|[k x] r IH]; simpl; [reflexivity|].
  destruct (String.eqb k c); simpl; [discriminate | exact IH].
Qed.

(** ** Python's [min] *)

Lemma py_min_le (recorded : Q) (c : cell) :
  exists q, py_min (Some recorded) c = Some q /\ (q <= recorded)%Q.
Proof.
  unfold py_min, py_lt. destruct c as [x|].
  - destruct (Qle_bool recorded x) eqn:E; simpl.
    + exists recorded. split; [reflexivity | apply Qle_refl].
    + exists x. split; [reflexivity|].
      destruct (Qlt_le_dec x recorded) as [L|L]; [now apply Qlt_le_weak|].
      apply Qle_bool_iff in L. congruence.
  - exists recorded. split; [reflexivity | apply Qle_refl].
Qed.

(** ** Dictionaries *)

Lemma d_get_d_set_eq {V} (k : string) (v : V) (d : list (string * V)) :
  d_get String.eqb k (d_set String.eqb k v d) = Some v.
Proof.
  unfold d_get. induction d as [|[k' v'] d IH]; simpl.
  - now rewrite String.eqb_refl.
  - destruct (String.eqb k' k) eqn:E; simpl; rewrite E; [reflexivity | exact IH].
Qed.

Lemma d_get_d_set_ne {V} (k k' : string) (v : V) (d : list (string * V)) :
  k <> k' -> d_get String.eqb k' (d_set String.eqb k v d) = d_get String.eqb k' d.
Proof.
  intros N. unfold d_get. induction d as [|[j x] d IH]; simpl.
  - destruct (String.eqb_spec k k'); [contradiction | reflexivity].
  - destruct (String.eqb_spec j k) as [->|]; simpl.
    + destruct (String.eqb_spec k k'); [contradiction | reflexivity].
    + destruct (String.eqb j k'); [reflexivity | exact IH].
Qed.

Lemma d_mem_d_get {V} (k : string) (d : list (string * V)) :
  d_mem String.eqb k d = false <-> d_get String.eqb k d = None.
Proof.
  unfold d_mem, d_get. induction d as [|[j x] d IH]; simpl; [tauto|].
  destruct (String.eqb j k); simpl; [split; discriminate | exact IH].
Qed.

(** ** Lengths of frames *)

Lemma df_len_set_scalar (c : string) (v : cell) (df : DataFrame) :
  df_len (df_set_scalar c v df) = df_len df.
Proof. unfold df_len, df_set_scalar. simpl. apply length_map. Qed.

Lemma df_len_set_values (c : string) (vs : list cell) (df df' : DataFrame) :
  df_set_values c vs df = Ok df' -> df_len df' = df_len df.
Proof.
  unfold df_set_values. destruct (Nat.eqb_spec (length vs) (df_len df)) as [E|];
    [|discriminate].
  intros [= <-]. unfold df_len in *. simpl. rewrite length_zip_with. lia.
Qed.

(** ** Parameter extraction *)

Section Extraction.
Context {W dtype Model : Type}.
Context (metadata : Metadata dtype) (cap : Capability W dtype Model).

Lemma s_get_strip (p : string) (flat : Series string) :
  Forall (fun kv : string * cell => startswith p kv.1 = true) flat ->
  s_get String.eqb "num_rows"
        (map (fun kv : string * cell => (drop_chars (String.length p) kv.1, kv.2)) flat)
  = s_get String.eqb (p +:+ "num_rows") flat.
Proof.
  unfold s_get. induction 1 as [|[k v] flat H _ IH]; simpl; [reflexivity|].
  simpl in H. rewrite (strip_is_num_rows p k H).
  destruct (String.eqb k (p +:+ "num_rows")); [reflexivity | exact IH].
Qed.

Lemma Forall_s_set (P : string -> Prop) (c : string) (v : cell) (r : Series string) :
  P c -> Forall (fun kv : string * cell => P kv.1) r ->
  Forall (fun kv : string * cell => P kv.1) (s_set String.eqb c v r).
Proof.
  intros Hc. induction 1 as [|[k x] r H Hr IH]; simpl.
  - constructor; [exact Hc | constructor].
  - destruct (String.eqb k c); constructor; simpl; auto.
Qed.

Lemma s_mem_filter_prefix (p c : string) (r : Series string) :
  startswith p c = true ->
  s_mem String.eqb c (List.filter (fun kv : string * cell => startswith p kv.1) r)
  = s_mem String.eqb c r.
Proof.
  intros Hc. unfold s_mem. induction r as [|[k x] r IH]; simpl; [reflexivity|].
  destruct (startswith p k) eqn:E; simpl.
  - now rewrite IH.
  - rewrite IH. destruct (String.eqb_spec k c) as [->|]; [congruence | reflexivity].
Qed.

(** What [_extract_parameters] returns under ["num_rows"]: Python's
    [min] of the recorded maximum and the parent row's value, when the
    parent row has the namespaced column; nothing otherwise. *)
Lemma extract_num_rows (self : HMA1 Model) (parent_row : Series string)
    (table_name foreign_key : string) (recorded : cell)
    (parameters : list (string * cell)) :
  let prefix := ext_prefix table_name foreign_key in
  _max_child_rows self !! (prefix +:+ "num_rows") = Some recorded ->
  _extract_parameters self parent_row table_name foreign_key = Ok parameters ->
  s_get String.eqb "num_rows" parameters
  = if s_mem String.eqb (prefix +:+ "num_rows") parent_row
    then Some (py_min recorded
                 (row_get (prefix +:+ "num_rows")
                    (List.filter (fun kv : string * cell => startswith prefix kv.1)
                                 parent_row)))
    else None.
Proof.
  intros prefix Hreg. unfold _extract_parameters. fold prefix.
  set (flat := List.filter _ parent_row).
  set (key := prefix +:+ "num_rows") in *.
  assert (Hkey : startswith prefix key = true) by apply startswith_append.
  assert (Hflat : Forall (fun kv : string * cell => startswith prefix kv.1 = true) flat).
  { apply List.Forall_forall. intros kv Hin. apply List.filter_In in Hin. tauto. }
  rewrite <- (s_mem_filter_prefix prefix key parent_row Hkey). fold flat.
  destruct (s_mem String.eqb key flat) eqn:Hmem; cbn [rbind].
  - unfold reg_getitem. rewrite Hreg. cbn [rbind]. intros [= <-].
    etransitivity.
    + apply (s_get_strip prefix).
      apply (Forall_s_set (fun k => startswith prefix k = true)); assumption.
    + unfold row_set. fold key. now rewrite s_get_s_set_eq.
  - intros [= <-]. etransitivity; [apply (s_get_strip prefix); exact Hflat|].
    now apply s_mem_s_get.
Qed.
End Extraction.

(** ** Sampling rows *)

Section Sampling.
Context {W dtype Model : Type}.
Context (metadata : Metadata dtype) (cap : Capability W dtype Model).

(** [_sample_rows] returns the rows the model sampled, with the primary
    key column set when the table has one: as many rows. *)
Lemma sample_rows_inv (model : Model) (table_name : string) (num_rows : option nat)
    (w w' : W) (rows : DataFrame) :
  _sample_rows metadata cap model table_name num_rows w = Ok (rows, w') ->
  exists sampled w0,
    _sample_with_progress_bar cap model
      (match num_rows with
       | Some (S n) => S n
       | _ => _num_rows cap model
       end) w = Ok (sampled, w0)
    /\ df_len rows = df_len sampled.
Proof.
  unfold _sample_rows, mbind.
  match goal with
  | |- context [_sample_with_progress_bar cap model ?n w] =>
      destruct (_sample_with_progress_bar cap model n w)
        as [[sampled w0]|e] eqn:Es; [|discriminate]
  end.
  intros H. exists sampled, w0. split.
  { reflexivity. }
  destruct (truthy (get_primary_key metadata table_name)) as [pk|].
  - destruct (_get_primary_keys cap table_name (df_len sampled) w0) as [[ks w1]|e];
      [|discriminate].
    unfold lift in H.
    destruct (df_set_values pk ks sampled) as [out|e] eqn:Ev; [|discriminate].
    injection H as <- _. eapply df_len_set_values; eassumption.
  - unfold mret in H. now injection H as <- _.
Qed.

(** The steps of one call of [_sample_child_rows] that returned. *)
Lemma sample_child_rows_inv (self : HMA1 Model) (table_name parent_name : string)
    (parent_row : Series string) (sampled_data sampled_data' : list (string * DataFrame))
    (w w' : W) :
  _sample_child_rows metadata cap self table_name parent_name parent_row sampled_data w
    = Ok (sampled_data', w') ->
  exists foreign_key parameters fitted model batch,
    first (get_foreign_keys metadata parent_name table_name) = Ok foreign_key
    /\ _extract_parameters self parent_row table_name foreign_key = Ok parameters
    /\ _models self !! table_name = Some fitted
    /\ set_parameters cap (get_metadata cap fitted) parameters = Ok model
    /\ _sample_rows metadata cap model table_name None w = Ok (batch, w')
    /\ ((df_len batch = 0%nat /\ sampled_data' = sampled_data)
        \/ (df_len batch <> 0%nat /\
            exists parent_id,
              row_getitem (get_primary_key metadata parent_name) parent_row
                = Ok parent_id
              /\ sampled_data'
                 = d_set String.eqb table_name
                     (match d_get String.eqb table_name sampled_data with
                      | None => df_set_scalar foreign_key parent_id batch
                      | Some previous =>
                          concat_reset previous
                            (df_set_scalar foreign_key parent_id batch)
                      end)
                     sampled_data)).
Proof.
  unfold _sample_child_rows, mbind, lift.
  destruct (first (get_foreign_keys metadata parent_name table_name))
    as [fk|e] eqn:Efk; [|discriminate].
  destruct (_extract_parameters self parent_row table_name fk)
    as [params|e] eqn:Ep; [|discriminate].
  unfold reg_getitem.
  destruct (_models self !! table_name) as [fitted|] eqn:Em; [|discriminate].
  destruct (set_parameters cap (get_metadata cap fitted) params)
    as [model|e] eqn:Es; [|discriminate].
  destruct (_sample_rows metadata cap model table_name None w)
    as [[batch w1]|e] eqn:Er; [|discriminate].
  intros H. exists fk, params, fitted, model, batch.
  destruct (Nat.eqb_spec (df_len batch) 0) as [Z|NZ].
  - unfold mret in H. injection H as <- <-. repeat split; auto.
  - destruct (row_getitem (get_primary_key metadata parent_name) parent_row)
      as [pid|e]; [|discriminate].
    assert (sampled_data'
            = d_set String.eqb table_name
                (match d_get String.eqb table_name sampled_data with
                 | None => df_set_scalar fk pid batch
                 | Some previous => concat_reset previous (df_set_scalar fk pid batch)
                 end)
                sampled_data /\ w' = w1) as [-> ->].
    { destruct (d_get String.eqb table_name sampled_data);
        unfold mret in H; injection H as <- <-; auto. }
    repeat split; auto. right. split; [exact NZ|]. exists pid. auto.
Qed.
End Sampling.

(** ** C2: the extracted [num_rows] is clipped *)

Lemma py_round_le (q : Q) (z : Z) : (q <= inject_Z z)%Q -> (py_round q <= z)%Z.
Proof.
  intros H. unfold py_round.
  pose proof (Qfloor_le q) as Hf.
  assert (Hz : (Qfloor q <= z)%Z) by (rewrite Zle_Qle; lra).
  assert (Hup : (0 < q - inject_Z (Qfloor q))%Q -> (Qfloor q + 1 <= z)%Z).
  { intros Hd. assert (Qfloor q < z)%Z; [|lia]. rewrite Zlt_Qlt. lra. }
  destruct (q - inject_Z (Qfloor q) ?= 1 # 2)%Q eqn:E.
  - apply Qeq_alt in E. destruct (Z.even (Qfloor q)); [exact Hz|].
    apply Hup. lra.
  - exact Hz.
  - apply Qgt_alt in E. apply Hup. lra.
Qed.

Lemma toy_contract : SamplerContract Toy.cap.
Proof.
  split.
  - intros model n w df w' [= <- _]. simpl. rewrite length_map. apply length_seq.
  - intros tm p model q m [= <-] Hq Hle. simpl. unfold Toy.num_rows_of. simpl.
    rewrite Hq. apply py_round_le in Hle. lia.
Qed.

Section Clipping.
Context {W dtype Model : Type}.
Context (metadata : Metadata dtype) (cap : Capability W dtype Model).

(** A batch of child rows is no longer than the recorded maximum. *)
Lemma child_batch_bounded (self : HMA1 Model) (table_name parent_name : string)
    (parent_row : Series string) (foreign_key : string) (recorded : Q) (m : nat)
    (sampled_data sampled_data' : list (string * DataFrame)) (w w' : W)
    (df : DataFrame) :
  SamplerContract cap ->
  _max_child_rows self !! (ext_prefix table_name foreign_key +:+ "num_rows")
    = Some (Some recorded) ->
  (recorded <= inject_Z (Z.of_nat m))%Q ->
  s_mem String.eqb (ext_prefix table_name foreign_key +:+ "num_rows") parent_row = true ->
  first (get_foreign_keys metadata parent_name table_name) = Ok foreign_key ->
  d_get String.eqb table_name sampled_data = None ->
  _sample_child_rows metadata cap self table_name parent_name parent_row sampled_data w
    = Ok (sampled_data', w') ->
  d_get String.eqb table_name sampled_data' = Some df ->
  (df_len df <= m)%nat.
Proof.
  intros [Hlen Hbound] Hreg Hm Hmem Hfk Hnone Hrun Hdf.
  apply sample_child_rows_inv in Hrun
    as (fk & params & fitted & model & batch & Hfk' & Hp & _ & Hs & Hr & Hcases).
  rewrite Hfk in Hfk'. injection Hfk' as <-.
  pose proof (extract_num_rows self parent_row table_name foreign_key _ _ Hreg Hp)
    as Hn. cbv zeta in Hn. rewrite Hmem in Hn.
  destruct (py_min_le recorded
              (row_get (ext_prefix table_name foreign_key +:+ "num_rows")
                 (List.filter
                    (fun kv : string * cell =>
                       startswith (ext_prefix table_name foreign_key) kv.1)
                    parent_row))) as (q & Hq & Hle).
  rewrite Hq in Hn.
  assert (Hcount : (_num_rows cap model <= m)%nat).
  { eapply Hbound; [exact Hs | exact Hn | lra]. }
  apply sample_rows_inv in Hr as (sampled & w0 & Hsample & Hrows).
  apply Hlen in Hsample. fold (df_len sampled) in Hsample.
  destruct Hcases as [[_ ->]|(_ & pid & _ & ->)].
  - congruence.
  - rewrite d_get_d_set_eq in Hdf. rewrite Hnone in Hdf. injection Hdf as <-.
    rewrite df_len_set_scalar. lia.
Qed.

(** C2.  When parameter extraction returns a [num_rows] value for a
    (child table, foreign key) pair whose fit-time maximum is recorded,
    that value is at most the recorded maximum; so a parent row whose
    foreign key is the one sampling uses gets no more child rows than the
    largest group observed at fit time (given a table model that samples
    as many rows as its [num_rows] parameter says). *)
Theorem extracted_num_rows_clipped (self : HMA1 Model) (parent_row : Series string)
    (table_name foreign_key : string) (recorded : Q)
    (parameters : list (string * cell)) (c : cell) :
  _max_child_rows self !! (ext_prefix table_name foreign_key +:+ "num_rows")
    = Some (Some recorded) ->
  _extract_parameters self parent_row table_name foreign_key = Ok parameters ->
  s_get String.eqb "num_rows" parameters = Some c ->
  (exists q, c = Some q /\ (q <= recorded)%Q)
  /\ (forall (m : nat) parent_name sampled_data sampled_data' (w w' : W) df,
        SamplerContract cap ->
        (recorded <= inject_Z (Z.of_nat m))%Q ->
        first (get_foreign_keys metadata parent_name table_name) = Ok foreign_key ->
        d_get String.eqb table_name sampled_data = None ->
        _sample_child_rows metadata cap self table_name parent_name parent_row
                           sampled_data w = Ok (sampled_data', w') ->
        d_get String.eqb table_name sampled_data' = Some df ->
        (df_len df <= m)%nat).
Proof.
  intros Hreg Hp Hc.
  pose proof (extract_num_rows self parent_row table_name foreign_key _ _ Hreg Hp)
    as Hn. cbv zeta in Hn. rewrite Hc in Hn.
  destruct (s_mem String.eqb (ext_prefix table_name foreign_key +:+ "num_rows")
                  parent_row) eqn:Hmem; [|discriminate].
  split.
  - injection Hn as ->. apply py_min_le.
  - intros m parent_name sd sd' w w' df Hcontract Hm Hfk Hnone Hrun Hdf.
    eapply child_batch_bounded; eassumption.
Qed.
End Clipping.

(** C2 on the small instance: the parent row asks for three child rows,
    the recorded maximum is two. *)
Lemma extracted_num_rows_clipped_witness :
  (exists q, Toy.num 2 = Some q /\ (q <= 2)%Q)
  /\ (forall sampled_data' w' df,
        _sample_child_rows Toy.metadata Toy.cap Toy.fitted "child" "parent"
                           Toy.parent_row [] 7%nat = Ok (sampled_data', w') ->
        d_get String.eqb "child" sampled_data' = Some df ->
        (df_len df <= 2)%nat).
Proof.
  destruct (extracted_num_rows_clipped Toy.metadata Toy.cap Toy.fitted Toy.parent_row
              "child" "parent_id" 2
              [("loc", Toy.num 6); ("scale", Toy.num 1); ("num_rows", Toy.num 2)]
              (Toy.num 2)) as [H1 H2].
  - vm_compute. reflexivity.
  - vm_compute. reflexivity.
  - reflexivity.
  - split; [exact H1|].
    intros sd' w' df Hrun Hdf.
    apply (H2 2%nat "parent" [] sd' 7%nat w' df toy_contract).
    + vm_compute. discriminate.
    + reflexivity.
    + reflexivity.
    + exact Hrun.
    + exact Hdf.
Defined.

(** ** C3: the number of rows of a sampled table *)

Section RootRows.
Context {W dtype Model : Type}.
Context (metadata : Metadata dtype) (cap : Capability W dtype Model).

(** A positive requested count is the number of rows sampled, for a
    table model that samples as many rows as asked for. *)
Lemma sample_table_positive (fuel : nat) (self : HMA1 Model) (table_name : string)
    (n : nat) (sampled_data : list (string * DataFrame)) (w w' : W) :
  SamplerContract cap ->
  _sample_table metadata cap fuel self table_name (Some (S n)) false None w
    = Ok (sampled_data, w') ->
  exists rows, sampled_data = [(table_name, rows)] /\ df_len rows = S n.
Proof.
  intros [Hlen _]. unfold _sample_table, mbind, mret, lift, reg_getitem. simpl.
  destruct (_models self !! table_name) as [model|]; [|discriminate].
  destruct (_sample_rows metadata cap model table_name (Some (S n)) w)
    as [[rows w1]|e] eqn:Er; [|discriminate].
  intros [= <- <-]. exists rows. split; [reflexivity|].
  apply sample_rows_inv in Er as (sampled & w0 & Hs & ->).
  apply Hlen in Hs. exact Hs.
Qed.
End RootRows.

(** C3, at the input where the code departs from it.  The instance is
    fit on a parent table of three rows; asked for [num_rows = 0] rows
    of that table, [_sample_table] returns three rows, the fit-time
    count: [num_rows or model._num_rows] reads [0] as no count at all. *)
Theorem sample_table_zero_rows :
  _table_sizes Toy.fitted !! "parent" = Some 3%nat
  /\ exists rows w',
      _sample_table Toy.metadata Toy.cap 5 Toy.fitted "parent" (Some 0%nat) false None
                    100%nat = Ok ([("parent", rows)], w')
      /\ df_len rows = 3%nat.
Proof.
  split; [vm_compute; reflexivity|].
  eexists. eexists. split; [vm_compute; reflexivity | reflexivity].
Qed.

(** ** C4 and C5: the extension rows of a child table *)

Lemma In_unique (cs : list cell) (c : cell) : In c (unique cs) -> In c cs.
Proof.
  unfold unique.
  assert (G : forall acc, In c (fold_left
              (fun acc c => if existsb (cell_eqb c) acc then acc else acc ++ [c]) cs acc) ->
              In c acc \/ In c cs).
  { induction cs as [|x cs IH]; intros acc H; simpl in *; [auto|].
    apply IH in H as [H|H]; [|auto].
    destruct (existsb (cell_eqb x) acc); [auto|].
    apply in_app_or in H as [H|[H|[]]]; auto. }
  intros H. apply G in H as [[]|H]. exact H.
Qed.

Lemma df_index_of_rows (rows : list (Series string)) (index : list cell) :
  length rows = length index ->
  df_index (DataFrame_of_rows rows index) = index.
Proof.
  unfold df_index, DataFrame_of_rows. simpl.
  generalize (fold_left (fun acc r => add_columns acc (s_index r)) rows []).
  intros cs. revert index.
  induction rows as [|r rows IH]; intros [|i index] H; simpl in *;
    try discriminate; [reflexivity|].
  f_equal. apply IH. lia.
Qed.

Section ExtensionRows.
Context {W dtype Model : Type}.
Context (metadata : Metadata dtype) (cap : Capability W dtype Model).
Context (table_meta : TableMeta) (child_name foreign_key : string).
Context (child_primary : option string) (indexed : DataFrame).

(** One turn of the loop either appends a row under the foreign-key
    value, and then the group was fit, or leaves rows and index alone. *)
Lemma extension_step_inv (st st' : Extension) (v : cell) :
  extension_step cap table_meta child_name foreign_key child_primary indexed st v
    = Ok st' ->
  (extension_rows st' = extension_rows st /\ index st' = index st)
  \/ (exists row,
        extension_rows st' = extension_rows st ++ [row]
        /\ index st' = index st ++ [v]
        /\ group_fits cap table_meta child_primary indexed v).
Proof.
  unfold extension_step, rbind.
  destruct (group_rows child_primary indexed v) as [rows|e] eqn:Eg; [|discriminate].
  unfold fit_group.
  destruct (model_fit cap false table_meta (reset_index_drop rows))
    as [model|e] eqn:Ef; [|intros [= <-]; left; auto].
  destruct (get_parameters cap model) as [p|e] eqn:Ep; [|intros [= <-]; left; auto].
  match goal with
  | |- context [if ?b then ?x else ?y] => destruct (if b then x else y) as [row|e]
  end; intros [= <-]; [right | left; auto].
  exists row. repeat split. exists rows, model, p. auto.
Qed.

(** The index the loop builds is a sublist of the values it runs over,
    one row per label, and every label in it is that of a fit group. *)
Lemma extension_loop_index (vs : list cell) (st st' : Extension) :
  rfor_each (extension_step cap table_meta child_name foreign_key child_primary indexed)
            vs st = Ok st' ->
  length (extension_rows st) = length (index st) ->
  length (extension_rows st') = length (index st')
  /\ exists added,
      index st' = index st ++ added
      /\ sublist added vs
      /\ Forall (group_fits cap table_meta child_primary indexed) added.
Proof.
  revert st. induction vs as [|v vs IH]; intros st H Hlen; simpl in H.
  - injection H as <-. split; [exact Hlen|]. exists []. rewrite app_nil_r.
    repeat split; constructor.
  - unfold rbind in H. destruct (extension_step cap table_meta child_name foreign_key child_primary
                indexed st v) as [st1|e] eqn:E1; [|discriminate].
    apply extension_step_inv in E1 as [[Er Ei]|(row & Er & Ei & Hfit)].
    + destruct (IH st1 H) as (Hl & added & Ha & Hs & Hf); [congruence|].
      split; [exact Hl|]. exists added. rewrite Ha, Ei.
      repeat split; [|exact Hf]. now apply sublist_cons.
    + destruct (IH st1 H) as (Hl & added & Ha & Hs & Hf).
      { rewrite Er, Ei, !length_app. simpl. lia. }
      split; [exact Hl|]. exists (v :: added). rewrite Ha, Ei, <- app_assoc.
      repeat split; [now apply sublist_skip | constructor; assumption].
Qed.
End ExtensionRows.

Section ExtensionPartial.
Context {W dtype Model : Type}.
Context (metadata : Metadata dtype) (cap : Capability W dtype Model).

(** The steps of a call of [_get_extension] that returned. *)
Lemma get_extension_inv (self : HMA1 Model) (child_name : string)
    (child_table : DataFrame) (foreign_key : string) (ext : DataFrame) :
  _get_extension metadata cap self child_name child_table foreign_key = Ok ext ->
  exists fitted column indexed st,
    _models self !! child_name = Some fitted
    /\ df_getitem foreign_key child_table = Ok column
    /\ set_index foreign_key child_table = Ok indexed
    /\ extension_loop cap (get_metadata cap fitted) child_name foreign_key
         (get_primary_key metadata child_name) indexed (unique (s_values column))
       = Ok st
    /\ ext = DataFrame_of_rows (extension_rows st) (index st).
Proof.
  unfold _get_extension, rbind, reg_getitem.
  destruct (_models self !! child_name) as [fitted|]; [|discriminate].
  destruct (df_getitem foreign_key child_table) as [column|e]; [|discriminate].
  destruct (set_index foreign_key child_table) as [indexed|e]; [|discriminate].
  destruct (extension_loop cap (get_metadata cap fitted) child_name foreign_key
              (get_primary_key metadata child_name) indexed (unique (s_values column)))
    as [st|e] eqn:El; [|discriminate].
  intros [= <-]. exists fitted, column, indexed, st. auto.
Qed.

(** C4.  The extension frame is indexed by a sublist of the distinct
    foreign-key values of the child table, one row per label.  A label
    is in the index only if child rows carry it and their group was fit:
    a group whose fit raised has no row (the exception is swallowed, the
    call still returns), and a value no child row carries has none. *)
Theorem extension_is_partial (self : HMA1 Model) (child_name : string)
    (child_table : DataFrame) (foreign_key : string) (ext : DataFrame) :
  _get_extension metadata cap self child_name child_table foreign_key = Ok ext ->
  exists fitted column indexed,
    _models self !! child_name = Some fitted
    /\ df_getitem foreign_key child_table = Ok column
    /\ set_index foreign_key child_table = Ok indexed
    /\ sublist (df_index ext) (unique (s_values column))
    /\ length (records ext) = length (df_index ext)
    /\ (forall v, In v (df_index ext) ->
          (exists r, In r (records child_table) /\ row_get foreign_key r.2 = v)
          /\ group_fits cap (get_metadata cap fitted)
               (get_primary_key metadata child_name) indexed v)
    /\ (forall v child_rows e,
          group_rows (get_primary_key metadata child_name) indexed v = Ok child_rows ->
          model_fit cap false (get_metadata cap fitted) (reset_index_drop child_rows)
            = Raise e ->
          ~ In v (df_index ext))
    /\ (forall v,
          (forall r, In r (records child_table) -> row_get foreign_key r.2 <> v) ->
          ~ In v (df_index ext)).
Proof.
  intros H. apply get_extension_inv in H
    as (fitted & column & indexed & st & Hm & Hc & Hi & Hl & ->).
  unfold extension_loop in Hl.
  apply extension_loop_index in Hl as (Hlen & added & Ha & Hs & Hf); [|reflexivity].
  simpl in Ha. rewrite (df_index_of_rows _ _ Hlen), Ha.
  assert (Hin : forall v, In v added ->
            (exists r, In r (records child_table) /\ row_get foreign_key r.2 = v)
            /\ group_fits cap (get_metadata cap fitted)
                 (get_primary_key metadata child_name) indexed v).
  { intros v Hv. split.
    - apply list_elem_of_In in Hv. apply (elem_of_sublist _ _ _ Hv) in Hs.
      apply list_elem_of_In, In_unique in Hs.
      unfold df_getitem in Hc. destruct (inb foreign_key (columns child_table));
        [|discriminate]. injection Hc as <-.
      unfold s_values in Hs. rewrite map_map in Hs.
      apply in_map_iff in Hs as (r & Hr & Hin). exists r. auto.
    - rewrite List.Forall_forall in Hf. auto. }
  exists fitted, column, indexed. repeat split; try assumption.
  - unfold DataFrame_of_rows. simpl. rewrite length_zip_with, <- Ha. lia.
  - now apply Hin.
  - now apply Hin.
  - intros v rows e Hg Hfit Hv. apply Hin in Hv as [_ (rows' & model & p & Hg' & Hfit' & _)].
    congruence.
  - intros v Hno Hv. apply Hin in Hv as [(r & Hr & Hrv) _]. exact (Hno r Hr Hrv).
Qed.
End ExtensionPartial.

(** C4 on the small instance: the group of parent 2 fails to fit and
    parent 4 has no child row; neither is in the extension index. *)
Lemma extension_is_partial_witness :
  exists ext,
    _get_extension Toy.metadata Toy.cap Toy.fitted "child" Toy.child_table_gap "parent_id"
      = Ok ext
    /\ df_index ext = [Toy.num 1; Toy.num 3]
    /\ ~ In (Toy.num 2) (df_index ext)
    /\ ~ In (Toy.num 4) (df_index ext).
Proof.
  destruct (_get_extension Toy.metadata Toy.cap Toy.fitted "child" Toy.child_table_gap
              "parent_id") as [ext|e] eqn:E; [|vm_compute in E; discriminate].
  exists ext. split; [reflexivity|].
  destruct (extension_is_partial Toy.metadata Toy.cap Toy.fitted "child"
              Toy.child_table_gap "parent_id" ext E)
    as (fitted & column & indexed & Hm & Hc & Hi & _ & _ & _ & Hfail & Habsent).
  vm_compute in E. injection E as <-.
  vm_compute in Hm. injection Hm as <-.
  vm_compute in Hi. injection Hi as <-.
  split; [reflexivity|]. split.
  - eapply (Hfail (Toy.num 2)); vm_compute; reflexivity.
  - apply Habsent. intros r Hr. vm_compute in Hr.
    repeat (destruct Hr as [<-|Hr]; [vm_compute; discriminate|]). destruct Hr.
Defined.

(** ** C5: scale parameters of singleton groups *)

Lemma inb_In (c : string) (cs : list string) : inb c cs = true <-> In c cs.
Proof.
  unfold inb. rewrite existsb_exists. split.
  - intros (x & Hx & E). apply String.eqb_eq in E. now subst.
  - intros H. exists c. split; [exact H | apply String.eqb_refl].
Qed.




Lemma row_get_reindex (cs : list string) (r : Series string) (name : string) :
  row_get name (reindex_row cs r) = if inb name cs then row_get name r else NaN.
Proof.
  unfold reindex_row, row_get at 1, s_get.
  induction cs as [|c cs IH]; simpl; [reflexivity|].
  rewrite (String.eqb_sym name c).
  destruct (String.eqb c name) eqn:E; simpl.
  - apply String.eqb_eq in E. now subst.
  - exact IH.
Qed.

Section SingletonGroups.
Context {W dtype Model : Type}.
Context (metadata : Metadata dtype) (cap : Capability W dtype Model).
Context (table_meta : TableMeta) (child_name foreign_key : string).
Context (child_primary : option string) (indexed : DataFrame).
Context (names : list string).
Hypothesis stable :
  forall rows model p,
    model_fit cap false table_meta rows = Ok model ->
    get_parameters cap model = Ok p ->
    s_index p = names.



End SingletonGroups.

Section FirstFitGroup.
Context {W dtype Model : Type}.
Context (cap : Capability W dtype Model).
Context (table_meta : TableMeta) (child_name foreign_key : string).
Context (child_primary : option string) (indexed : DataFrame).





End FirstFitGroup.

Section SingletonScale.
Context {W dtype Model : Type}.
Context (metadata : Metadata dtype) (cap : Capability W dtype Model).

End SingletonScale.



(** ** C6: filling and recording [num_rows] when a table is extended *)






Lemma filter_none {A} (f : A -> bool) (l : list A) :
  (forall x, In x l -> f x = false) -> List.filter f l = [].
Proof.
  induction l as [|x l IH]; intros H; simpl; [reflexivity|].
  rewrite (H x) by now left. apply IH. intros y Hy. apply H. now right.
Qed.



Section Extending.
Context {W dtype Model : Type}.
Context (metadata : Metadata dtype) (cap : Capability W dtype Model).

(** The steps of a call of [extend_with_key] that returned. *)
Lemma extend_with_key_inv (self self' : HMA1 Model) (child_name : string)
    (child_table table table' : DataFrame) (foreign_key : string) :
  extend_with_key metadata cap child_name child_table (self, table) foreign_key
    = Ok (self', table') ->
  let key := ext_prefix child_name foreign_key +:+ "num_rows" in
  exists ext,
    _get_extension metadata cap self child_name child_table foreign_key = Ok ext
    /\ inb key (columns (merge_left_index table ext)) = true
    /\ table' = df_fillna_column key (Some 0%Q) (merge_left_index table ext)
    /\ _models self' = _models self
    /\ _table_sizes self' = _table_sizes self
    /\ _max_child_rows self'
       = <[key := s_max (map (fun r : Row => (r.1, row_get key r.2)) (records table'))]>
           (_max_child_rows self).
Proof.
  intros H key. unfold extend_with_key, rbind in H. fold key in H.
  destruct (_get_extension metadata cap self child_name child_table foreign_key)
    as [ext|e]; [|discriminate].
  exists ext. split; [reflexivity|]. unfold df_getitem in H.
  destruct (inb key (columns (merge_left_index table ext))) eqn:Ek; [|discriminate].
  change (columns (df_fillna_column key (Some 0%Q) (merge_left_index table ext)))
    with (columns (merge_left_index table ext)) in H.
  rewrite Ek in H. injection H as <- <-. simpl. auto.
Qed.

(** The call returns as soon as the extension has the [num_rows] column
    and the table does not have it yet. *)
Lemma extend_with_key_returns (self : HMA1 Model) (child_name : string)
    (child_table table ext : DataFrame) (foreign_key : string) :
  let key := ext_prefix child_name foreign_key +:+ "num_rows" in
  _get_extension metadata cap self child_name child_table foreign_key = Ok ext ->
  inb key (columns ext) = true ->
  inb key (columns table) = false ->
  exists out, extend_with_key metadata cap child_name child_table (self, table)
                foreign_key = Ok out.
Proof.
  intros key He Hin Hout. unfold extend_with_key, rbind. fold key. rewrite He.
  assert (Hk : inb key (columns (merge_left_index table ext)) = true).
  { unfold merge_left_index. simpl. apply inb_In, in_or_app. right.
    apply in_map_iff. exists key. rewrite Hout. simpl. split; [reflexivity|].
    now apply inb_In. }
  unfold df_getitem.
  change (columns (df_fillna_column key (Some 0%Q) (merge_left_index table ext)))
    with (columns (merge_left_index table ext)).
  rewrite Hk. eauto.
Qed.

End Extending.

(** ** C8, C9, C10: recursive child sampling *)

Lemma inb_add_columns (c : string) (cs ds : list string) :
  inb c (add_columns cs ds) = inb c cs || inb c ds.
Proof.
  unfold add_columns. revert cs. induction ds as [|d ds IH]; intros cs; simpl.
  - now rewrite orb_false_r.
  - rewrite IH. destruct (inb d cs) eqn:E.
    + destruct (String.eqb_spec c d) as [->|N]; simpl.
      * rewrite E. reflexivity.
      * reflexivity.
    + unfold inb at 1. rewrite existsb_app. simpl. fold (inb c cs).
      rewrite orb_false_r. now rewrite orb_assoc.
Qed.

Lemma In_zip_with {A B C} (f : A -> B -> C) (l : list A) (k : list B) (z : C) :
  In z (zip_with f l k) -> exists x y, In x l /\ In y k /\ z = f x y.
Proof.
  revert k. induction l as [|x l IH]; intros [|y k] H; simpl in H; try tauto.
  destruct H as [<-|H].
  - exists x, y. simpl. auto.
  - apply IH in H as (x' & y' & Hx & Hy & ->). exists x', y'. simpl. auto.
Qed.

Lemma length_range_index (n : nat) : length (range_index n) = n.
Proof. unfold range_index. rewrite length_map. apply length_seq. Qed.

Lemma df_len_concat_reset (a b : DataFrame) :
  df_len (concat_reset a b) = (df_len a + df_len b)%nat.
Proof.
  unfold concat_reset, reset_index_drop, df_len. simpl.
  rewrite length_zip_with, length_range_index, length_map, length_app. lia.
Qed.

(** A row of the concatenation is a row of one of the two frames, laid
    out on the columns of both. *)
Lemma In_concat_reset (a b : DataFrame) (r' : Row) :
  In r' (records (concat_reset a b)) ->
  exists r, In r (records a ++ records b)
            /\ r'.2 = reindex_row (add_columns (columns a) (columns b)) r.2.
Proof.
  unfold concat_reset, reset_index_drop. simpl. intros H.
  apply In_zip_with in H as (i & r0 & _ & Hr0 & ->).
  apply in_map_iff in Hr0 as (r & <- & Hr). exists r. auto.
Qed.

Lemma In_set_scalar (c : string) (v : cell) (df : DataFrame) (r' : Row) :
  In r' (records (df_set_scalar c v df)) -> row_get c r'.2 = v.
Proof.
  unfold df_set_scalar. simpl. intros H. apply in_map_iff in H as (r & <- & _).
  apply row_get_row_set_eq.
Qed.

Lemma columns_set_scalar (c : string) (v : cell) (df : DataFrame) :
  inb c (columns (df_set_scalar c v df)) = true.
Proof.
  unfold df_set_scalar. cbn [columns]. rewrite inb_add_columns. simpl.
  rewrite String.eqb_refl. apply orb_true_r.
Qed.

Section ChildSampling.
Context {W dtype Model : Type}.
Context (metadata : Metadata dtype) (cap : Capability W dtype Model).

(** After one call of [_sample_child_rows], a row of the child table
    carries the id of the parent row under the first foreign key, or it
    was in the table before the call with the same foreign-key value. *)
Lemma sample_child_rows_stamp (self : HMA1 Model) (table_name parent_name : string)
    (parent_row : Series string) (sampled_data sampled_data' : list (string * DataFrame))
    (w w' : W) (foreign_key : string) (df' : DataFrame) (r' : Row) :
  first (get_foreign_keys metadata parent_name table_name) = Ok foreign_key ->
  _sample_child_rows metadata cap self table_name parent_name parent_row sampled_data w
    = Ok (sampled_data', w') ->
  d_get String.eqb table_name sampled_data' = Some df' ->
  In r' (records df') ->
  row_getitem (get_primary_key metadata parent_name) parent_row
    = Ok (row_get foreign_key r'.2)
  \/ exists df r, d_get String.eqb table_name sampled_data = Some df
                  /\ In r (records df)
                  /\ row_get foreign_key r'.2 = row_get foreign_key r.2.
Proof.
  intros Hfk Hrun Hdf Hr'.
  apply sample_child_rows_inv in Hrun
    as (fk & params & fitted & model & batch & Hfk' & _ & _ & _ & _ & Hcases).
  rewrite Hfk in Hfk'. injection Hfk' as <-.
  destruct Hcases as [[_ ->]|(_ & pid & Hpid & ->)].
  - right. exists df', r'. auto.
  - rewrite d_get_d_set_eq in Hdf. injection Hdf as <-.
    destruct (d_get String.eqb table_name sampled_data) as [previous|] eqn:Ep.
    + apply In_concat_reset in Hr' as (r & Hr & ->).
      rewrite row_get_reindex, inb_add_columns, columns_set_scalar, orb_true_r.
      apply in_app_or in Hr as [Hr|Hr].
      * right. exists previous, r. auto.
      * left. rewrite Hpid. f_equal. symmetry. eapply In_set_scalar. exact Hr.
    + left. rewrite Hpid. f_equal. symmetry. eapply In_set_scalar. exact Hr'.
Qed.

(** The loop over the parent rows, from a map without the child table:
    every row of the child table carries the id of one of the parent
    rows the loop ran over. *)
Lemma sample_child_table_stamp (self : HMA1 Model) (child_name table_name : string)
    (foreign_key : string) (rows : list Row)
    (sampled_data sampled_data' : list (string * DataFrame)) (w w' : W)
    (known : Row -> Prop) :
  first (get_foreign_keys metadata table_name child_name) = Ok foreign_key ->
  (forall parent, In parent rows -> known parent) ->
  (forall df r, d_get String.eqb child_name sampled_data = Some df ->
                In r (records df) ->
                exists parent, known parent
                  /\ row_getitem (get_primary_key metadata table_name) parent.2
                     = Ok (row_get foreign_key r.2)) ->
  for_each (fun sampled_data (row : Row) =>
              _sample_child_rows metadata cap self child_name table_name row.2
                                 sampled_data)
           rows sampled_data w = Ok (sampled_data', w') ->
  forall df r, d_get String.eqb child_name sampled_data' = Some df ->
               In r (records df) ->
               exists parent, known parent
                 /\ row_getitem (get_primary_key metadata table_name) parent.2
                    = Ok (row_get foreign_key r.2).
Proof.
  intros Hfk. revert sampled_data w.
  induction rows as [|row rows IH]; intros sd w Hknown Hinv H; simpl in H.
  - unfold mret in H. injection H as <- <-. exact Hinv.
  - unfold mbind in H.
    destruct (_sample_child_rows metadata cap self child_name table_name row.2 sd w)
      as [[sd1 w1]|e] eqn:E1; [|discriminate].
    apply (IH sd1 w1); [intros p Hp; apply Hknown; now right | | exact H].
    intros df r Hdf Hr.
    destruct (sample_child_rows_stamp _ _ _ _ _ _ _ _ _ _ _ Hfk E1 Hdf Hr)
      as [Hpid|(df0 & r0 & Hdf0 & Hr0 & Heq)].
    + exists row. split; [apply Hknown; now left | exact Hpid].
    + rewrite Heq. eapply Hinv; eassumption.
Qed.

(** In the child table the loop over the parent rows builds, the
    foreign-key value of every row is the id of one of the parent
    rows. *)
Lemma sample_child_table_ids (self : HMA1 Model)
    (child_name table_name foreign_key : string) (table_rows : DataFrame)
    (sampled_data sampled_data' : list (string * DataFrame)) (w w' : W) :
  first (get_foreign_keys metadata table_name child_name) = Ok foreign_key ->
  d_get String.eqb child_name sampled_data = None ->
  sample_child_table metadata cap self child_name table_name table_rows sampled_data w
    = Ok (sampled_data', w') ->
  forall child_rows r,
    d_get String.eqb child_name sampled_data' = Some child_rows ->
    In r (records child_rows) ->
    exists parent,
      In parent (records table_rows)
      /\ row_getitem (get_primary_key metadata table_name) parent.2
         = Ok (row_get foreign_key r.2).
Proof.
  intros Hfk Hnone Hrun.
  eapply (sample_child_table_stamp self child_name table_name foreign_key
            (records table_rows) sampled_data sampled_data' w w'
            (fun parent => In parent (records table_rows)));
    [exact Hfk | auto | | exact Hrun].
  intros df r Hdf. congruence.
Qed.
End ChildSampling.

Section EmptyChildTables.
Context {W dtype Model : Type}.
Context (metadata : Metadata dtype) (cap : Capability W dtype Model).

(** A call of [_sample_child_rows] never leaves an empty frame under
    the child's name. *)
Lemma sample_child_rows_nonempty (self : HMA1 Model) (table_name parent_name : string)
    (parent_row : Series string) (sampled_data sampled_data' : list (string * DataFrame))
    (w w' : W) :
  (forall df, d_get String.eqb table_name sampled_data = Some df ->
              (0 < df_len df)%nat) ->
  _sample_child_rows metadata cap self table_name parent_name parent_row sampled_data w
    = Ok (sampled_data', w') ->
  forall df, d_get String.eqb table_name sampled_data' = Some df -> (0 < df_len df)%nat.
Proof.
  intros Hinv Hrun df Hdf.
  apply sample_child_rows_inv in Hrun
    as (fk & params & fitted & model & batch & _ & _ & _ & _ & _ & Hcases).
  destruct Hcases as [[_ ->]|(NZ & pid & _ & ->)]; [now apply Hinv|].
  rewrite d_get_d_set_eq in Hdf. injection Hdf as <-.
  destruct (d_get String.eqb table_name sampled_data) as [previous|].
  - rewrite df_len_concat_reset, df_len_set_scalar. lia.
  - rewrite df_len_set_scalar. lia.
Qed.

Lemma sample_child_table_nonempty (self : HMA1 Model) (child_name table_name : string)
    (rows : list Row) (sampled_data sampled_data' : list (string * DataFrame))
    (w w' : W) :
  (forall df, d_get String.eqb child_name sampled_data = Some df ->
              (0 < df_len df)%nat) ->
  for_each (fun sampled_data (row : Row) =>
              _sample_child_rows metadata cap self child_name table_name row.2
                                 sampled_data)
           rows sampled_data w = Ok (sampled_data', w') ->
  forall df, d_get String.eqb child_name sampled_data' = Some df -> (0 < df_len df)%nat.
Proof.
  revert sampled_data w. induction rows as [|row rows IH]; intros sd w Hinv H; simpl in H.
  - unfold mret in H. injection H as <- <-. exact Hinv.
  - unfold mbind in H.
    destruct (_sample_child_rows metadata cap self child_name table_name row.2 sd w)
      as [[sd1 w1]|e] eqn:E1; [|discriminate].
    apply (IH sd1 w1); [|exact H].
    eapply sample_child_rows_nonempty; eassumption.
Qed.

(** A parent row that asks for no child row leaves the map as it is. *)
Lemma sample_child_rows_none (self : HMA1 Model) (table_name parent_name : string)
    (parent_row : Series string) (sampled_data sampled_data' : list (string * DataFrame))
    (w w' : W) :
  SamplerContract cap ->
  asks_for_none metadata cap self table_name parent_name parent_row ->
  _sample_child_rows metadata cap self table_name parent_name parent_row sampled_data w
    = Ok (sampled_data', w') ->
  sampled_data' = sampled_data.
Proof.
  intros [Hlen _] Hnone Hrun.
  apply sample_child_rows_inv in Hrun
    as (fk & params & fitted & model & batch & Hfk & Hp & Hm & Hs & Hr & Hcases).
  destruct Hcases as [[_ ->]|(NZ & _)]; [reflexivity|].
  exfalso. apply NZ.
  apply sample_rows_inv in Hr as (sampled & w0 & Hsample & ->).
  apply Hlen in Hsample. rewrite (Hnone fk params fitted model Hfk Hp Hm Hs) in Hsample.
  exact Hsample.
Qed.

Lemma sample_child_table_none (self : HMA1 Model) (child_name table_name : string)
    (rows : list Row) (sampled_data sampled_data' : list (string * DataFrame))
    (w w' : W) :
  SamplerContract cap ->
  (forall parent, In parent rows ->
                  asks_for_none metadata cap self child_name table_name parent.2) ->
  for_each (fun sampled_data (row : Row) =>
              _sample_child_rows metadata cap self child_name table_name row.2
                                 sampled_data)
           rows sampled_data w = Ok (sampled_data', w') ->
  sampled_data' = sampled_data.
Proof.
  intros Hc. revert sampled_data w.
  induction rows as [|row rows IH]; intros sd w Hnone H; simpl in H.
  - unfold mret in H. now injection H as <- <-.
  - unfold mbind in H.
    destruct (_sample_child_rows metadata cap self child_name table_name row.2 sd w)
      as [[sd1 w1]|e] eqn:E1; [|discriminate].
    apply sample_child_rows_none in E1; [|exact Hc | apply Hnone; now left].
    subst sd1. apply (IH sd w1); [|exact H]. intros p Hp. apply Hnone. now right.
Qed.

(** C9.  The loop over the parent rows records a child table only with
    rows in it: from a map without the child table, an entry under the
    child's name is a non-empty frame.  When every parent row asks for
    no child row, the loop leaves no entry; and without an entry the
    lookup [sampled_data[child_name]] that follows the loop raises
    [KeyError], before the recursion into the child's own children. *)
Theorem empty_child_table_not_recorded (self : HMA1 Model) (child_name table_name : string)
    (table_rows : DataFrame) (sampled_data sampled_data' : list (string * DataFrame))
    (w w' : W) :
  d_get String.eqb child_name sampled_data = None ->
  sample_child_table metadata cap self child_name table_name table_rows sampled_data w
    = Ok (sampled_data', w') ->
  (forall child_rows, d_get String.eqb child_name sampled_data' = Some child_rows ->
                      (0 < df_len child_rows)%nat)
  /\ (SamplerContract cap ->
      (forall parent, In parent (records table_rows) ->
                      asks_for_none metadata cap self child_name table_name parent.2) ->
      d_get String.eqb child_name sampled_data' = None)
  /\ (d_get String.eqb child_name sampled_data' = None ->
      forall fuel rest,
        get_children metadata table_name = child_name :: rest ->
        _sample_children metadata cap (S fuel) self table_name sampled_data table_rows w
          = Raise KeyError).
Proof.
  intros Hnone Hrun. split; [|split].
  - eapply sample_child_table_nonempty; [|exact Hrun]. intros df. congruence.
  - intros Hc Hzero.
    apply sample_child_table_none in Hrun; [|exact Hc | exact Hzero]. now subst.
  - intros Hnone' fuel rest Hchildren. simpl. rewrite Hchildren. simpl.
    apply d_mem_d_get in Hnone. unfold mbind at 1. unfold mret at 1.
    rewrite Hnone. unfold mbind at 1. unfold mbind at 1. rewrite Hrun.
    unfold lift, d_getitem. rewrite Hnone'. reflexivity.
Qed.
End EmptyChildTables.

(** C9 on the small instance: two sampled parents that ask for no
    child row; the child table is not recorded and [_sample_children]
    raises [KeyError]. *)
Lemma empty_child_table_not_recorded_witness :
  _sample_children Toy.metadata Toy.cap 3 Toy.fitted "parent"
                   [("parent", Toy.childless_parents)] Toy.childless_parents 0%nat
  = Raise KeyError.
Proof.
  destruct (sample_child_table Toy.metadata Toy.cap Toy.fitted "child" "parent"
              Toy.childless_parents [("parent", Toy.childless_parents)] 0%nat)
    as [[sd' w']|e] eqn:E; [|vm_compute in E; discriminate].
  destruct (empty_child_table_not_recorded Toy.metadata Toy.cap Toy.fitted "child"
              "parent" Toy.childless_parents [("parent", Toy.childless_parents)] sd'
              0%nat w' eq_refl E) as (_ & Hzero & Hraise).
  apply (Hraise (Hzero toy_contract
                   (fun parent Hin fk params fitted model Hfk Hp Hm Hs =>
                      ltac:(vm_compute in Hfk; injection Hfk as <-;
                            vm_compute in Hin;
                            destruct Hin as [<-|[<-|[]]];
                            vm_compute in Hp; injection Hp as <-;
                            vm_compute in Hs; injection Hs as <-;
                            reflexivity)))
                2%nat [] eq_refl).
Defined.

(** ** C10: the foreign keys of a pair with several *)

Section SeveralForeignKeys.
Context {W dtype Model : Type}.
Context (cap : Capability W dtype Model).

(** The inner loop of [_extend_table] records a maximum for every
    foreign key it runs over, and keeps the ones recorded before. *)
Lemma extend_keys_recorded (metadata : Metadata dtype) (child_name : string)
    (child_table : DataFrame) (foreign_keys : list string)
    (self self' : HMA1 Model) (table table' : DataFrame) :
  rfor_each (extend_with_key metadata cap child_name child_table) foreign_keys
            (self, table) = Ok (self', table') ->
  (forall k, is_Some (_max_child_rows self !! k) ->
             is_Some (_max_child_rows self' !! k))
  /\ (forall fk, In fk foreign_keys ->
                 is_Some (_max_child_rows self'
                            !! (ext_prefix child_name fk +:+ "num_rows"))).
Proof.
  revert self table. induction foreign_keys as [|fk fks IH]; intros self table H;
    cbn [rfor_each] in H.
  - injection H as <- <-. split; [auto | intros fk []].
  - unfold rbind in H.
    destruct (extend_with_key metadata cap child_name child_table (self, table) fk)
      as [[self1 table1]|e] eqn:E1; [|discriminate].
    apply extend_with_key_inv in E1 as (ext & _ & _ & _ & _ & _ & Hreg).
    destruct (IH self1 table1 H) as [Hkeep Hall]. split.
    + intros k Hk. apply Hkeep. rewrite Hreg. rewrite lookup_insert_is_Some'. tauto.
    + intros fk' [<-|Hin]; [|now apply Hall].
      apply Hkeep. rewrite Hreg. rewrite lookup_insert_is_Some'. now left.
Qed.

End SeveralForeignKeys.

(** ** C1: the fallback ladder of the parent draw *)

Lemma py_eq_zero (c : cell) :
  py_eq c 0 = true <-> exists q, c = Some q /\ (q == 0)%Q.
Proof.
  destruct c as [x|]; simpl.
  - rewrite Qeq_bool_iff. split; [eauto | intros (q & [= <-] & H); exact H].
  - split; [discriminate | intros (q & H & _); discriminate].
Qed.

Lemma s_all_zero_spec {L} (s : Series L) :
  s_all_zero s = true
  <-> Forall (fun c : cell => exists q, c = Some q /\ (q == 0)%Q) (s_values s).
Proof.
  unfold s_all_zero. rewrite forallb_forall, List.Forall_forall.
  split; intros H c Hc; apply py_eq_zero, H, Hc.
Qed.

Lemma In_imap {A B} (f : nat -> A -> B) (l : list A) (y : B) :
  In y (imap f l) -> exists i x, y = f i x.
Proof.
  revert f. induction l as [|x l IH]; intros f H; simpl in H; [destruct H|].
  destruct H as [<-|H]; [eauto|].
  apply IH in H as (i & x' & ->). exists (S i), x'. reflexivity.
Qed.

Lemma map_fst_imap {A B} (f : nat -> A -> A * B) (l : list A) :
  (forall i x, (f i x).1 = x) -> map fst (imap f l) = l.
Proof.
  revert f. induction l as [|x l IH]; intros f Hf; simpl; [reflexivity|].
  rewrite Hf. f_equal. apply IH. intros i y. apply Hf.
Qed.

Lemma rfor_each_app {A S} (body : S -> A -> result S) (xs ys : list A) (s : S) :
  rfor_each body (xs ++ ys) s = rbind (rfor_each body xs s) (rfor_each body ys).
Proof.
  revert s. induction xs as [|x xs IH]; intros s; simpl; [reflexivity|].
  destruct (body s x) as [s1|e]; simpl; [apply IH | reflexivity].
Qed.

(** A dictionary keyed by labels: what is stored under a label is what
    was last set under it. *)
Lemma label_get_set_eq {V} (k : cell) (v : V) (d : list (cell * V)) :
  d_get cell_eqb k (d_set cell_eqb k v d) = Some v.
Proof.
  unfold d_get. induction d as [|[a b] d IH]; simpl.
  - now rewrite cell_eqb_refl.
  - destruct (cell_eqb a k) eqn:E; simpl; rewrite E; [reflexivity | exact IH].
Qed.

Lemma label_get_set_ne {V} (k k' : cell) (v : V) (d : list (cell * V)) :
  cell_eqb k k' = false ->
  d_get cell_eqb k' (d_set cell_eqb k v d) = d_get cell_eqb k' d.
Proof.
  intros N. unfold d_get. induction d as [|[a b] d IH]; simpl.
  - now rewrite N.
  - destruct (cell_eqb a k) eqn:E; simpl.
    + assert (E' : cell_eqb a k' = false).
      { destruct (cell_eqb a k') eqn:E'; [|reflexivity].
        rewrite cell_eqb_sym in E. rewrite cell_eqb_sym in E'.
        rewrite (cell_eqb_trans_r k k' a E E') in N. discriminate. }
      now rewrite E'.
    + destruct (cell_eqb a k'); [reflexivity | exact IH].
Qed.

Lemma In_label_set {V} (k : cell) (v : V) (d : list (cell * V)) (x : cell * V) :
  In x (d_set cell_eqb k v d) -> x.2 = v \/ In x d.
Proof.
  induction d as [|[a b] d IH]; simpl.
  - intros [<-|[]]. now left.
  - destruct (cell_eqb a k); simpl.
    + intros [<-|H]; [now left | right; now right].
    + intros [<-|H]; [right; now left|]. destruct (IH H); [now left | right; now right].
Qed.

Section ParentDraw.
Context {W dtype Model : Type}.
Context (metadata : Metadata dtype) (cap : Capability W dtype Model).

(** A column stored as [None] reads as missing for every child row. *)
Lemma likelihood_frame_missing (likelihoods : list (cell * option (list cell)))
    (index : list cell) (frame : list (cell * Series cell)) (parent_id : cell) :
  likelihood_frame likelihoods index = Ok frame ->
  d_get cell_eqb parent_id likelihoods = Some None ->
  forall row, In row frame -> s_get cell_eqb parent_id row.2 = Some NaN.
Proof.
  unfold likelihood_frame.
  destruct (forallb _ likelihoods); [|discriminate].
  intros [= <-] Hget row Hrow. apply In_imap in Hrow as (i & label & ->). simpl.
  unfold d_get in Hget. unfold s_get.
  induction likelihoods as [|[k col] lk IH]; simpl in *; [discriminate|].
  destruct (cell_eqb k parent_id); simpl in *.
  - injection Hget as ->. reflexivity.
  - exact (IH Hget).
Qed.

(** The outcome of one parent row whose extraction, model lookup and
    [set_parameters] went through. *)
Lemma likelihood_of_parent_outcome (self : HMA1 Model) (table_rows : DataFrame)
    (table_name foreign_key : string) (stored : list (cell * option (list cell)))
    (parent : Row) (parameters : list (string * cell)) (fitted model : Model) :
  _extract_parameters self parent.2 table_name foreign_key = Ok parameters ->
  _models self !! table_name = Some fitted ->
  set_parameters cap (get_metadata cap fitted) parameters = Ok model ->
  likelihood_of_parent cap self table_rows table_name foreign_key stored parent
  = match get_likelihood cap model table_rows with
    | Ok values => Ok (d_set cell_eqb parent.1 (Some values) stored)
    | Raise AttributeError | Raise LinAlgError =>
        Ok (d_set cell_eqb parent.1 None stored)
    | Raise e => Raise e
    end.
Proof.
  intros Hp Hm Hs. unfold likelihood_of_parent, rbind, reg_getitem.
  now rewrite Hp, Hm, Hs.
Qed.

(** The premise of the failure sentence: for every parent row the steps
    before the evaluation go through, and the evaluation returns one
    likelihood per child row or raises one of the two exceptions that
    [_get_likelihoods] catches. *)
Lemma likelihood_loop_returns (self : HMA1 Model) (table_rows : DataFrame)
    (table_name foreign_key : string) (parents : list Row)
    (stored : list (cell * option (list cell))) :
  (forall parent, In parent parents ->
     exists parameters fitted model,
       _extract_parameters self parent.2 table_name foreign_key = Ok parameters
       /\ _models self !! table_name = Some fitted
       /\ set_parameters cap (get_metadata cap fitted) parameters = Ok model
       /\ (get_likelihood cap model table_rows = Raise AttributeError
           \/ get_likelihood cap model table_rows = Raise LinAlgError
           \/ exists values, get_likelihood cap model table_rows = Ok values
                             /\ length values = df_len table_rows)) ->
  (forall kv values, In kv stored -> kv.2 = Some values ->
                     length values = df_len table_rows) ->
  exists stored',
    rfor_each (likelihood_of_parent cap self table_rows table_name foreign_key)
              parents stored = Ok stored'
    /\ forall kv values, In kv stored' -> kv.2 = Some values ->
                         length values = df_len table_rows.
Proof.
  revert stored. induction parents as [|parent parents IH]; intros stored Hall Hstored.
  - exists stored. split; [reflexivity | exact Hstored].
  - destruct (Hall parent (or_introl eq_refl))
      as (parameters & fitted & model & Hp & Hm & Hs & Hl).
    cbn [rfor_each].
    rewrite (likelihood_of_parent_outcome self table_rows table_name foreign_key stored
               parent parameters fitted model Hp Hm Hs).
    assert (Hnext : forall v : option (list cell),
              (forall values, v = Some values -> length values = df_len table_rows) ->
              exists stored',
                rfor_each (likelihood_of_parent cap self table_rows table_name
                                                foreign_key)
                          parents (d_set cell_eqb parent.1 v stored) = Ok stored'
                /\ forall kv values, In kv stored' -> kv.2 = Some values ->
                                     length values = df_len table_rows).
    { intros v Hv. apply IH; [intros p Hin; apply Hall; now right|].
      intros kv values Hin Hkv. apply In_label_set in Hin as [E|Hin].
      - apply Hv. congruence.
      - eapply Hstored; eassumption. }
    destruct Hl as [-> | [-> | (values & -> & Hlen)]]; cbn [rbind]; apply Hnext.
    + discriminate.
    + discriminate.
    + intros values' [= <-]. exact Hlen.
Qed.

(** What the loop has stored under the id of a parent row that no later
    row shares: [None] when its evaluation raised one of the two. *)
Lemma likelihood_loop_failed (self : HMA1 Model) (table_rows : DataFrame)
    (table_name foreign_key : string) (before after : list Row) (parent : Row)
    (stored stored' : list (cell * option (list cell)))
    (parameters : list (string * cell)) (fitted model : Model) :
  rfor_each (likelihood_of_parent cap self table_rows table_name foreign_key)
            (before ++ parent :: after) stored = Ok stored' ->
  (forall r, In r after -> cell_eqb r.1 parent.1 = false) ->
  _extract_parameters self parent.2 table_name foreign_key = Ok parameters ->
  _models self !! table_name = Some fitted ->
  set_parameters cap (get_metadata cap fitted) parameters = Ok model ->
  get_likelihood cap model table_rows = Raise AttributeError
  \/ get_likelihood cap model table_rows = Raise LinAlgError ->
  d_get cell_eqb parent.1 stored' = Some None.
Proof.
  intros Hrun Hafter Hp Hm Hs Hl. rewrite rfor_each_app in Hrun.
  unfold rbind at 1 in Hrun.
  destruct (rfor_each _ before stored) as [stored0|e]; [|discriminate].
  cbn [rfor_each] in Hrun.
  rewrite (likelihood_of_parent_outcome self table_rows table_name foreign_key stored0
             parent parameters fitted model Hp Hm Hs) in Hrun.
  assert (Hrun' : rfor_each (likelihood_of_parent cap self table_rows table_name
                                                  foreign_key)
                            after (d_set cell_eqb parent.1 None stored0) = Ok stored').
  { destruct Hl as [E|E]; rewrite E in Hrun; exact Hrun. }
  clear Hrun Hp Hm Hs Hl.
  apply (rfor_each_invariant
           (fun st : list (cell * option (list cell)) =>
              d_get cell_eqb parent.1 st = Some None)) in Hrun';
    [exact Hrun'| |apply label_get_set_eq].
  intros st r st' HP Hr Hstep.
  unfold likelihood_of_parent, rbind in Hstep.
  destruct (_extract_parameters self r.2 table_name foreign_key); [|discriminate].
  destruct (reg_getitem table_name (_models self)); [|discriminate].
  destruct (set_parameters cap _ _); [|discriminate].
  destruct (get_likelihood cap _ table_rows) as [values|[]]; try discriminate;
    injection Hstep as <-; rewrite (label_get_set_ne _ _ _ _ (Hafter r Hr)); exact HP.
Qed.

(** C1.  [_find_parent_id] draws with [np.random.choice] over the
    candidate parent ids, with weights off this ladder; the mean, the
    sum and the quotients are the ones pandas and numpy compute.  If
    every likelihood is zero, the weights come from the expected row
    counts.  Else, if the mean of the likelihoods is undefined or zero,
    each undefined likelihood is replaced by the expected row count
    under the same parent id, and the defined ones (the zeros among
    them) stay.  Otherwise each undefined likelihood is replaced by the
    mean.  If what results sums to zero the draw is uniform over the
    candidates; else each weight is the entry divided by the sum.
    [_get_likelihoods] does not raise what a likelihood evaluation
    raises as [AttributeError] or [LinAlgError]: when the other steps go
    through for every parent row, it returns a frame with one row per
    child row, and a parent whose evaluation raised one of the two has a
    missing likelihood for every child row. *)
Theorem parent_draw_ladder (self : HMA1 Model) (likelihoods num_rows : Series cell) :
  let zero (c : cell) := exists q, c = Some q /\ (q == 0)%Q in
  let all_zero := Forall zero (s_values likelihoods) in
  let mean := series_mean cap (s_values likelihoods) in
  let filled := ladder cap likelihoods num_rows in
  let total := series_sum cap (s_values filled) in
  (forall w, _find_parent_id cap likelihoods num_rows w
             = random_choice cap (s_index filled) (choice_weights cap filled) w)
  /\ (all_zero -> filled = num_rows)
  /\ (~ all_zero -> mean = NaN \/ zero mean ->
      filled = map (fun kv : cell * cell =>
                      (kv.1, match kv.2 with
                             | Some q => Some q
                             | None => default NaN (s_get cell_eqb kv.1 num_rows)
                             end)) likelihoods)
  /\ (~ all_zero -> mean <> NaN -> ~ zero mean ->
      filled = map (fun kv : cell * cell =>
                      (kv.1, match kv.2 with
                             | Some q => Some q
                             | None => mean
                             end)) likelihoods)
  /\ (zero total ->
      choice_weights cap filled
      = repeat (float_div cap (Some 1%Q) (Some (inject_Z (Z.of_nat (length filled)))))
               (length filled))
  /\ (~ zero total ->
      choice_weights cap filled
      = map (fun c : cell => float_div cap c total) (s_values filled))
  /\ (forall table_rows parent_rows table_name foreign_key,
        (forall parent, In parent (records parent_rows) ->
           exists parameters fitted model,
             _extract_parameters self parent.2 table_name foreign_key = Ok parameters
             /\ _models self !! table_name = Some fitted
             /\ set_parameters cap (get_metadata cap fitted) parameters = Ok model
             /\ (get_likelihood cap model table_rows = Raise AttributeError
                 \/ get_likelihood cap model table_rows = Raise LinAlgError
                 \/ exists values, get_likelihood cap model table_rows = Ok values
                                   /\ length values = df_len table_rows)) ->
        exists frame,
          _get_likelihoods cap self table_rows parent_rows table_name foreign_key
            = Ok frame
          /\ map fst frame = df_index table_rows
          /\ forall before parent after parameters fitted model,
               records parent_rows = before ++ parent :: after ->
               (forall r, In r after -> cell_eqb r.1 parent.1 = false) ->
               _extract_parameters self parent.2 table_name foreign_key
                 = Ok parameters ->
               _models self !! table_name = Some fitted ->
               set_parameters cap (get_metadata cap fitted) parameters = Ok model ->
               get_likelihood cap model table_rows = Raise AttributeError
               \/ get_likelihood cap model table_rows = Raise LinAlgError ->
               forall row, In row frame ->
                           s_get cell_eqb parent.1 row.2 = Some NaN).
Proof.
  intros zero all_zero mean filled total.
  assert (Hzero : s_all_zero likelihoods = true <-> all_zero)
    by apply s_all_zero_spec.
  assert (Hmean : isnull mean || py_eq mean 0 = true <-> mean = NaN \/ zero mean).
  { rewrite orb_true_iff, py_eq_zero. destruct mean as [q|]; simpl; split.
    - intros [H|H]; [discriminate | now right].
    - intros [H|H]; [discriminate | now right].
    - intros _. now left.
    - intros _. now left. }
  split; [reflexivity|]. split; [|split; [|split; [|split; [|split]]]].
  - intros Hz. apply Hzero in Hz. unfold filled, ladder. now rewrite Hz.
  - intros Hnz Hm. unfold filled, ladder. fold mean.
    destruct (s_all_zero likelihoods); [exfalso; apply Hnz, Hzero; reflexivity|].
    apply Hmean in Hm. rewrite Hm. unfold s_fillna_series.
    apply map_ext. intros [k [q|]]; reflexivity.
  - intros Hnz Hdef Hm. unfold filled, ladder. fold mean.
    destruct (s_all_zero likelihoods); [exfalso; apply Hnz, Hzero; reflexivity|].
    destruct (isnull mean || py_eq mean 0) eqn:E.
    { destruct (proj1 Hmean eq_refl) as [E'|E']; contradiction. }
    unfold s_fillna. apply map_ext. intros [k [x|]]; reflexivity.
  - intros Hs. unfold choice_weights. fold total.
    apply py_eq_zero in Hs. now rewrite Hs.
  - intros Hs. unfold choice_weights. fold total.
    destruct (py_eq total 0) eqn:E; [apply py_eq_zero in E; contradiction | reflexivity].
  - intros table_rows parent_rows table_name foreign_key Hall.
    destruct (likelihood_loop_returns self table_rows table_name foreign_key
                (records parent_rows) [] Hall) as (stored & Hloop & Hlen);
      [intros kv values []|].
    assert (Hframe : exists frame,
               likelihood_frame stored (df_index table_rows) = Ok frame).
    { unfold likelihood_frame.
      assert (Hcheck : forallb (fun kv : cell * option (list cell) =>
                                  match kv.2 with
                                  | Some values =>
                                      (length values =? length (df_index table_rows))%nat
                                  | None => true
                                  end) stored = true).
      { apply forallb_forall. intros kv Hin. destruct kv.2 as [values|] eqn:Ekv; [|reflexivity].
        apply Nat.eqb_eq. rewrite (Hlen kv values Hin Ekv).
        unfold df_index, df_len. now rewrite length_map. }
      rewrite Hcheck. eauto. }
    destruct Hframe as [frame Hframe]. exists frame.
    assert (Hrun : _get_likelihoods cap self table_rows parent_rows table_name
                                    foreign_key = Ok frame).
    { unfold _get_likelihoods. rewrite Hloop. exact Hframe. }
    split; [exact Hrun|]. split.
    + unfold likelihood_frame in Hframe.
      destruct (forallb _ stored); [|discriminate]. injection Hframe as <-.
      now apply map_fst_imap.
    + intros before parent after parameters fitted model Hrec Hafter Hp Hm Hs Hl row Hrow.
      rewrite Hrec in Hloop.
      apply (likelihood_frame_missing stored (df_index table_rows) frame parent.1 Hframe);
        [|exact Hrow].
      exact (likelihood_loop_failed self table_rows table_name foreign_key before after
               parent [] stored parameters fitted model Hloop Hafter Hp Hm Hs Hl).
Qed.
End ParentDraw.

(** C1 on the small instance, whose arithmetic is exact.  The draw: one
    candidate whose likelihood could not be evaluated, one of
    likelihood zero; the mean is zero, so the undefined one takes its
    expected row count, the zero stays, and the draw falls on the first
    candidate with probability one.  The likelihoods: of two parent
    rows, the first has a missing [loc] and its evaluation raises
    [LinAlgError]; the frame comes back with a missing likelihood under
    its id for each of the three child rows. *)
Lemma parent_draw_ladder_witness :
  let likelihoods := [(Toy.num 100, NaN); (Toy.num 101, Toy.num 0)] in
  let num_rows := [(Toy.num 100, Toy.num 2); (Toy.num 101, Toy.num 1)] in
  let parent_rows :=
    Toy.frame ["__child__parent_id__loc"; "__child__parent_id__num_rows"]
              [[NaN; Toy.num 1]; [Toy.num 6; Toy.num 2]] in
  ladder Toy.cap likelihoods num_rows
  = [(Toy.num 100, Toy.num 2); (Toy.num 101, Toy.num 0)]
  /\ Forall2 (fun (w : cell) (p : Q) => exists x, w = Some x /\ (x == p)%Q)
             (choice_weights Toy.cap (ladder Toy.cap likelihoods num_rows)) [1%Q; 0%Q]
  /\ _find_parent_id Toy.cap likelihoods num_rows 0%nat = Ok (Toy.num 100, 0%nat)
  /\ exists frame,
       _get_likelihoods Toy.cap Toy.fitted Toy.child_table parent_rows
                        "child" "parent_id" = Ok frame
       /\ df_index Toy.child_table = map fst frame
       /\ forall row, In row frame -> s_get cell_eqb (Toy.num 0) row.2 = Some NaN.
Proof.
  intros likelihoods num_rows parent_rows.
  destruct (parent_draw_ladder Toy.cap Toy.fitted likelihoods num_rows)
    as (Hdraw & _ & Hfill & _ & _ & Hweights & Hfail).
  assert (Hnz : ~ Forall (fun c : cell => exists q, c = Some q /\ (q == 0)%Q)
                         (s_values likelihoods)).
  { intros H. inversion H as [|c cs (q & Hq & _) _]. discriminate. }
  assert (Hladder : ladder Toy.cap likelihoods num_rows
                    = [(Toy.num 100, Toy.num 2); (Toy.num 101, Toy.num 0)]).
  { rewrite (Hfill Hnz); [reflexivity|]. right. exists 0%Q. split; reflexivity. }
  split; [exact Hladder|]. split; [|split].
  - rewrite Hweights.
    + rewrite Hladder. repeat constructor; eexists; (split; [reflexivity|]);
        vm_compute; reflexivity.
    + rewrite Hladder. intros (q & Hq & Hz). vm_compute in Hq. injection Hq as <-.
      vm_compute in Hz. discriminate.
  - rewrite Hdraw, Hladder. reflexivity.
  - destruct (Hfail Toy.child_table parent_rows "child" "parent_id")
      as (frame & Hrun & Hidx & Hmissing).
    + intros parent [<-|[<-|[]]].
      * eexists. eexists. eexists.
        split; [vm_compute; reflexivity|]. split; [vm_compute; reflexivity|].
        split; [reflexivity|]. right. left. reflexivity.
      * eexists. eexists. eexists.
        split; [vm_compute; reflexivity|]. split; [vm_compute; reflexivity|].
        split; [reflexivity|]. right. right. eexists. split; reflexivity.
    + exists frame. split; [exact Hrun|]. split; [symmetry; exact Hidx|].
      intros row Hrow.
      eapply (Hmissing
                []
                (Toy.num 0, [("__child__parent_id__loc", NaN);
                             ("__child__parent_id__num_rows", Toy.num 1)])
                [(Toy.num 1, [("__child__parent_id__loc", Toy.num 6);
                              ("__child__parent_id__num_rows", Toy.num 2)])]).
      * reflexivity.
      * intros r [<-|[]]. reflexivity.
      * vm_compute. reflexivity.
      * vm_compute. reflexivity.
      * reflexivity.
      * right. reflexivity.
      * exact Hrow.
Defined.

(** ** C7: finalization *)



Lemma index_equal_length (a b : list cell) :
  index_equal a b = true -> length a = length b.
Proof.
  revert b. induction a as [|x a IH]; intros [|y b] H; simpl in H;
    try discriminate; [reflexivity|].
  apply andb_prop in H as [_ H]. simpl. f_equal. auto.
Qed.

Lemma map_fst_zip_with {A B} (f : A -> B -> Series string) (l : list (cell * A))
    (k : list B) :
  length k = length l ->
  map fst (zip_with (fun (r : cell * A) v => (r.1, f r.2 v)) l k) = map fst l.
Proof.
  revert k. induction l as [|r l IH]; intros [|v k] H; simpl in *;
    try discriminate; [reflexivity|].
  f_equal. apply IH. lia.
Qed.

(** Assigning a column keeps the index of the frame. *)
Lemma df_set_series_index (c : string) (s : Series cell) (df df' : DataFrame) :
  df_set_series c s df = Ok df' -> df_index df' = df_index df.
Proof.
  unfold df_set_series.
  destruct (index_equal (s_index s) (df_index df)) eqn:E.
  - intros [= <-]. unfold df_index. simpl.
    apply (map_fst_zip_with (fun r v => row_set c v r)).
    apply index_equal_length in E. unfold s_index, s_values, df_index in *.
    rewrite !length_map in *. exact E.
  - destruct (has_duplicates (s_index s)); [discriminate|].
    intros [= <-]. unfold df_index. simpl. rewrite map_map. reflexivity.
Qed.

Lemma df_select_shape (cs : list string) (df df' : DataFrame) :
  df_select cs df = Ok df' -> columns df' = cs /\ df_index df' = df_index df.
Proof.
  unfold df_select. destruct (forallb _ cs); [|discriminate].
  intros [= <-]. unfold df_index. simpl. rewrite map_map. auto.
Qed.







Section Finalize.
Context {W dtype Model : Type}.
Context (metadata : Metadata dtype) (cap : Capability W dtype Model).


Lemma apply_dtypes_index (dtypes : list (string * dtype)) (table table' : DataFrame) :
  apply_dtypes cap dtypes table = Ok table' -> df_index table' = df_index table.
Proof.
  unfold apply_dtypes. intros Hrun.
  eapply (rfor_each_invariant (fun t => df_index t = df_index table));
    [|reflexivity | exact Hrun].
  intros t nd t' Ht _. unfold rbind.
  destruct (df_getitem nd.1 t) as [column|e]; [|discriminate].
  intros H. apply df_set_series_index in H. congruence.
Qed.



End Finalize.

Lemma d_get_d_set {V} (k k' : string) (v : V) (d : list (string * V)) :
  d_get String.eqb k' (d_set String.eqb k v d)
  = if String.eqb k k' then Some v else d_get String.eqb k' d.
Proof.
  destruct (String.eqb_spec k k') as [->|N].
  - apply d_get_d_set_eq.
  - now apply d_get_d_set_ne.
Qed.

Section FinalizeShape.
Context {W dtype Model : Type}.
Context (metadata : Metadata dtype) (cap : Capability W dtype Model).

(** Drawing the missing foreign keys of a table changes no index. *)
Lemma add_parent_keys_index (self : HMA1 Model) (table_name : string)
    (sampled_data sampled_data' : list (string * DataFrame)) (w w' : W) :
  add_parent_keys metadata cap self table_name sampled_data w = Ok (sampled_data', w') ->
  forall t, option_map df_index (d_get String.eqb t sampled_data')
            = option_map df_index (d_get String.eqb t sampled_data).
Proof.
  unfold add_parent_keys. intros Hrun.
  eapply (for_each_invariant
            (fun sd => forall t, option_map df_index (d_get String.eqb t sd)
                                 = option_map df_index (d_get String.eqb t sampled_data)));
    [|reflexivity | exact Hrun].
  intros sd parent_name w1 sd1 w2 Hsd _ Hinner.
  eapply (for_each_invariant
            (fun sd => forall t, option_map df_index (d_get String.eqb t sd)
                                 = option_map df_index (d_get String.eqb t sampled_data)));
    [|exact Hsd | exact Hinner].
  clear. intros sd foreign_key w sd' w' Hsd _. unfold mbind, lift, d_getitem.
  destruct (d_get String.eqb table_name sd) as [table_rows|] eqn:Et; [|discriminate].
  destruct (inb foreign_key (columns table_rows)).
  - unfold mret. intros [= <- <-]. exact Hsd.
  - destruct (_find_parent_ids metadata cap self table_name parent_name foreign_key sd w)
      as [[parent_ids w1]|e]; [|discriminate].
    destruct (df_set_series foreign_key parent_ids table_rows) as [keyed|e] eqn:Es;
      [|discriminate].
    unfold mret. intros [= <- <-] t. rewrite d_get_d_set.
    destruct (String.eqb_spec table_name t) as [<-|N]; [|apply Hsd].
    rewrite <- Hsd, Et. simpl. f_equal. eapply df_set_series_index. exact Es.
Qed.

(** The tables [_finalize] returns have the declared columns, in
    declared order, and the index of the sampled table. *)
Lemma finalize_shape (self : HMA1 Model) (sampled_data final_data : list (string * DataFrame))
    (w w' : W) :
  _finalize metadata cap self sampled_data w = Ok (final_data, w') ->
  forall t rows,
    d_get String.eqb t final_data = Some rows ->
    columns rows = map fst (get_dtypes metadata t)
    /\ exists sampled, d_get String.eqb t sampled_data = Some sampled
                       /\ df_index rows = df_index sampled.
Proof.
  unfold _finalize. unfold mbind at 1.
  match goal with
  | |- context [for_each ?body ?xs ?s0 w] =>
      destruct (for_each body xs s0 w) as [[[sd final] w1]|e] eqn:Hloop; [|discriminate]
  end.
  unfold mret. intros [= <- <-].
  eapply (for_each_invariant
            (fun st : list (string * DataFrame) * list (string * DataFrame) =>
               (forall t, option_map df_index (d_get String.eqb t st.1)
                          = option_map df_index (d_get String.eqb t sampled_data))
               /\ (forall t rows,
                     d_get String.eqb t st.2 = Some rows ->
                     columns rows = map fst (get_dtypes metadata t)
                     /\ exists sampled, d_get String.eqb t sampled_data = Some sampled
                                        /\ df_index rows = df_index sampled)))
    in Hloop; [exact (proj2 Hloop) | | split; [reflexivity | intros t rows; discriminate]].
  clear. intros [sd final] table_name w [sd' final'] w' [Hsd Hfinal] _.
  unfold mbind, lift, d_getitem.
  destruct (add_parent_keys metadata cap self table_name sd w)
    as [[sd1 w1]|e] eqn:Ek; [|discriminate].
  pose proof (add_parent_keys_index _ _ _ _ _ _ Ek) as Hk.
  destruct (d_get String.eqb table_name sd1) as [table_rows|] eqn:Et; [|discriminate].
  destruct (apply_dtypes cap (get_dtypes metadata table_name) table_rows)
    as [typed|e] eqn:Ea; [|discriminate].
  destruct (df_select (map fst (get_dtypes metadata table_name)) typed)
    as [selected|e] eqn:Es; [|discriminate].
  unfold mret. intros [= <- <- <-]. simpl in *.
  apply apply_dtypes_index in Ea. apply df_select_shape in Es as [Hcols Hidx].
  assert (Hsampled : option_map df_index (d_get String.eqb table_name sampled_data)
                     = Some (df_index table_rows)).
  { rewrite <- Hsd, <- Hk, Et. reflexivity. }
  split.
  - intros t. rewrite d_get_d_set.
    destruct (String.eqb_spec table_name t) as [<-|N].
    + rewrite Hsampled. simpl. now rewrite Ea.
    + rewrite Hk. apply Hsd.
  - intros t rows. rewrite d_get_d_set.
    destruct (String.eqb_spec table_name t) as [<-|N]; [|apply Hfinal].
    intros [= <-]. split; [exact Hcols|].
    destruct (d_get String.eqb table_name sampled_data) as [sampled|]; [|discriminate].
    exists sampled. split; [reflexivity|]. simpl in Hsampled. congruence.
Qed.

End FinalizeShape.


(** * Further properties of the code *)

(** ** Parameter extraction: errors and the round trip with flattening *)

Lemma append_eqb (p s t : string) : String.eqb (p +:+ s) (p +:+ t) = String.eqb s t.
Proof.
  destruct (String.eqb_spec s t) as [->|N].
  - apply String.eqb_refl.
  - apply String.eqb_neq. intros E. apply N. eapply append_inj_r. exact E.
Qed.

Lemma filter_prefixed (p : string) (params : Series string) :
  List.filter (fun kv : string * cell => startswith p kv.1)
              (map (fun kv : string * cell => (p +:+ kv.1, kv.2)) params)
  = map (fun kv : string * cell => (p +:+ kv.1, kv.2)) params.
Proof.
  induction params as [|[k v] params IH]; simpl; [reflexivity|].
  now rewrite startswith_append, IH.
Qed.

Lemma s_mem_prefixed (p c : string) (params : Series string) :
  s_mem String.eqb (p +:+ c)
        (map (fun kv : string * cell => (p +:+ kv.1, kv.2)) params)
  = s_mem String.eqb c params.
Proof.
  unfold s_mem. induction params as [|[k v] params IH]; simpl; [reflexivity|].
  now rewrite append_eqb, IH.
Qed.

Lemma row_get_prefixed (p c : string) (params : Series string) :
  row_get (p +:+ c) (map (fun kv : string * cell => (p +:+ kv.1, kv.2)) params)
  = row_get c params.
Proof.
  unfold row_get, s_get. induction params as [|[k v] params IH]; simpl; [reflexivity|].
  rewrite append_eqb. destruct (String.eqb k c); [reflexivity | exact IH].
Qed.

Lemma row_set_prefixed (p c : string) (v : cell) (params : Series string) :
  row_set (p +:+ c) v (map (fun kv : string * cell => (p +:+ kv.1, kv.2)) params)
  = map (fun kv : string * cell => (p +:+ kv.1, kv.2)) (row_set c v params).
Proof.
  unfold row_set. induction params as [|[k x] params IH]; simpl; [reflexivity|].
  rewrite append_eqb. destruct (String.eqb k c); simpl; [reflexivity | now rewrite IH].
Qed.

Lemma strip_prefixed (p : string) (params : Series string) :
  map (fun kv : string * cell => (drop_chars (String.length p) kv.1, kv.2))
      (map (fun kv : string * cell => (p +:+ kv.1, kv.2)) params)
  = params.
Proof.
  induction params as [|[k v] params IH]; simpl; [reflexivity|].
  now rewrite drop_chars_append, IH.
Qed.

Lemma s_get_filter_prefix (p c : string) (r : Series string) :
  startswith p c = true ->
  s_get String.eqb c (List.filter (fun kv : string * cell => startswith p kv.1) r)
  = s_get String.eqb c r.
Proof.
  intros Hc. unfold s_get. induction r as [|[k x] r IH]; simpl; [reflexivity|].
  destruct (startswith p k) eqn:E; simpl.
  - destruct (String.eqb k c); [reflexivity | exact IH].
  - destruct (String.eqb_spec k c) as [->|]; [congruence | exact IH].
Qed.

Section ExtractionErrors.
Context {Model : Type}.

(** X1.  [_extract_parameters] raises only [KeyError], and exactly when
    the parent row has the [num_rows] column of the pair while no
    maximum is recorded for it; in every other case it returns. *)
Theorem extract_raises_iff_unrecorded (self : HMA1 Model) (parent_row : Series string)
    (table_name foreign_key : string) :
  let key := ext_prefix table_name foreign_key +:+ "num_rows" in
  (forall e, _extract_parameters self parent_row table_name foreign_key = Raise e ->
             e = KeyError)
  /\ ((exists e, _extract_parameters self parent_row table_name foreign_key = Raise e)
      <-> s_mem String.eqb key parent_row = true /\ _max_child_rows self !! key = None).
Proof.
  intros key. unfold _extract_parameters. fold key.
  rewrite (s_mem_filter_prefix _ key parent_row (startswith_append _ _)).
  destruct (s_mem String.eqb key parent_row); cbn [rbind].
  - unfold reg_getitem. destruct (_max_child_rows self !! key); cbn [rbind].
    + split; [discriminate|]. split; [intros [e H]; discriminate | intros [_ H]; discriminate].
    + split; [now intros e [= <-]|]. split; [auto | eauto].
  - split; [discriminate|]. split; [intros [e H]; discriminate | intros [H _]; discriminate].
Qed.

(** X2.  Extraction undoes flattening.  A parent row made of columns of
    other pairs and of the parameters of a group under the pair's
    prefix gives back those parameters, names and values in order; a
    [num_rows] among them is replaced by Python's [min] of it and the
    recorded maximum. *)
Theorem extract_undoes_flatten (self : HMA1 Model) (table_name foreign_key : string)
    (other parameters : Series string) :
  let prefix := ext_prefix table_name foreign_key in
  let flattened := map (fun kv : string * cell => (prefix +:+ kv.1, kv.2)) parameters in
  Forall (fun kv : string * cell => startswith prefix kv.1 = false) other ->
  (s_mem String.eqb "num_rows" parameters = false ->
   _extract_parameters self (other ++ flattened) table_name foreign_key = Ok parameters)
  /\ (forall recorded,
        s_mem String.eqb "num_rows" parameters = true ->
        _max_child_rows self !! (prefix +:+ "num_rows") = Some recorded ->
        _extract_parameters self (other ++ flattened) table_name foreign_key
        = Ok (row_set "num_rows" (py_min recorded (row_get "num_rows" parameters))
                      parameters)).
Proof.
  intros prefix flattened Hother.
  assert (Hflat : List.filter (fun kv : string * cell => startswith prefix kv.1)
                              (other ++ flattened) = flattened).
  { rewrite List.filter_app.
    rewrite (filter_none _ other) by (rewrite List.Forall_forall in Hother; exact Hother).
    unfold flattened. now rewrite filter_prefixed. }
  unfold _extract_parameters. fold prefix. rewrite Hflat. unfold flattened.
  rewrite s_mem_prefixed. split.
  - intros ->. cbn [rbind]. f_equal. apply strip_prefixed.
  - intros recorded -> Hreg. cbn [rbind]. unfold reg_getitem. rewrite Hreg.
    cbn [rbind]. f_equal. rewrite row_get_prefixed, row_set_prefixed.
    apply strip_prefixed.
Qed.

(** X3.  A parent row whose [num_rows] is missing asks for the most:
    Python's [min(recorded, nan)] is [recorded], so extraction returns
    the recorded maximum itself. *)
Theorem extract_missing_num_rows_is_maximum (self : HMA1 Model)
    (parent_row : Series string) (table_name foreign_key : string)
    (recorded : cell) (parameters : list (string * cell)) :
  let key := ext_prefix table_name foreign_key +:+ "num_rows" in
  s_get String.eqb key parent_row = Some NaN ->
  _max_child_rows self !! key = Some recorded ->
  _extract_parameters self parent_row table_name foreign_key = Ok parameters ->
  s_get String.eqb "num_rows" parameters = Some recorded.
Proof.
  intros key Hrow Hreg Hp.
  rewrite (extract_num_rows self parent_row table_name foreign_key recorded
             parameters Hreg Hp). fold key.
  assert (Hmem : s_mem String.eqb key parent_row = true).
  { destruct (s_mem String.eqb key parent_row) eqn:E; [reflexivity|].
    apply s_mem_s_get in E. congruence. }
  rewrite Hmem. f_equal.
  unfold row_get.
  rewrite (s_get_filter_prefix _ key parent_row (startswith_append _ _)), Hrow.
  reflexivity.
Qed.
End ExtractionErrors.

(** X2 on the small instance: the parameters of a group, flattened
    next to a data column, come back as they were. *)
Lemma extract_undoes_flatten_witness :
  _extract_parameters Toy.fitted
    ([("a", Toy.num 7)]
     ++ map (fun kv : string * cell => (ext_prefix "child" "parent_id" +:+ kv.1, kv.2))
            [("loc", Toy.num 6); ("scale", NaN)])
    "child" "parent_id"
  = Ok [("loc", Toy.num 6); ("scale", NaN)].
Proof.
  apply (extract_undoes_flatten Toy.fitted "child" "parent_id" [("a", Toy.num 7)]
           [("loc", Toy.num 6); ("scale", NaN)]).
  - repeat constructor.
  - reflexivity.
Defined.

(** X3 on the small instance: a missing [num_rows] reads as the
    recorded maximum, two. *)
Lemma extract_missing_num_rows_is_maximum_witness :
  s_get String.eqb "num_rows" [("num_rows", Toy.num 2)] = Some (Toy.num 2).
Proof.
  apply (extract_missing_num_rows_is_maximum Toy.fitted
           [("a", Toy.num 7); ("__child__parent_id__num_rows", NaN)]
           "child" "parent_id" (Toy.num 2) [("num_rows", Toy.num 2)]).
  - reflexivity.
  - vm_compute. reflexivity.
  - vm_compute. reflexivity.
Defined.

(** ** Sampling a table: counts, registries, tables already sampled *)

(** X4.  The count of a sampled table, for a table model that samples
    as many rows as it is asked for: a requested count of at least one
    is the number of rows returned, and without a requested count the
    fit-time size of the table is, when that size is at least one. *)
Theorem sample_table_counts {W dtype Model : Type} (metadata : Metadata dtype)
    (cap : Capability W dtype Model) (fuel : nat) (self : HMA1 Model)
    (table_name : string) (num_rows : option nat) (n : nat)
    (sampled_data : list (string * DataFrame)) (w w' : W) :
  SamplerContract cap ->
  num_rows = Some (S n)
  \/ (num_rows = None /\ _table_sizes self !! table_name = Some (S n)) ->
  _sample_table metadata cap fuel self table_name num_rows false None w
    = Ok (sampled_data, w') ->
  exists rows, sampled_data = [(table_name, rows)] /\ df_len rows = S n.
Proof.
  intros [Hlen _] Hcount. unfold _sample_table, mbind, mret, lift, reg_getitem.
  assert (Hn : match num_rows with
               | Some k => Ok (k, w)
               | None => match _table_sizes self !! table_name with
                         | Some k => Ok (k, w)
                         | None => Raise KeyError
                         end
               end = Ok (S n, w)).
  { destruct Hcount as [->|[-> ->]]; reflexivity. }
  replace (match num_rows with
           | Some k => fun w0 : W => Ok (k, w0)
           | None => fun w0 : W =>
                       match match _table_sizes self !! table_name with
                             | Some v => Ok v
                             | None => Raise KeyError
                             end with
                       | Ok a => Ok (a, w0)
                       | Raise e => Raise e
                       end
           end w) with (@Ok (nat * W) (S n, w)).
  2:{ rewrite <- Hn. destruct num_rows; [reflexivity|].
      destruct (_table_sizes self !! table_name); reflexivity. }
  destruct (_models self !! table_name) as [model|]; [|discriminate].
  destruct (_sample_rows metadata cap model table_name (Some (S n)) w)
    as [[rows w1]|e] eqn:Er; [|discriminate].
  simpl. intros [= <- <-]. exists rows. split; [reflexivity|].
  apply sample_rows_inv in Er as (sampled & w0 & Hs & ->).
  apply Hlen in Hs. exact Hs.
Qed.

(** X4 on the small instance: no count asked for, the three rows of
    the fit-time parent table sampled. *)
Lemma sample_table_counts_witness :
  exists rows w',
    _sample_table Toy.metadata Toy.cap 5 Toy.fitted "parent" None false None
                  100%nat = Ok ([("parent", rows)], w')
    /\ df_len rows = 3%nat.
Proof.
  destruct (_sample_table Toy.metadata Toy.cap 5 Toy.fitted "parent" None false
              None 100%nat) as [[sd w']|e] eqn:E; [|vm_compute in E; discriminate].
  destruct (sample_table_counts Toy.metadata Toy.cap 5 Toy.fitted "parent" None 2 sd
              100%nat w' toy_contract) as (rows & -> & Hlen).
  - right. split; [reflexivity | vm_compute; reflexivity].
  - exact E.
  - exists rows, w'. split; [reflexivity | exact Hlen].
Defined.

Section SamplingTables.
Context {W dtype Model : Type}.
Context (metadata : Metadata dtype) (cap : Capability W dtype Model).

(** X5.  Sampling a table that was never fit raises [KeyError],
    whatever count is asked for and before anything is sampled: the
    table is in neither registry. *)
Theorem sample_table_unfitted (fuel : nat) (self : HMA1 Model) (table_name : string)
    (num_rows : option nat) (sample_children : bool)
    (sampled_data : option (list (string * DataFrame))) (w : W) :
  _models self !! table_name = None ->
  _sample_table metadata cap fuel self table_name num_rows sample_children sampled_data w
  = Raise KeyError.
Proof.
  intros Hm. unfold _sample_table, mbind, lift, reg_getitem, mret. rewrite Hm.
  destruct num_rows as [n|]; [reflexivity|].
  destruct (_table_sizes self !! table_name); reflexivity.
Qed.

(** A call of [_sample_child_rows] touches no entry but the child's. *)
Lemma sample_child_rows_other (self : HMA1 Model) (table_name parent_name : string)
    (parent_row : Series string) (sampled_data sampled_data' : list (string * DataFrame))
    (w w' : W) (name : string) :
  _sample_child_rows metadata cap self table_name parent_name parent_row sampled_data w
    = Ok (sampled_data', w') ->
  name <> table_name ->
  d_get String.eqb name sampled_data' = d_get String.eqb name sampled_data.
Proof.
  intros Hrun Hne.
  apply sample_child_rows_inv in Hrun
    as (fk & params & fitted & model & batch & _ & _ & _ & _ & _ & Hcases).
  destruct Hcases as [[_ ->]|(_ & pid & _ & ->)]; [reflexivity|].
  apply d_get_d_set_ne. congruence.
Qed.

(** X6.  [_sample_children] never alters or removes a table that is
    already in the sampled-data map: a child found there is not sampled
    again, and the tables it adds go under names that were free. *)
Theorem sample_children_keeps_tables (fuel : nat) (self : HMA1 Model)
    (table_name : string) (sampled_data sampled_data' : list (string * DataFrame))
    (table_rows : DataFrame) (w w' : W) :
  _sample_children metadata cap fuel self table_name sampled_data table_rows w
    = Ok (sampled_data', w') ->
  forall name df,
    d_get String.eqb name sampled_data = Some df ->
    d_get String.eqb name sampled_data' = Some df.
Proof.
  revert table_name sampled_data sampled_data' table_rows w w'.
  induction fuel as [|fuel IH]; intros table_name sd sd' table_rows w w' Hrun;
    [discriminate|].
  simpl in Hrun.
  eapply (for_each_invariant
            (fun cur => forall name df, d_get String.eqb name sd = Some df ->
                                        d_get String.eqb name cur = Some df));
    [|intros name df Hdf; exact Hdf | exact Hrun].
  clear Hrun. intros cur child w1 cur' w2 Hcur _. cbv beta.
  destruct (d_mem String.eqb child cur) eqn:Em.
  - unfold mret. now intros [= <- <-].
  - unfold mbind at 1.
    destruct (sample_child_table metadata cap self child table_name table_rows cur w1)
      as [[cur1 w3]|e] eqn:Eloop; [|discriminate].
    unfold mbind, lift, d_getitem.
    destruct (d_get String.eqb child cur1) as [child_rows|]; [|discriminate].
    intros Hrec name df Hdf.
    apply (IH _ _ _ _ _ _ Hrec).
    assert (Hne : name <> child).
    { intros ->. apply Hcur in Hdf. apply d_mem_d_get in Em. congruence. }
    unfold sample_child_table in Eloop.
    rewrite (for_each_invariant
               (fun cur1 => d_get String.eqb name cur1 = d_get String.eqb name cur)
               _ _ _ _ _ _
               (fun s x w4 s' w5 Hs _ Hcall =>
                  eq_trans (sample_child_rows_other _ _ _ _ _ _ _ _ name Hcall Hne) Hs)
               eq_refl Eloop).
    now apply Hcur.
Qed.
End SamplingTables.

(** X5 on the small instance: nothing was fit. *)
Lemma sample_table_unfitted_witness :
  _sample_table Toy.metadata Toy.cap 5 Toy.unfitted "parent" None true None 0%nat
  = Raise KeyError.
Proof.
  apply (sample_table_unfitted Toy.metadata Toy.cap 5 Toy.unfitted "parent" None true
           None 0%nat).
  reflexivity.
Defined.

(** X6 on the small instance: the sampled parents are still there
    after their children were sampled. *)
Lemma sample_children_keeps_tables_witness :
  exists sampled_data' w',
    _sample_children Toy.metadata Toy.cap 5 Toy.fitted "parent"
                     [("parent", Toy.sampled_parents)] Toy.sampled_parents 106%nat
      = Ok (sampled_data', w')
    /\ d_get String.eqb "parent" sampled_data' = Some Toy.sampled_parents.
Proof.
  destruct (_sample_children Toy.metadata Toy.cap 5 Toy.fitted "parent"
              [("parent", Toy.sampled_parents)] Toy.sampled_parents 106%nat)
    as [[sd' w']|e] eqn:E; [|vm_compute in E; discriminate].
  exists sd', w'. split; [reflexivity|].
  apply (sample_children_keeps_tables Toy.metadata Toy.cap 5 Toy.fitted "parent"
           [("parent", Toy.sampled_parents)] sd' Toy.sampled_parents 106%nat w' E).
  reflexivity.
Defined.

(** ** The draw of a parent id: what [np.random.choice] is given *)

Section DrawArguments.
Context {W dtype Model : Type}.
Context (cap : Capability W dtype Model).

End DrawArguments.


(** ** Likelihoods and the reconstruction of foreign keys *)

Lemma rfor_each_steps {A S} (body : S -> A -> result S) (xs : list A) (s s' : S) :
  rfor_each body xs s = Ok s' ->
  forall x, In x xs -> exists s1 s2, body s1 x = Ok s2.
Proof.
  revert s. induction xs as [|y xs IH]; intros s H x Hx; [destruct Hx|].
  simpl in H. unfold rbind in H. destruct (body s y) as [s1|e] eqn:E; [|discriminate].
  destruct Hx as [->|Hx]; [eauto | exact (IH s1 H x Hx)].
Qed.


Lemma for_each_noop {W A S} (body : S -> A -> M W S) (xs : list A) (s : S) :
  (forall x w, In x xs -> body s x w = Ok (s, w)) ->
  forall w, for_each body xs s w = Ok (s, w).
Proof.
  induction xs as [|x xs IH]; intros Hbody w; simpl; [reflexivity|].
  unfold mbind. rewrite Hbody by now left.
  apply IH. intros y w1 Hy. apply Hbody. now right.
Qed.

Section Reconstruction.
Context {W dtype Model : Type}.
Context (metadata : Metadata dtype) (cap : Capability W dtype Model).

(** The frame of likelihoods has the child rows' labels for its index. *)
Lemma get_likelihoods_index (self : HMA1 Model) (table_rows parent_rows : DataFrame)
    (table_name foreign_key : string) (frame : list (cell * Series cell)) :
  _get_likelihoods cap self table_rows parent_rows table_name foreign_key = Ok frame ->
  map fst frame = df_index table_rows.
Proof.
  unfold _get_likelihoods, rbind.
  destruct (rfor_each (likelihood_of_parent cap self table_rows table_name foreign_key)
              (records parent_rows) []) as [stored|e]; [|discriminate].
  unfold likelihood_frame.
  destruct (forallb _ stored); [|discriminate]. intros H. injection H as <-.
  now apply map_fst_imap.
Qed.

(** X8.  [_get_likelihoods] swallows nothing but the two exceptions of
    the likelihood evaluation.  When it returns, the parameters of every
    parent row were extracted and set, and each evaluation returned or
    raised [AttributeError] or [LinAlgError]; any other exception, of
    the evaluation or of the steps before it, ends the call.  The frame
    returned has one row per child row, under the child rows' labels. *)
Theorem get_likelihoods_returns_only_if (self : HMA1 Model)
    (table_rows parent_rows : DataFrame) (table_name foreign_key : string)
    (frame : list (cell * Series cell)) :
  _get_likelihoods cap self table_rows parent_rows table_name foreign_key = Ok frame ->
  map fst frame = df_index table_rows
  /\ forall parent, In parent (records parent_rows) ->
       exists parameters fitted model,
         _extract_parameters self parent.2 table_name foreign_key = Ok parameters
         /\ _models self !! table_name = Some fitted
         /\ set_parameters cap (get_metadata cap fitted) parameters = Ok model
         /\ ((exists values, get_likelihood cap model table_rows = Ok values)
             \/ get_likelihood cap model table_rows = Raise AttributeError
             \/ get_likelihood cap model table_rows = Raise LinAlgError).
Proof.
  unfold _get_likelihoods, rbind.
  destruct (rfor_each (likelihood_of_parent cap self table_rows table_name foreign_key)
              (records parent_rows) []) as [stored|e] eqn:Eloop; [|discriminate].
  intros Hframe. split.
  - eapply get_likelihoods_index. unfold _get_likelihoods, rbind.
    rewrite Eloop. exact Hframe.
  - intros parent Hin.
    destruct (rfor_each_steps _ _ _ _ Eloop parent Hin) as (s1 & s2 & Hstep).
    unfold likelihood_of_parent, rbind, reg_getitem in Hstep.
    destruct (_extract_parameters self parent.2 table_name foreign_key)
      as [parameters|e] eqn:Ep; [|discriminate].
    destruct (_models self !! table_name) as [fitted|] eqn:Em; [|discriminate].
    destruct (set_parameters cap (get_metadata cap fitted) parameters)
      as [model|e] eqn:Es; [|discriminate].
    exists parameters, fitted, model. repeat split; try reflexivity; try assumption.
    destruct (get_likelihood cap model table_rows) as [values|[]];
      try discriminate; eauto.
Qed.

Lemma collect_ids_index (num_rows : Series cell) (rows : list (cell * Series cell))
    (acc acc' : Series cell) (w w' : W) :
  for_each (fun (parent_ids : Series cell) (row : cell * Series cell) =>
              mbind (_find_parent_id cap row.2 num_rows)
                    (fun parent_id => mret (parent_ids ++ [(row.1, parent_id)])))
           rows acc w = Ok (acc', w') ->
  s_index acc' = s_index acc ++ map fst rows.
Proof.
  revert acc w. induction rows as [|row rows IH]; intros acc w H; simpl in H.
  - unfold mret in H. injection H as <- <-. now rewrite app_nil_r.
  - unfold mbind at 1 in H. unfold mbind at 1 in H.
    destruct (_find_parent_id cap row.2 num_rows w) as [[pid w1]|e]; [|discriminate].
    unfold mret at 1 in H. apply IH in H. rewrite H. unfold s_index.
    rewrite map_app, <- app_assoc. reflexivity.
Qed.

(** X9.  The series [_find_parent_ids] returns has exactly one parent id
    per row of the child table, under that row's label and in the order
    of the rows; so [_finalize] gives every child row a foreign-key
    value. *)
Theorem find_parent_ids_index (self : HMA1 Model)
    (table_name parent_name foreign_key : string)
    (sampled_data : list (string * DataFrame)) (w w' : W) (parent_ids : Series cell) :
  _find_parent_ids metadata cap self table_name parent_name foreign_key sampled_data w
    = Ok (parent_ids, w') ->
  exists table_rows,
    d_get String.eqb table_name sampled_data = Some table_rows
    /\ s_index parent_ids = df_index table_rows.
Proof.
  unfold _find_parent_ids. unfold mbind at 1. unfold lift at 1, d_getitem.
  destruct (d_get String.eqb table_name sampled_data) as [table_rows|]; [|discriminate].
  unfold mbind at 1.
  match goal with
  | |- match ?m w with _ => _ end = _ -> _ =>
      destruct (m w) as [[parent_rows w1]|e]; [|discriminate]
  end.
  unfold mbind at 1. unfold lift at 1.
  match goal with
  | |- match match ?r with _ => _ end with _ => _ end = _ -> _ =>
      destruct r as [indexed|e]; [|discriminate]
  end.
  unfold mbind at 1. unfold lift at 1.
  destruct (df_getitem _ indexed) as [column|e]; [|discriminate].
  unfold mbind at 1. unfold lift at 1.
  destruct (_get_likelihoods cap self table_rows indexed table_name foreign_key)
    as [frame|e] eqn:Ef; [|discriminate].
  intros H. exists table_rows. split; [reflexivity|].
  apply collect_ids_index in H. rewrite H. simpl.
  eapply get_likelihoods_index. exact Ef.
Qed.

(** X10.  A table that has every foreign-key column the schema declares
    for it goes through the foreign-key part of [_finalize] untouched:
    no parent table is sampled, no id is drawn, the world is as before. *)
Theorem add_parent_keys_noop (self : HMA1 Model) (table_name : string)
    (sampled_data : list (string * DataFrame)) (table_rows : DataFrame) (w : W) :
  d_get String.eqb table_name sampled_data = Some table_rows ->
  (forall parent_name foreign_key,
     In parent_name (get_parents metadata table_name) ->
     In foreign_key (get_foreign_keys metadata parent_name table_name) ->
     inb foreign_key (columns table_rows) = true) ->
  add_parent_keys metadata cap self table_name sampled_data w = Ok (sampled_data, w).
Proof.
  intros Hget Hall. unfold add_parent_keys.
  apply for_each_noop. intros parent_name w1 Hp.
  apply for_each_noop. intros foreign_key w2 Hfk.
  unfold mbind, lift, d_getitem. rewrite Hget.
  now rewrite (Hall parent_name foreign_key Hp Hfk).
Qed.
End Reconstruction.

(** X8 on the small instance: two candidate parents, three child rows. *)
Lemma get_likelihoods_returns_only_if_witness :
  exists frame,
    _get_likelihoods Toy.cap Toy.fitted Toy.child_table Toy.childless_parents
                     "child" "parent_id" = Ok frame
    /\ map fst frame = df_index Toy.child_table
    /\ forall parent, In parent (records Toy.childless_parents) ->
         exists parameters fitted model,
           _extract_parameters Toy.fitted parent.2 "child" "parent_id" = Ok parameters
           /\ _models Toy.fitted !! "child" = Some fitted
           /\ set_parameters Toy.cap (get_metadata Toy.cap fitted) parameters = Ok model
           /\ ((exists values, get_likelihood Toy.cap model Toy.child_table = Ok values)
               \/ get_likelihood Toy.cap model Toy.child_table = Raise AttributeError
               \/ get_likelihood Toy.cap model Toy.child_table = Raise LinAlgError).
Proof.
  destruct (_get_likelihoods Toy.cap Toy.fitted Toy.child_table Toy.childless_parents
              "child" "parent_id") as [frame|e] eqn:E; [|vm_compute in E; discriminate].
  exists frame. split; [reflexivity|].
  exact (get_likelihoods_returns_only_if Toy.cap Toy.fitted Toy.child_table
           Toy.childless_parents "child" "parent_id" frame E).
Defined.

(** X9 on the small instance: three child rows, three parent ids. *)
Lemma find_parent_ids_index_witness :
  exists parent_ids w' table_rows,
    _find_parent_ids Toy.metadata Toy.cap Toy.fitted "child" "parent" "parent_id"
      [("child", Toy.child_table); ("parent", Toy.sampled_parents)] 7%nat
      = Ok (parent_ids, w')
    /\ d_get String.eqb "child"
             [("child", Toy.child_table); ("parent", Toy.sampled_parents)]
       = Some table_rows
    /\ s_index parent_ids = df_index table_rows.
Proof.
  destruct (_find_parent_ids Toy.metadata Toy.cap Toy.fitted "child" "parent" "parent_id"
              [("child", Toy.child_table); ("parent", Toy.sampled_parents)] 7%nat)
    as [[parent_ids w']|e] eqn:E; [|vm_compute in E; discriminate].
  destruct (find_parent_ids_index Toy.metadata Toy.cap Toy.fitted "child" "parent"
              "parent_id" _ 7%nat w' parent_ids E) as (table_rows & Hget & Hidx).
  exists parent_ids, w', table_rows. split; [reflexivity|]. split; assumption.
Defined.

(** X10 on the small instance: the child table with its foreign key. *)
Lemma add_parent_keys_noop_witness :
  add_parent_keys Toy.metadata Toy.cap Toy.fitted "child"
                  [("child", Toy.child_table)] 7%nat
  = Ok ([("child", Toy.child_table)], 7%nat).
Proof.
  apply (add_parent_keys_noop Toy.metadata Toy.cap Toy.fitted "child"
           [("child", Toy.child_table)] Toy.child_table 7%nat eq_refl).
  intros parent_name foreign_key Hp Hfk.
  destruct Hp as [<-|[]]. destruct Hfk as [<-|[]]. reflexivity.
Defined.

(** ** Modeling: what the extension can raise, and the rows it keeps *)

Lemma loc_label_returns (v : cell) (df : DataFrame) (r : Row) :
  In r (records df) -> cell_eqb r.1 v = true -> exists rows, loc_label v df = Ok rows.
Proof.
  intros Hin Hv. unfold loc_label.
  destruct (List.filter (fun r : Row => cell_eqb r.1 v) (records df)) as [|x rs] eqn:E;
    [|eauto].
  assert (H : In r []); [|destruct H].
  rewrite <- E. apply List.filter_In. now split.
Qed.


Lemma not_among (acc : list cell) (c : cell) :
  existsb (cell_eqb c) acc = false -> Forall (fun a => cell_eqb a c = false) acc.
Proof.
  induction acc as [|a acc IH]; simpl; intros H; constructor;
    apply orb_false_elim in H as [H1 H2];
    [now apply cell_eqb_sym_false | now apply IH].
Qed.

Lemma distinct_snoc (acc : list cell) (c : cell) :
  ForallOrdPairs (fun a b => cell_eqb a b = false) acc ->
  Forall (fun a => cell_eqb a c = false) acc ->
  ForallOrdPairs (fun a b => cell_eqb a b = false) (acc ++ [c]).
Proof.
  induction 1 as [|a acc Ha Hacc IH]; intros Hc; simpl.
  - repeat constructor.
  - inversion Hc as [|? ? Hac Hc']; subst. constructor; [|now apply IH].
    apply Forall_app. split; [exact Ha | now constructor].
Qed.

(** The values [unique] returns are pairwise different. *)
Lemma unique_distinct (cs : list cell) :
  ForallOrdPairs (fun a b => cell_eqb a b = false) (unique cs).
Proof.
  unfold unique.
  assert (H : forall acc,
             ForallOrdPairs (fun a b => cell_eqb a b = false) acc ->
             ForallOrdPairs (fun a b => cell_eqb a b = false)
               (fold_left (fun acc c => if existsb (cell_eqb c) acc then acc
                                        else acc ++ [c]) cs acc)).
  { induction cs as [|c cs IH]; intros acc Hacc; simpl; [exact Hacc|].
    apply IH. destruct (existsb (cell_eqb c) acc) eqn:E; [exact Hacc|].
    apply distinct_snoc; [exact Hacc | now apply not_among]. }
  apply H. constructor.
Qed.

Lemma Forall_of_sublist {A} (P : A -> Prop) (l k : list A) :
  sublist l k -> Forall P k -> Forall P l.
Proof.
  induction 1 as [|x l k _ IH|x l k _ IH]; intros HF.
  - constructor.
  - inversion HF; subst. constructor; auto.
  - inversion HF; subst. auto.
Qed.

Lemma distinct_sublist (l k : list cell) :
  sublist l k ->
  ForallOrdPairs (fun a b => cell_eqb a b = false) k ->
  ForallOrdPairs (fun a b => cell_eqb a b = false) l.
Proof.
  induction 1 as [|x l k Hs IH|x l k Hs IH]; intros HF.
  - constructor.
  - inversion HF as [|? ? Hx Hk]; subst. constructor; [|now apply IH].
    now apply (Forall_of_sublist _ l k).
  - inversion HF; subst. now apply IH.
Qed.

(** Under pairwise different labels, at most one row matches a label. *)
Lemma filter_at_most_one (rs : list Row) (v : cell) :
  ForallOrdPairs (fun a b => cell_eqb a b = false) (map fst rs) ->
  (length (List.filter (fun r : Row => cell_eqb r.1 v) rs) <= 1)%nat.
Proof.
  induction rs as [|r rs IH]; simpl; intros H; [lia|].
  inversion H as [|? ? Hr Hrs]; subst.
  destruct (cell_eqb r.1 v) eqn:E; [|now apply IH].
  rewrite filter_none; [simpl; lia|].
  intros r' Hin. destruct (cell_eqb r'.1 v) eqn:E'; [|reflexivity].
  rewrite List.Forall_forall in Hr.
  rewrite <- (Hr r'.1 (in_map fst rs r' Hin)).
  symmetry. now apply (cell_eqb_trans_r _ _ v).
Qed.

Lemma flat_map_one_each (f : Row -> list Row) (ls : list Row) :
  (forall l, map fst (f l) = [l.1]) -> map fst (flat_map f ls) = map fst ls.
Proof.
  intros Hf. induction ls as [|l ls IH]; simpl; [reflexivity|].
  rewrite List.map_app, Hf. simpl. f_equal. exact IH.
Qed.

(** A left merge on an index of pairwise different labels keeps the rows
    of the left frame, one for one. *)
Lemma merge_keeps_index (left right : DataFrame) :
  ForallOrdPairs (fun a b => cell_eqb a b = false) (df_index right) ->
  df_index (merge_left_index left right) = df_index left.
Proof.
  intros H. unfold merge_left_index, df_index. cbn [records].
  apply flat_map_one_each. intros l.
  pose proof (filter_at_most_one (records right) l.1 H) as Hlen.
  destruct (List.filter (fun r : Row => cell_eqb r.1 l.1) (records right))
    as [|m [|m' ms]]; [reflexivity | reflexivity | simpl in Hlen; lia].
Qed.

Section GetExtension.
Context {W dtype Model : Type}.
Context (metadata : Metadata dtype) (cap : Capability W dtype Model).

Lemma extension_loop_returns (table_meta : TableMeta) (child_name foreign_key : string)
    (child_primary : option string) (indexed : DataFrame) (vs : list cell)
    (st : Extension) :
  (forall v, In v vs -> exists r, In r (records indexed) /\ cell_eqb r.1 v = true) ->
  exists st',
    rfor_each (extension_step cap table_meta child_name foreign_key child_primary
                              indexed) vs st = Ok st'.
Proof.
  revert st. induction vs as [|v vs IH]; intros st H; [simpl; eauto|].
  destruct (H v (or_introl eq_refl)) as (r & Hr & Hv).
  destruct (loc_label_returns v indexed r Hr Hv) as [rows Hrows].
  cbn [rfor_each]. unfold rbind at 1. unfold extension_step at 1, group_rows, rbind.
  rewrite Hrows.
  destruct (fit_group _ _ _ _ _ _) as [cols [row|e]];
    apply IH; intros v' Hv'; apply H; now right.
Qed.

(** X11.  Nothing a group's fit raises leaves [_get_extension]
    ([except Exception: pass]): the call returns exactly when the child
    has a registered model and the child table has the foreign-key
    column, and the only exception it raises is the [KeyError] of those
    two lookups. *)
Theorem get_extension_raises_only_keyerror (self : HMA1 Model) (child_name : string)
    (child_table : DataFrame) (foreign_key : string) :
  ((exists extension,
      _get_extension metadata cap self child_name child_table foreign_key
        = Ok extension)
   <-> is_Some (_models self !! child_name)
       /\ inb foreign_key (columns child_table) = true)
  /\ forall e,
       _get_extension metadata cap self child_name child_table foreign_key = Raise e ->
       e = KeyError.
Proof.
  unfold _get_extension, reg_getitem, df_getitem, set_index.
  destruct (_models self !! child_name) as [fitted|] eqn:Em; cbn [rbind].
  2:{ split; [split|].
      - intros [ext H]. discriminate.
      - intros [[m Hm] _]. discriminate.
      - intros e H. now injection H as <-. }
  destruct (inb foreign_key (columns child_table)) eqn:Ec; cbn [rbind].
  2:{ split; [split|].
      - intros [ext H]. discriminate.
      - intros [_ H]. discriminate.
      - intros e H. now injection H as <-. }
  unfold extension_loop.
  match goal with
  | |- context [rfor_each ?body ?vs ?st] =>
      destruct (extension_loop_returns (get_metadata cap fitted) child_name foreign_key
                  (get_primary_key metadata child_name)
                  {| columns := List.filter (fun d => negb (String.eqb d foreign_key))
                                            (columns child_table);
                     records := map (fun r : Row => (row_get foreign_key r.2,
                                                     row_del foreign_key r.2))
                                    (records child_table) |} vs st) as [st' Hst]
  end.
  - intros v Hv. apply In_unique in Hv. unfold s_values in Hv.
    rewrite map_map in Hv. apply in_map_iff in Hv as (r & <- & Hr).
    exists (row_get foreign_key r.2, row_del foreign_key r.2). split.
    + cbn [records].
      exact (in_map (fun r : Row => (row_get foreign_key r.2, row_del foreign_key r.2))
                    _ r Hr).
    + apply cell_eqb_refl.
  - rewrite Hst. cbn [rbind]. split; [split|].
    + intros _. split; [eauto | reflexivity].
    + intros _. eauto.
    + intros e H. discriminate.
Qed.

Lemma extend_with_key_index (self self' : HMA1 Model) (child_name : string)
    (child_table table table' : DataFrame) (foreign_key : string) :
  extend_with_key metadata cap child_name child_table (self, table) foreign_key
    = Ok (self', table') ->
  df_index table' = df_index table.
Proof.
  intros H. apply extend_with_key_inv in H as (ext & Hext & _ & -> & _).
  apply get_extension_inv in Hext as (fitted & column & indexed & st & _ & _ & _ & Hloop & ->).
  unfold extension_loop in Hloop.
  apply extension_loop_index in Hloop as (Hlen & added & Hidx & Hsub & _); [|reflexivity].
  transitivity (df_index (merge_left_index table
                            (DataFrame_of_rows (extension_rows st) (index st)))).
  - unfold df_fillna_column, df_index. cbn [records]. rewrite map_map. reflexivity.
  - apply merge_keeps_index. rewrite (df_index_of_rows _ _ Hlen), Hidx.
    apply (distinct_sublist _ _ Hsub), unique_distinct.
Qed.

(** One child of [_extend_table] hands the table's index on. *)
Lemma extend_child_index
    (model_table : HMA1 Model -> string -> list (string * DataFrame)
                   -> result (DataFrame * HMA1 Model * list (string * DataFrame)))
    (table_name child_name : string)
    (table table' : DataFrame) (self self' : HMA1 Model)
    (tables tables' : list (string * DataFrame)) :
  rbind (match _models self !! child_name with
         | None => model_table self child_name tables
         | Some _ =>
             rbind (d_getitem String.eqb child_name tables) (fun child_table =>
             Ok (child_table, self, tables))
         end) (fun child =>
  let '(child_table, self, tables) := child in
  let foreign_keys := get_foreign_keys metadata table_name child_name in
  rbind (rfor_each (extend_with_key metadata cap child_name child_table)
                   foreign_keys (self, table)) (fun out =>
  Ok (out.2, out.1, tables))) = Ok (table', self', tables') ->
  df_index table' = df_index table.
Proof.
  intros Hbody. unfold rbind at 1 in Hbody.
  match type of Hbody with
  | match ?r with _ => _ end = _ => destruct r as [[[ct s1] ts1]|e]; [|discriminate]
  end.
  unfold rbind in Hbody.
  destruct (rfor_each (extend_with_key metadata cap child_name ct)
              (get_foreign_keys metadata table_name child_name) (s1, table))
    as [[s2 t2]|e] eqn:Eloop; [|discriminate].
  injection Hbody as <- <- <-.
  apply (rfor_each_invariant
           (fun st : HMA1 Model * DataFrame => df_index st.2 = df_index table))
    in Eloop; [exact Eloop| |reflexivity].
  intros [sa ta] fk [sb tb] HPa _ Hstep. cbn [snd] in *.
  rewrite <- HPa. eapply extend_with_key_index. exact Hstep.
Qed.

(** X12.  Extending a table with the parameters of its children's
    groups adds columns only: whatever the recursive call does,
    [_extend_table] returns the table with the index it was given, row
    for row. *)
Theorem extend_table_keeps_index
    (model_table : HMA1 Model -> string -> list (string * DataFrame)
                   -> result (DataFrame * HMA1 Model * list (string * DataFrame)))
    (self self' : HMA1 Model) (table table' : DataFrame)
    (tables tables' : list (string * DataFrame)) (table_name : string) :
  _extend_table metadata cap model_table self table tables table_name
    = Ok (table', self', tables') ->
  df_index table' = df_index table.
Proof.
  unfold _extend_table. intros H.
  apply (rfor_each_invariant
           (fun st : DataFrame * HMA1 Model * list (string * DataFrame) =>
              df_index st.1.1 = df_index table)) in H; [exact H| |reflexivity].
  intros [[t s] ts] child_name [[t' s'] ts'] HP _ Hbody. cbn [fst] in *.
  rewrite <- HP. eapply extend_child_index. exact Hbody.
Qed.
End GetExtension.

(** X12 on the small instance: the three parents, extended with the
    parameters of their children, under their ids 1, 2 and 3. *)
Lemma extend_table_keeps_index_witness :
  exists table' self' tables',
    _extend_table Toy.metadata Toy.cap (_model_table Toy.metadata Toy.cap 3)
                  Toy.unfitted Toy.parent_indexed Toy.tables "parent"
      = Ok (table', self', tables')
    /\ df_index table' = df_index Toy.parent_indexed.
Proof.
  destruct (_extend_table Toy.metadata Toy.cap (_model_table Toy.metadata Toy.cap 3)
              Toy.unfitted Toy.parent_indexed Toy.tables "parent")
    as [[[table' self'] tables']|e] eqn:E; [|vm_compute in E; discriminate].
  exists table', self', tables'. split; [reflexivity|].
  exact (extend_table_keeps_index Toy.metadata Toy.cap _ _ _ _ _ _ _ _ E).
Defined.

(** ** Modeling: the registries after a fit *)

(** What each step of a loop establishes for its own element, and the
    later steps keep, holds for every element when the loop returns. *)
Lemma rfor_each_covers {A S} (Q : A -> S -> Prop) (body : S -> A -> result S)
    (xs : list A) (s s' : S) :
  (forall s x s', In x xs -> body s x = Ok s' -> Q x s') ->
  (forall s y s' x, In y xs -> Q x s -> body s y = Ok s' -> Q x s') ->
  rfor_each body xs s = Ok s' ->
  forall x, In x xs -> Q x s'.
Proof.
  revert s. induction xs as [|y xs IH]; intros s Hest Hkeep H x Hx; [destruct Hx|].
  simpl in H. unfold rbind in H. destruct (body s y) as [s1|e] eqn:E; [|discriminate].
  destruct Hx as [->|Hx].
  - apply (rfor_each_invariant (Q x) body xs s1 s'); [|eapply Hest; [now left|exact E]|exact H].
    intros s2 z s3 HQ Hz Hb. apply (Hkeep s2 z s3 x); [now right|exact HQ|exact Hb].
  - apply (IH s1); [| |exact H|exact Hx].
    + intros s2 z s3 Hz. apply Hest. now right.
    + intros s2 z s3 x' Hz. apply Hkeep. now right.
Qed.

Lemma grows_refl {Model} (self : HMA1 Model) : grows self self.
Proof. repeat split; auto. Qed.

Lemma grows_trans {Model} (a b c : HMA1 Model) : grows a b -> grows b c -> grows a c.
Proof. intros (A1 & A2 & A3) (B1 & B2 & B3). repeat split; auto. Qed.

Section Registries.
Context {W dtype Model : Type}.
Context (metadata : Metadata dtype) (cap : Capability W dtype Model).

(** The steps of a call of [_model_table] that returned. *)
Lemma model_table_inv (fuel : nat) (self self' : HMA1 Model) (table_name : string)
    (tables tables' : list (string * DataFrame)) (table : DataFrame) :
  _model_table metadata cap (S fuel) self table_name tables = Ok (table, self', tables') ->
  let primary_key := get_primary_key metadata table_name in
  exists loaded tables0 extended self2 tables2 table_meta keys prepared model,
    _load_table metadata tables table_name = Ok (loaded, tables0)
    /\ (let self1 := mkHMA1 (_models self)
                            (<[table_name := df_len loaded]> (_table_sizes self))
                            (_max_child_rows self) in
        match truthy primary_key with
        | Some pk =>
            exists indexed,
              set_index pk loaded = Ok indexed
              /\ _extend_table metadata cap (_model_table metadata cap fuel) self1
                               indexed tables0 table_name
                 = Ok (extended, self2, tables2)
        | None => extended = loaded /\ self2 = self1 /\ tables2 = tables0
        end)
    /\ _prepare_for_modeling metadata extended table_name primary_key
       = Ok (table_meta, keys, prepared)
    /\ model_fit cap true table_meta prepared = Ok model
    /\ self' = mkHMA1 (<[table_name := model]> (_models self2))
                      (_table_sizes self2) (_max_child_rows self2)
    /\ rfor_each (fun table (kv : string * list cell) => df_set_values kv.1 kv.2 table)
                 keys
                 (match truthy primary_key with
                  | Some pk => reset_index pk prepared
                  | None => prepared
                  end) = Ok table
    /\ tables' = d_set String.eqb table_name table tables2.
Proof.
  intros H primary_key. cbn [_model_table] in H. fold primary_key in H.
  unfold rbind at 1 in H.
  destruct (_load_table metadata tables table_name) as [[loaded tables0]|e]; [|discriminate].
  unfold rbind at 1 in H.
  match type of H with
  | match ?r with _ => _ end = _ =>
      destruct r as [[[extended self2] tables2]|e] eqn:Eext; [|discriminate]
  end.
  unfold rbind at 1 in H.
  destruct (_prepare_for_modeling metadata extended table_name primary_key)
    as [[[table_meta keys] prepared]|e] eqn:Eprep; [|discriminate].
  unfold rbind at 1 in H.
  destruct (model_fit cap true table_meta prepared) as [model|e] eqn:Efit; [|discriminate].
  unfold rbind at 1 in H.
  match type of H with
  | match ?r with _ => _ end = _ => destruct r as [final|e] eqn:Ekeys; [|discriminate]
  end.
  injection H as <- <- <-.
  exists loaded, tables0, extended, self2, tables2, table_meta, keys, prepared, model.
  split; [reflexivity|]. split.
  - cbv zeta. destruct (truthy primary_key) as [pk|].
    + unfold rbind in Eext. destruct (set_index pk loaded) as [indexed|e]; [|discriminate].
      exists indexed. split; [reflexivity | exact Eext].
    + injection Eext as <- <- <-. auto.
  - repeat split; assumption.
Qed.

(** Preparing a table for its model removes and fills columns; the rows
    stay. *)
Lemma prepare_keeps_index (table_data prepared : DataFrame) (table_name : string)
    (primary_key : option string) (table_meta : TableMeta)
    (keys : list (string * list cell)) :
  _prepare_for_modeling metadata table_data table_name primary_key
    = Ok (table_meta, keys, prepared) ->
  df_index prepared = df_index table_data.
Proof.
  unfold _prepare_for_modeling. unfold rbind at 1.
  match goal with
  | |- match ?r with _ => _ end = _ -> _ => destruct r as [fields|e]; [|discriminate]
  end.
  unfold rbind at 1.
  match goal with
  | |- match ?r with _ => _ end = _ -> _ =>
      destruct r as [[[fields1 keys1] popped]|e] eqn:Epop; [|discriminate]
  end.
  unfold rbind at 1.
  match goal with
  | |- match ?r with _ => _ end = _ -> _ =>
      destruct r as [[fields2 filled]|e] eqn:Efill; [|discriminate]
  end.
  intros H. injection H as _ _ <-. cbn [snd].
  apply (rfor_each_invariant
           (fun st : list (string * FieldMeta) * list (string * list cell) * DataFrame =>
              df_index st.2 = df_index table_data)) in Epop; [| |reflexivity].
  - apply (rfor_each_invariant
             (fun st : list (string * FieldMeta) * DataFrame =>
                df_index st.2 = df_index table_data)) in Efill; [exact Efill| |exact Epop].
    clear. intros [f t] column [f' t'] HP _ Hbody. cbn [snd] in *.
    destruct (d_mem String.eqb column f); [injection Hbody as <- <-; exact HP|].
    unfold rbind in Hbody. destruct (df_getitem column t) as [column_data|e]; [|discriminate].
    injection Hbody as <- <-. rewrite <- HP.
    unfold df_fillna_column, df_index. cbn [records]. rewrite map_map. reflexivity.
  - clear. intros [[f k] t] nf [[f' k'] t'] HP _ Hbody. cbn [snd] in *.
    destruct (String.eqb (f_type nf.2) "id"); [|injection Hbody as <- <- <-; exact HP].
    unfold rbind at 1 in Hbody. unfold df_pop, rbind at 1 in Hbody.
    destruct (df_getitem nf.1 t) as [column|e]; [|discriminate].
    unfold rbind in Hbody. cbn [fst snd] in Hbody.
    destruct (d_del nf.1 f) as [f1|e]; [|discriminate].
    injection Hbody as <- <- <-. rewrite <- HP.
    unfold df_del, df_index. cbn [records]. rewrite map_map. reflexivity.
Qed.

(** X13.  [_model_table] keeps the rows of the table it loads: the
    table it returns, which is the one it stores under the table's name,
    has as many rows as the loaded one, whatever was merged into it and
    removed from it on the way. *)
Theorem model_table_keeps_rows (fuel : nat) (self self' : HMA1 Model)
    (table_name : string) (tables tables' : list (string * DataFrame))
    (table : DataFrame) :
  _model_table metadata cap fuel self table_name tables = Ok (table, self', tables') ->
  exists loaded tables0,
    _load_table metadata tables table_name = Ok (loaded, tables0)
    /\ df_len table = df_len loaded
    /\ d_get String.eqb table_name tables' = Some table.
Proof.
  destruct fuel as [|fuel]; [discriminate|]. intros H.
  apply model_table_inv in H
    as (loaded & tables0 & extended & self2 & tables2 & table_meta & keys & prepared
        & model & Hload & Hext & Hprep & _ & _ & Hkeys & ->).
  exists loaded, tables0. split; [exact Hload|]. split; [|apply d_get_d_set_eq].
  assert (Hlen : df_len extended = df_len loaded).
  { cbv zeta in Hext. destruct (truthy (get_primary_key metadata table_name)) as [pk|].
    - destruct Hext as (indexed & Hidx & Hext).
      unfold _extend_table in Hext.
      apply (rfor_each_invariant
               (fun st : DataFrame * HMA1 Model * list (string * DataFrame) =>
                  df_index st.1.1 = df_index indexed)) in Hext; [| |reflexivity].
      2:{ intros [[t s] ts] child_name [[t' s'] ts'] HP _ Hbody. cbn [fst] in *.
          rewrite <- HP. eapply extend_child_index. exact Hbody. }
      cbn [fst] in Hext.
      unfold set_index in Hidx. destruct (inb pk (columns loaded)); [|discriminate].
      injection Hidx as <-. unfold df_len. apply (f_equal (@length _)) in Hext.
      unfold df_index in Hext. rewrite !length_map in Hext. cbn [records] in Hext.
      rewrite length_map in Hext. exact Hext.
    - destruct Hext as (-> & _). reflexivity. }
  apply prepare_keeps_index in Hprep. apply (f_equal (@length _)) in Hprep.
  unfold df_index in Hprep. rewrite !length_map in Hprep.
  change (df_len prepared = df_len extended) in Hprep.
  apply (rfor_each_invariant (fun t : DataFrame => df_len t = df_len loaded)) in Hkeys;
    [exact Hkeys| |].
  - intros t kv t' HP _ Hset. rewrite <- HP. eapply df_len_set_values. exact Hset.
  - rewrite <- Hlen, <- Hprep. clear.
    destruct (truthy (get_primary_key metadata table_name)); [|reflexivity].
    unfold reset_index, df_len. cbn [records].
    rewrite length_zip_with, length_range_index. apply Nat.min_id.
Qed.

Lemma extend_keys_same_models (child_name : string) (child_table : DataFrame)
    (foreign_keys : list string) (self self' : HMA1 Model) (table table' : DataFrame) :
  rfor_each (extend_with_key metadata cap child_name child_table) foreign_keys
            (self, table) = Ok (self', table') ->
  _models self' = _models self /\ _table_sizes self' = _table_sizes self.
Proof.
  intros H.
  apply (rfor_each_invariant
           (fun st : HMA1 Model * DataFrame =>
              _models st.1 = _models self /\ _table_sizes st.1 = _table_sizes self))
    in H; [exact H| |split; reflexivity].
  clear. intros [s t] fk [s' t'] [H1 H2] _ Hstep. cbn [fst] in *.
  apply extend_with_key_inv in Hstep as (ext & _ & _ & _ & Hm & Hs & _).
  split; congruence.
Qed.

(** One child of [_extend_table]: the registries grow, the child has a
    model, and a maximum is recorded for each foreign key of the pair. *)
Lemma extend_child_step
    (model_table : HMA1 Model -> string -> list (string * DataFrame)
                   -> result (DataFrame * HMA1 Model * list (string * DataFrame)))
    (table_name child_name : string)
    (table table' : DataFrame) (self self' : HMA1 Model)
    (tables tables' : list (string * DataFrame)) :
  (forall s c ts tb s' ts',
     model_table s c ts = Ok (tb, s', ts') -> grows s s' /\ is_Some (_models s' !! c)) ->
  rbind (match _models self !! child_name with
         | None => model_table self child_name tables
         | Some _ =>
             rbind (d_getitem String.eqb child_name tables) (fun child_table =>
             Ok (child_table, self, tables))
         end) (fun child =>
  let '(child_table, self, tables) := child in
  let foreign_keys := get_foreign_keys metadata table_name child_name in
  rbind (rfor_each (extend_with_key metadata cap child_name child_table)
                   foreign_keys (self, table)) (fun out =>
  Ok (out.2, out.1, tables))) = Ok (table', self', tables') ->
  grows self self'
  /\ is_Some (_models self' !! child_name)
  /\ forall foreign_key,
       In foreign_key (get_foreign_keys metadata table_name child_name) ->
       is_Some (_max_child_rows self'
                  !! (ext_prefix child_name foreign_key +:+ "num_rows")).
Proof.
  intros Hmt H. unfold rbind at 1 in H.
  match type of H with
  | match ?r with _ => _ end = _ =>
      destruct r as [[[ct s1] ts1]|e] eqn:Echild; [|discriminate]
  end.
  cbv zeta in H. unfold rbind in H.
  destruct (rfor_each (extend_with_key metadata cap child_name ct)
              (get_foreign_keys metadata table_name child_name) (s1, table))
    as [[s2 t2]|e] eqn:Eloop; [|discriminate].
  injection H as <- <- <-. cbn [fst snd].
  destruct (extend_keys_same_models _ _ _ _ _ _ _ Eloop) as [Hm Hs].
  destruct (extend_keys_recorded cap metadata _ _ _ _ _ _ _ Eloop) as [Hmax Hrec].
  assert (Hchild : grows self s1 /\ is_Some (_models s1 !! child_name)).
  { destruct (_models self !! child_name) as [m|] eqn:Em.
    - unfold rbind in Echild.
      destruct (d_getitem String.eqb child_name tables); [|discriminate].
      injection Echild as <- <- <-. split; [apply grows_refl | rewrite Em; eauto].
    - eapply Hmt. exact Echild. }
  destruct Hchild as [Hg Hc]. split; [|split].
  - apply (grows_trans _ s1); [exact Hg|].
    split; [|split]; intros k Hk; [rewrite Hm | rewrite Hs | apply Hmax]; exact Hk.
  - rewrite Hm. exact Hc.
  - exact Hrec.
Qed.

Lemma extend_table_grows
    (model_table : HMA1 Model -> string -> list (string * DataFrame)
                   -> result (DataFrame * HMA1 Model * list (string * DataFrame)))
    (self self' : HMA1 Model) (table table' : DataFrame)
    (tables tables' : list (string * DataFrame)) (table_name : string) :
  (forall s c ts tb s' ts',
     model_table s c ts = Ok (tb, s', ts') -> grows s s' /\ is_Some (_models s' !! c)) ->
  _extend_table metadata cap model_table self table tables table_name
    = Ok (table', self', tables') ->
  grows self self'
  /\ forall child_name,
       In child_name (get_children metadata table_name) ->
       is_Some (_models self' !! child_name)
       /\ forall foreign_key,
            In foreign_key (get_foreign_keys metadata table_name child_name) ->
            is_Some (_max_child_rows self'
                       !! (ext_prefix child_name foreign_key +:+ "num_rows")).
Proof.
  intros Hmt H. unfold _extend_table in H. split.
  - apply (rfor_each_invariant
             (fun st : DataFrame * HMA1 Model * list (string * DataFrame) =>
                grows self st.1.2)) in H; [exact H| |apply grows_refl].
    intros [[t s] ts] c [[t' s'] ts'] HP _ Hbody. cbn [fst snd] in *.
    apply (extend_child_step _ _ _ _ _ _ _ _ _ Hmt) in Hbody as [Hg _].
    exact (grows_trans _ _ _ HP Hg).
  - intros child_name Hin.
    apply (rfor_each_covers
             (fun c (st : DataFrame * HMA1 Model * list (string * DataFrame)) =>
                is_Some (_models st.1.2 !! c)
                /\ forall foreign_key,
                     In foreign_key (get_foreign_keys metadata table_name c) ->
                     is_Some (_max_child_rows st.1.2
                                !! (ext_prefix c foreign_key +:+ "num_rows")))
             _ _ _ _) with (x := child_name) in H; [exact H| | |exact Hin].
    + intros [[t s] ts] c [[t' s'] ts'] _ Hbody. cbn [fst snd] in *.
      apply (extend_child_step _ _ _ _ _ _ _ _ _ Hmt) in Hbody as (_ & Hc & Hfk).
      split; assumption.
    + intros [[t s] ts] y [[t' s'] ts'] c _ [Hc Hfk] Hbody. cbn [fst snd] in *.
      apply (extend_child_step _ _ _ _ _ _ _ _ _ Hmt) in Hbody as ((G1 & _ & G3) & _).
      split; [apply G1, Hc | intros fk Hin'; apply G3, Hfk, Hin'].
Qed.

(** A call of [_model_table] that returns has registered a model for
    its table, and removed nothing from the registries. *)
Lemma model_table_grows (fuel : nat) :
  forall (self : HMA1 Model) table_name tables table self' tables',
    _model_table metadata cap fuel self table_name tables = Ok (table, self', tables') ->
    grows self self' /\ is_Some (_models self' !! table_name).
Proof.
  induction fuel as [|fuel IH]; intros self table_name tables table self' tables' H;
    [discriminate|].
  apply model_table_inv in H
    as (loaded & tables0 & extended & self2 & tables2 & table_meta & keys & prepared
        & model & _ & Hext & _ & _ & -> & _ & _).
  cbn [_models _table_sizes _max_child_rows]. split.
  - assert (Hg : grows self self2).
    { cbv zeta in Hext.
      assert (H1 : grows self (mkHMA1 (_models self)
                                 (<[table_name := df_len loaded]> (_table_sizes self))
                                 (_max_child_rows self))).
      { split; [|split]; cbn; auto. intros k Hk.
        apply lookup_insert_is_Some'. now right. }
      destruct (truthy (get_primary_key metadata table_name)) as [pk|].
      - destruct Hext as (indexed & _ & Hext).
        apply (extend_table_grows _ _ _ _ _ _ _ _ IH) in Hext as [Hg _].
        exact (grows_trans _ _ _ H1 Hg).
      - destruct Hext as (_ & -> & _). exact H1. }
    destruct Hg as (G1 & G2 & G3). split; [|split]; cbn; auto.
    intros k Hk. apply lookup_insert_is_Some'. right. auto.
  - apply lookup_insert_is_Some'. now left.
Qed.

(** Growth with the same models keeps [registered]. *)
Lemma registered_same_models (a b : HMA1 Model) :
  registered metadata a -> grows a b -> _models b = _models a ->
  registered metadata b.
Proof.
  intros Ha (_ & G2 & G3) Hm t Ht. rewrite Hm in Ht.
  destruct (Ha t Ht) as [Hs Hc]. split; [auto|].
  intros Hpk c Hin. destruct (Hc Hpk c Hin) as [Hcm Hfk].
  split; [rewrite Hm; exact Hcm | intros fk Hfk'; apply G3, Hfk, Hfk'].
Qed.

Lemma model_table_registered (fuel : nat) :
  forall (self : HMA1 Model) table_name tables table self' tables',
    registered metadata self ->
    _model_table metadata cap fuel self table_name tables = Ok (table, self', tables') ->
    registered metadata self'.
Proof.
  induction fuel as [|fuel IH]; intros self table_name tables table self' tables' Hreg H;
    [discriminate|].
  apply model_table_inv in H
    as (loaded & tables0 & extended & self2 & tables2 & table_meta & keys & prepared
        & model & _ & Hext & _ & _ & -> & _ & _).
  cbv zeta in Hext.
  set (self1 := mkHMA1 (_models self)
                  (<[table_name := df_len loaded]> (_table_sizes self))
                  (_max_child_rows self)) in Hext.
  assert (Hg1 : grows self self1).
  { split; [|split]; cbn; auto. intros k Hk. apply lookup_insert_is_Some'. now right. }
  assert (Hreg1 : registered metadata self1).
  { apply (registered_same_models self); [exact Hreg | exact Hg1 | reflexivity]. }
  assert (Hsize1 : is_Some (_table_sizes self1 !! table_name)).
  { cbn. apply lookup_insert_is_Some'. now left. }
  assert (H2 : registered metadata self2
               /\ grows self1 self2
               /\ (is_Some (truthy (get_primary_key metadata table_name)) ->
                   forall child_name,
                     In child_name (get_children metadata table_name) ->
                     is_Some (_models self2 !! child_name)
                     /\ forall foreign_key,
                          In foreign_key
                             (get_foreign_keys metadata table_name child_name) ->
                          is_Some (_max_child_rows self2
                                     !! (ext_prefix child_name foreign_key
                                         +:+ "num_rows")))).
  { destruct (truthy (get_primary_key metadata table_name)) as [pk|].
    - destruct Hext as (indexed & _ & Hext).
      destruct (extend_table_grows _ _ _ _ _ _ _ _ (model_table_grows fuel) Hext)
        as [Hg Hcover].
      split; [|split; [exact Hg | intros _; exact Hcover]].
      unfold _extend_table in Hext.
      apply (rfor_each_invariant
               (fun st : DataFrame * HMA1 Model * list (string * DataFrame) =>
                  registered metadata st.1.2)) in Hext; [exact Hext| |exact Hreg1].
      intros [[t s] ts] c [[t' s'] ts'] HP _ Hbody. cbn [fst snd] in *.
      unfold rbind at 1 in Hbody.
      match type of Hbody with
      | match ?r with _ => _ end = _ =>
          destruct r as [[[ct s1] ts1]|e] eqn:Echild; [|discriminate]
      end.
      cbv zeta in Hbody. unfold rbind in Hbody.
      destruct (rfor_each (extend_with_key metadata cap c ct)
                  (get_foreign_keys metadata table_name c) (s1, t))
        as [[s2 t2]|e] eqn:Eloop; [|discriminate].
      injection Hbody as <- <- <-.
      assert (Hs1 : registered metadata s1).
      { destruct (_models s !! c) as [m|].
        - unfold rbind in Echild.
          destruct (d_getitem String.eqb c ts); [|discriminate].
          injection Echild as <- <- <-. exact HP.
        - eapply IH; [exact HP | exact Echild]. }
      destruct (extend_keys_same_models _ _ _ _ _ _ _ Eloop) as [Hm Hs].
      destruct (extend_keys_recorded cap metadata _ _ _ _ _ _ _ Eloop) as [Hmax _].
      apply (registered_same_models s1); [exact Hs1| |exact Hm].
      split; [|split]; intros k Hk; [rewrite Hm | rewrite Hs | apply Hmax]; exact Hk.
    - destruct Hext as (_ & -> & _).
      split; [exact Hreg1|]. split; [apply grows_refl|]. intros [x Hx]. discriminate. }
  destruct H2 as (Hreg2 & (G1 & G2 & G3) & Hcover).
  intros t Ht. cbn [_models _table_sizes _max_child_rows] in *.
  assert (Hkeep : forall k, is_Some (_models self2 !! k) ->
                            is_Some (<[table_name := model]> (_models self2) !! k)).
  { intros k Hk. apply lookup_insert_is_Some'. now right. }
  destruct (String.eqb_spec table_name t) as [<-|Hne].
  - split; [apply G2, Hsize1|]. intros Hpk c Hin.
    destruct (Hcover Hpk c Hin) as [Hc Hfk]. split; [apply Hkeep, Hc | exact Hfk].
  - apply lookup_insert_is_Some' in Ht as [Ht|Ht]; [congruence|].
    destruct (Hreg2 t Ht) as [Hs Hc]. split; [exact Hs|].
    intros Hpk c Hin. destruct (Hc Hpk c Hin) as [Hcm Hfk].
    split; [apply Hkeep, Hcm | exact Hfk].
Qed.

Lemma extract_returns_when_recorded (self : HMA1 Model) (parent_row : Series string)
    (table_name foreign_key : string) :
  is_Some (_max_child_rows self !! (ext_prefix table_name foreign_key +:+ "num_rows")) ->
  exists parameters,
    _extract_parameters self parent_row table_name foreign_key = Ok parameters.
Proof.
  intros [recorded Hrec]. unfold _extract_parameters.
  destruct (s_mem String.eqb _ _); cbn [rbind]; [|eauto].
  unfold reg_getitem. rewrite Hrec. cbn [rbind]. eauto.
Qed.

(** X14.  What sampling looks up, [_fit] has registered.  From an
    instance whose registries are consistent (an unfitted one is), a fit
    that returns leaves them consistent and has a model for every table
    without parents; so every table with a model has a size and, when it
    has a primary key, a model for each child and a recorded maximum for
    each foreign key, and [_extract_parameters] then returns for every
    parent row of such a pair. *)
Theorem fit_registers_what_sampling_needs (fuel : nat) (self self' : HMA1 Model)
    (tables : option (list (string * DataFrame))) :
  registered metadata self ->
  _fit metadata cap fuel self tables = Ok self' ->
  registered metadata self'
  /\ (forall table_name,
        In table_name (get_tables metadata) ->
        get_parents metadata table_name = [] ->
        is_Some (_models self' !! table_name))
  /\ (forall table_name child_name foreign_key parent_row,
        is_Some (_models self' !! table_name) ->
        is_Some (truthy (get_primary_key metadata table_name)) ->
        In child_name (get_children metadata table_name) ->
        In foreign_key (get_foreign_keys metadata table_name child_name) ->
        is_Some (_models self' !! child_name)
        /\ exists parameters,
             _extract_parameters self' parent_row child_name foreign_key
             = Ok parameters).
Proof.
  intros Hreg H. unfold _fit in H. unfold rbind at 1 in H.
  destruct (validate metadata tables); [|discriminate].
  unfold rbind in H.
  match type of H with
  | match ?r with _ => _ end = _ => destruct r as [[s ts]|e] eqn:Eloop; [|discriminate]
  end.
  injection H as <-. cbn [fst].
  assert (Hreg' : registered metadata s).
  { apply (rfor_each_invariant
             (fun st : HMA1 Model * list (string * DataFrame) =>
                registered metadata st.1)) in Eloop; [exact Eloop| |exact Hreg].
    intros [s0 ts0] t [s1 ts1] HP _ Hbody. cbn [fst snd] in *.
    destruct (get_parents metadata t); [|injection Hbody as <- <-; exact HP].
    unfold rbind in Hbody.
    destruct (_model_table metadata cap fuel s0 t ts0) as [[[tb s2] ts2]|e] eqn:Em;
      [|discriminate].
    injection Hbody as <- <-. eapply model_table_registered; [exact HP | exact Em]. }
  split; [exact Hreg'|]. split.
  - intros table_name Hin Hroot.
    refine (rfor_each_covers
              (fun t (st : HMA1 Model * list (string * DataFrame)) =>
                 get_parents metadata t = [] -> is_Some (_models st.1 !! t))
              _ _ _ _ _ _ Eloop table_name Hin Hroot).
    + intros [s0 ts0] t [s1 ts1] _ Hbody Ht. cbn [fst snd] in *.
      rewrite Ht in Hbody. unfold rbind in Hbody.
      destruct (_model_table metadata cap fuel s0 t ts0) as [[[tb s2] ts2]|e] eqn:Em;
        [|discriminate].
      injection Hbody as <- <-. eapply model_table_grows. exact Em.
    + intros [s0 ts0] y [s1 ts1] t _ HQ Hbody Ht. cbn [fst snd] in *.
      destruct (get_parents metadata y); [|injection Hbody as <- <-; auto].
      unfold rbind in Hbody.
      destruct (_model_table metadata cap fuel s0 y ts0) as [[[tb s2] ts2]|e] eqn:Em;
        [|discriminate].
      injection Hbody as <- <-.
      apply model_table_grows in Em as [(G1 & _) _]. auto.
  - intros table_name child_name foreign_key parent_row Ht Hpk Hc Hfk.
    destruct (Hreg' table_name Ht) as [_ Hchildren].
    destruct (Hchildren Hpk child_name Hc) as [Hcm Hmax].
    split; [exact Hcm|]. apply extract_returns_when_recorded. auto.
Qed.
End Registries.

(** X13 on the small instance: the parent table modeled, three rows
    loaded and three returned. *)
Lemma model_table_keeps_rows_witness :
  exists table self' tables',
    _model_table Toy.metadata Toy.cap 3 Toy.unfitted "parent" Toy.tables
      = Ok (table, self', tables')
    /\ df_len table = 3%nat
    /\ d_get String.eqb "parent" tables' = Some table.
Proof.
  destruct (_model_table Toy.metadata Toy.cap 3 Toy.unfitted "parent" Toy.tables)
    as [[[table self'] tables']|e] eqn:E; [|vm_compute in E; discriminate].
  exists table, self', tables'. split; [reflexivity|].
  destruct (model_table_keeps_rows Toy.metadata Toy.cap 3 Toy.unfitted self' "parent"
              Toy.tables tables' table E) as (loaded & tables0 & Hload & Hlen & Hget).
  injection Hload as <- _. split; [exact Hlen | exact Hget].
Defined.

(** X14 on the small instance: the fit of the two tables, from the
    unfitted instance. *)
Lemma fit_registers_what_sampling_needs_witness :
  exists self',
    _fit Toy.metadata Toy.cap 5 Toy.unfitted (Some Toy.tables) = Ok self'
    /\ is_Some (_models self' !! "parent")
    /\ is_Some (_models self' !! "child")
    /\ exists parameters,
         _extract_parameters self' Toy.parent_row "child" "parent_id" = Ok parameters.
Proof.
  destruct (_fit Toy.metadata Toy.cap 5 Toy.unfitted (Some Toy.tables))
    as [self'|e] eqn:E; [|vm_compute in E; discriminate].
  exists self'. split; [reflexivity|].
  assert (Hreg : registered Toy.metadata Toy.unfitted).
  { intros t [m Hm]. cbn in Hm. rewrite lookup_empty in Hm. discriminate. }
  destruct (fit_registers_what_sampling_needs Toy.metadata Toy.cap 5 Toy.unfitted self'
              (Some Toy.tables) Hreg E) as (_ & Hroots & Hpairs).
  assert (Hparent : is_Some (_models self' !! "parent")).
  { apply Hroots; [now left | reflexivity]. }
  split; [exact Hparent|].
  apply (Hpairs "parent" "child" "parent_id" Toy.parent_row Hparent).
  - cbn. eauto.
  - now left.
  - now left.
Defined.

(** ** Sampling: primary keys, and the shape of one sampled table *)

Lemma column_of_zip_set (c d : string) (rs : list Row) (vs : list cell) :
  length vs = length rs ->
  map (fun r : Row => row_get d r.2)
      (zip_with (fun (r : Row) v => (r.1, row_set c v r.2)) rs vs)
  = if String.eqb c d then vs else map (fun r : Row => row_get d r.2) rs.
Proof.
  revert vs. induction rs as [|r rs IH]; intros [|v vs] Hlen; try discriminate.
  - simpl. now destruct (String.eqb c d).
  - injection Hlen as Hlen. cbn [zip_with map snd]. rewrite (IH vs Hlen).
    destruct (String.eqb_spec c d) as [->|N].
    + now rewrite row_get_row_set_eq.
    + now rewrite (row_get_row_set_ne c d v r.2 N).
Qed.

Section PrimaryKeys.
Context {W dtype Model : Type}.
Context (metadata : Metadata dtype) (cap : Capability W dtype Model).

(** X15.  The rows [_sample_rows] returns for a table with a primary
    key are the rows the model sampled, under the same index, with the
    primary-key column replaced: it holds the keys generated for the
    table, one per row and in order, and every other column is as
    sampled. *)
Theorem sample_rows_primary_keys (model : Model) (table_name primary_key : string)
    (num_rows : option nat) (w w' : W) (rows : DataFrame) :
  truthy (get_primary_key metadata table_name) = Some primary_key ->
  _sample_rows metadata cap model table_name num_rows w = Ok (rows, w') ->
  exists sampled w0 keys,
    _sample_with_progress_bar cap model
      (match num_rows with
       | Some (S n) => S n
       | _ => _num_rows cap model
       end) w = Ok (sampled, w0)
    /\ _get_primary_keys cap table_name (df_len sampled) w0 = Ok (keys, w')
    /\ df_index rows = df_index sampled
    /\ map (fun r : Row => row_get primary_key r.2) (records rows) = keys
    /\ forall column,
         column <> primary_key ->
         map (fun r : Row => row_get column r.2) (records rows)
         = map (fun r : Row => row_get column r.2) (records sampled).
Proof.
  intros Hpk. unfold _sample_rows, mbind. rewrite Hpk.
  match goal with
  | |- context [_sample_with_progress_bar cap model ?n w] =>
      destruct (_sample_with_progress_bar cap model n w)
        as [[sampled w0]|e] eqn:Es; [|discriminate]
  end.
  destruct (_get_primary_keys cap table_name (df_len sampled) w0) as [[keys w1]|e] eqn:Ek;
    [|discriminate].
  unfold lift, df_set_values.
  destruct (length keys =? df_len sampled)%nat eqn:Elen; [|discriminate].
  apply Nat.eqb_eq in Elen. unfold df_len in Elen.
  intros H. injection H as <- <-.
  exists sampled, w0, keys. split; [reflexivity|]. split; [exact Ek|].
  cbn [records]. split; [|split].
  - unfold df_index. cbn [records].
    exact (map_fst_zip_with (fun r v => row_set primary_key v r) _ _ Elen).
  - rewrite (column_of_zip_set primary_key primary_key _ _ Elen).
    now rewrite String.eqb_refl.
  - intros column Hne. rewrite (column_of_zip_set primary_key column _ _ Elen).
    destruct (String.eqb_spec primary_key column) as [E|_]; [congruence | reflexivity].
Qed.

(** X16.  Sampling one table without its children, for a count of at
    least one and a table model that samples as many rows as it is asked
    for: [_sample] returns that table alone, with the declared columns
    in declared order and exactly the rows asked for. *)
Theorem sample_one_table_shape (fuel : nat) (self : HMA1 Model) (table_name : string)
    (n : nat) (w w' : W) (out : Sampled) :
  SamplerContract cap ->
  table_name <> "" ->
  _sample metadata cap fuel self (Some table_name) (Some (S n)) false w = Ok (out, w') ->
  exists rows,
    out = Table rows
    /\ columns rows = map fst (get_dtypes metadata table_name)
    /\ df_len rows = S n.
Proof.
  intros Hc Hname. unfold _sample.
  assert (Ht : truthy (Some table_name) = Some table_name).
  { destruct table_name; [congruence | reflexivity]. }
  rewrite Ht. unfold mbind at 1.
  destruct (_sample_table metadata cap fuel self table_name (Some (S n)) false None w)
    as [[sampled_data w1]|e] eqn:Es; [|discriminate].
  destruct (sample_table_positive metadata cap fuel self table_name n sampled_data
              w w1 Hc Es) as (sampled & -> & Hlen).
  unfold mbind at 1.
  destruct (_finalize metadata cap self [(table_name, sampled)] w1)
    as [[final_data w2]|e] eqn:Ef; [|discriminate].
  unfold mbind, lift, d_getitem.
  destruct (d_get String.eqb table_name final_data) as [rows|] eqn:Ed; [|discriminate].
  unfold mret. intros H. injection H as <- <-.
  exists rows. split; [reflexivity|].
  destruct (finalize_shape metadata cap self _ _ _ _ Ef table_name rows Ed)
    as (Hcols & sampled' & Hs & Hidx).
  split; [exact Hcols|].
  cbn in Hs. rewrite String.eqb_refl in Hs. injection Hs as <-.
  rewrite <- Hlen. unfold df_len. apply (f_equal (@length _)) in Hidx.
  unfold df_index in Hidx. now rewrite !length_map in Hidx.
Qed.
End PrimaryKeys.

(** X15 on the small instance: two parent rows sampled from world 10,
    their keys the two the generator hands out next. *)
Lemma sample_rows_primary_keys_witness :
  exists rows w',
    _sample_rows Toy.metadata Toy.cap
                 (Toy.mkModel (get_table_meta Toy.metadata "parent") [])
                 "parent" (Some 2%nat) 10%nat = Ok (rows, w')
    /\ map (fun r : Row => row_get "id" r.2) (records rows) = [Toy.num 12; Toy.num 13].
Proof.
  destruct (_sample_rows Toy.metadata Toy.cap
              (Toy.mkModel (get_table_meta Toy.metadata "parent") [])
              "parent" (Some 2%nat) 10%nat) as [[rows w']|e] eqn:E;
    [|vm_compute in E; discriminate].
  exists rows, w'. split; [reflexivity|].
  destruct (sample_rows_primary_keys Toy.metadata Toy.cap _ "parent" "id" _ _ _ _
              eq_refl E) as (sampled & w0 & keys & Hs & Hk & _ & Hcol & _).
  rewrite Hcol. vm_compute in Hs. injection Hs as <- <-.
  vm_compute in Hk. injection Hk as <- _. reflexivity.
Defined.

(** X16 on the small instance: two rows of the parent table. *)
Lemma sample_one_table_shape_witness :
  exists rows w',
    _sample Toy.metadata Toy.cap 5 Toy.fitted (Some "parent") (Some 2%nat) false 100%nat
      = Ok (Table rows, w')
    /\ columns rows = ["id"; "a"]
    /\ df_len rows = 2%nat.
Proof.
  destruct (_sample Toy.metadata Toy.cap 5 Toy.fitted (Some "parent") (Some 2%nat) false
              100%nat) as [[out w']|e] eqn:E; [|vm_compute in E; discriminate].
  assert (Hname : "parent" <> "") by discriminate.
  destruct (sample_one_table_shape Toy.metadata Toy.cap 5 Toy.fitted "parent" 1 100%nat
              w' out toy_contract Hname E) as (rows & -> & Hcols & Hlen).
  exists rows, w'. split; [reflexivity|]. split; [exact Hcols | exact Hlen].
Defined.

(** ** Modeling: what [_prepare_for_modeling] hands to the model *)

Lemma d_del_inv {V} (k : string) (d d' : list (string * V)) :
  d_del k d = Ok d' -> d' = List.filter (fun kv => negb (String.eqb kv.1 k)) d.
Proof. unfold d_del. destruct (d_mem String.eqb k d); [|discriminate]. now intros [= <-]. Qed.

Lemma d_mem_filter_same {V} (k : string) (d : list (string * V)) :
  d_mem String.eqb k (List.filter (fun kv => negb (String.eqb kv.1 k)) d) = false.
Proof.
  induction d as [|[a b] d IH]; simpl; [reflexivity|].
  destruct (String.eqb a k) eqn:E; simpl; [exact IH|]. now rewrite E.
Qed.

Lemma d_mem_filter_absent {V} (k c : string) (d : list (string * V)) :
  d_mem String.eqb c d = false ->
  d_mem String.eqb c (List.filter (fun kv => negb (String.eqb kv.1 k)) d) = false.
Proof.
  induction d as [|[a b] d IH]; simpl; [reflexivity|]. intros H.
  apply orb_false_elim in H as [H1 H2].
  destruct (String.eqb a k); simpl; [auto|]. rewrite H1. auto.
Qed.

Lemma d_mem_subset {V} (c : string) (a b : list (string * V)) :
  (forall x, In x a -> In x b) ->
  d_mem String.eqb c a = true -> d_mem String.eqb c b = true.
Proof.
  intros Hsub H. unfold d_mem in *. apply existsb_exists in H as (x & Hx & Hc).
  apply existsb_exists. exists x. split; [apply Hsub, Hx | exact Hc].
Qed.

Lemma d_mem_d_set {V} (k c : string) (v : V) (d : list (string * V)) :
  d_mem String.eqb c (d_set String.eqb k v d) = String.eqb k c || d_mem String.eqb c d.
Proof.
  induction d as [|[a b] d IH]; simpl; [reflexivity|].
  destruct (String.eqb_spec a k) as [->|N]; simpl.
  - now destruct (String.eqb k c).
  - rewrite IH. destruct (String.eqb a c), (String.eqb k c); reflexivity.
Qed.

Lemma In_d_set {V} (k : string) (v : V) (d : list (string * V)) (x : string * V) :
  In x (d_set String.eqb k v d) -> x.2 = v \/ In x d.
Proof.
  induction d as [|[a b] d IH]; simpl.
  - intros [<-|[]]. now left.
  - destruct (String.eqb a k); simpl.
    + intros [<-|H]; [now left | right; now right].
    + intros [<-|H]; [right; now left|]. destruct (IH H); [now left | right; now right].
Qed.

Lemma inb_filter_same (c : string) (cs : list string) :
  inb c (List.filter (fun d => negb (String.eqb d c)) cs) = false.
Proof.
  induction cs as [|a cs IH]; simpl; [reflexivity|].
  destruct (String.eqb a c) eqn:E; simpl; [exact IH|].
  rewrite String.eqb_sym, E. exact IH.
Qed.

Lemma inb_filter_absent (c k : string) (cs : list string) :
  inb c cs = false -> inb c (List.filter (fun d => negb (String.eqb d k)) cs) = false.
Proof.
  induction cs as [|a cs IH]; simpl; [reflexivity|]. intros H.
  apply orb_false_elim in H as [H1 H2].
  destruct (String.eqb a k); simpl; [auto|]. rewrite H1. auto.
Qed.

(** The mean of a column that is not all missing is defined. *)
Lemma s_mean_defined {L} (s : Series L) :
  forallb isnull (s_values s) = false -> s_mean s <> NaN.
Proof.
  unfold s_mean. intros H.
  destruct (valid (s_values s)) as [|q qs] eqn:E; [|discriminate].
  exfalso. revert H E. induction (s_values s) as [|[x|] cs IH]; simpl.
  - discriminate.
  - intros _. unfold valid. simpl. discriminate.
  - intros H E. apply IH; [exact H|]. unfold valid in *. simpl in E. exact E.
Qed.

Section Preparing.
Context {dtype : Type} (metadata : Metadata dtype).

(** One field of the first loop: an id field is popped from the table
    and deleted from the fields. *)
Lemma pop_step (fields fields' : list (string * FieldMeta))
    (keys keys' : list (string * list cell)) (table table' : DataFrame)
    (nf : string * FieldMeta) :
  (if String.eqb (f_type nf.2) "id"
   then rbind (df_pop nf.1 table) (fun popped =>
        rbind (d_del nf.1 fields) (fun fields =>
        Ok (fields, d_set String.eqb nf.1 popped.1 keys, popped.2)))
   else Ok (fields, keys, table)) = Ok (fields', keys', table') ->
  (f_type nf.2 <> "id" /\ fields' = fields /\ keys' = keys /\ table' = table)
  \/ (f_type nf.2 = "id"
      /\ fields' = List.filter (fun kv => negb (String.eqb kv.1 nf.1)) fields
      /\ (exists values, keys' = d_set String.eqb nf.1 values keys)
      /\ table' = df_del nf.1 table).
Proof.
  destruct (String.eqb_spec (f_type nf.2) "id") as [E|N].
  - intros H. right. unfold df_pop, rbind in H.
    destruct (df_getitem nf.1 table) as [column|e]; [|discriminate].
    cbn [fst snd] in H.
    destruct (d_del nf.1 fields) as [f1|e] eqn:Ed; [|discriminate].
    injection H as <- <- <-. apply d_del_inv in Ed. eauto.
  - intros H. injection H as <- <- <-. left. auto.
Qed.

(** One column of the second loop: a column without a field gets one,
    numerical, and its missing values the mean (or zero). *)
Lemma fill_step (fields fields' : list (string * FieldMeta))
    (table table' : DataFrame) (column : string) :
  (if d_mem String.eqb column fields then Ok (fields, table)
   else
     rbind (df_getitem column table) (fun column_data =>
     let fill_value :=
       if forallb isnull (s_values column_data) then Some 0%Q
       else s_mean column_data in
     Ok (d_set String.eqb column (mkField "numerical" (Some "float")) fields,
         df_fillna_column column fill_value table))) = Ok (fields', table') ->
  (d_mem String.eqb column fields = true /\ fields' = fields /\ table' = table)
  \/ (d_mem String.eqb column fields = false
      /\ fields' = d_set String.eqb column (mkField "numerical" (Some "float")) fields
      /\ exists fill_value,
           fill_value <> NaN /\ table' = df_fillna_column column fill_value table).
Proof.
  destruct (d_mem String.eqb column fields).
  - intros H. injection H as <- <-. left. auto.
  - intros H. right. unfold rbind in H.
    destruct (df_getitem column table) as [column_data|e]; [|discriminate].
    cbv zeta in H. injection H as <- <-. split; [reflexivity|]. split; [reflexivity|].
    eexists. split; [|reflexivity].
    destruct (forallb isnull (s_values column_data)) eqn:E; [discriminate|].
    now apply s_mean_defined.
Qed.

(** X17.  What [_prepare_for_modeling] hands to the model.  No field of
    the metadata it returns is an id, and a column it popped into the
    keys is no column of the table any more.  Every column of the table
    has a field; a column the schema does not declare has become a
    numerical float field and has no missing value left (the mean of
    the column was filled in, or zero for a column without any value). *)
Theorem prepare_for_modeling_result (table_data prepared : DataFrame)
    (table_name : string) (primary_key : option string) (table_meta : TableMeta)
    (keys : list (string * list cell)) :
  _prepare_for_modeling metadata table_data table_name primary_key
    = Ok (table_meta, keys, prepared) ->
  (forall x, In x (tm_fields table_meta) -> f_type x.2 <> "id")
  /\ (forall name, d_mem String.eqb name keys = true ->
                   inb name (columns prepared) = false)
  /\ (forall c, In c (columns prepared) ->
                d_mem String.eqb c (tm_fields table_meta) = true)
  /\ (forall c,
        In c (columns prepared) ->
        d_mem String.eqb c (tm_fields (get_table_meta metadata table_name)) = false ->
        d_get String.eqb c (tm_fields table_meta)
        = Some (mkField "numerical" (Some "float"))
        /\ forall r, In r (records prepared) -> row_get c r.2 <> NaN).
Proof.
  unfold _prepare_for_modeling. unfold rbind at 1.
  match goal with
  | |- match ?r with _ => _ end = _ -> _ => destruct r as [fields0|e] eqn:E0; [|discriminate]
  end.
  assert (H0 : forall x, In x fields0 ->
                         In x (tm_fields (get_table_meta metadata table_name))).
  { destruct (truthy primary_key) as [pk|].
    - apply d_del_inv in E0. subst fields0. intros x Hx.
      apply List.filter_In in Hx. tauto.
    - injection E0 as <-. auto. }
  clear E0. unfold rbind at 1.
  match goal with
  | |- match ?r with _ => _ end = _ -> _ =>
      destruct r as [[[fields1 keys1] popped]|e] eqn:Epop; [|discriminate]
  end.
  unfold rbind at 1.
  match goal with
  | |- match ?r with _ => _ end = _ -> _ =>
      destruct r as [[fields2 filled]|e] eqn:Efill; [|discriminate]
  end.
  intros H. injection H as <- <- <-. cbn [fst snd tm_fields].
  (* the first loop *)
  assert (P1 : (forall x, In x fields1 -> In x fields0)
               /\ (forall name, d_mem String.eqb name keys1 = true ->
                                inb name (columns popped) = false)).
  { apply (rfor_each_invariant
             (fun st : list (string * FieldMeta) * list (string * list cell) * DataFrame =>
                (forall x, In x st.1.1 -> In x fields0)
                /\ (forall name, d_mem String.eqb name st.1.2 = true ->
                                 inb name (columns st.2) = false))) in Epop;
      [exact Epop| |split; [auto | discriminate]].
    clear. intros [[f k] t] nf [[f' k'] t'] [HP1 HP2] _ Hbody. cbn [fst snd] in *.
    apply pop_step in Hbody
      as [(_ & -> & -> & ->)|(_ & -> & (values & ->) & ->)]; [auto|].
    split.
    - intros x Hx. apply List.filter_In in Hx. apply HP1. tauto.
    - intros name Hname. rewrite d_mem_d_set in Hname. cbn [df_del columns].
      destruct (String.eqb_spec nf.1 name) as [E|N].
      + rewrite <- E. apply inb_filter_same.
      + apply inb_filter_absent, HP2. exact Hname. }
  assert (Q1 : forall nf, In nf fields0 -> f_type nf.2 = "id" ->
                          d_mem String.eqb nf.1 fields1 = false).
  { intros nf Hin.
    refine (rfor_each_covers
              (fun (nf : string * FieldMeta)
                   (st : list (string * FieldMeta) * list (string * list cell)
                         * DataFrame) =>
                 f_type nf.2 = "id" -> d_mem String.eqb nf.1 st.1.1 = false)
              _ _ _ _ _ _ Epop nf Hin).
    - intros [[f k] t] x [[f' k'] t'] _ Hbody Hid. cbn [fst snd] in *.
      apply pop_step in Hbody as [(N & _)|(_ & -> & _)]; [congruence|].
      apply d_mem_filter_same.
    - intros [[f k] t] y [[f' k'] t'] x _ HQ Hbody Hid. cbn [fst snd] in *.
      apply pop_step in Hbody as [(_ & -> & _)|(_ & -> & _)]; [auto|].
      apply d_mem_filter_absent. auto. }
  destruct P1 as [P1a P1b].
  assert (A1 : forall x, In x fields1 -> f_type x.2 <> "id").
  { intros [n fm] Hx Hid.
    pose proof (Q1 (n, fm) (P1a _ Hx) Hid) as Hno. cbn [fst] in Hno.
    assert (Hyes : d_mem String.eqb n fields1 = true).
    { unfold d_mem. apply existsb_exists. exists (n, fm).
      split; [exact Hx | apply String.eqb_refl]. }
    congruence. }
  (* the second loop *)
  assert (P2 : columns filled = columns popped
               /\ (forall x, In x fields2 -> f_type x.2 <> "id")
               /\ (forall c,
                     d_mem String.eqb c fields2 = true ->
                     d_mem String.eqb c fields1 = true
                     \/ (d_get String.eqb c fields2
                         = Some (mkField "numerical" (Some "float"))
                         /\ forall r, In r (records filled) -> row_get c r.2 <> NaN))).
  { apply (rfor_each_invariant
             (fun st : list (string * FieldMeta) * DataFrame =>
                columns st.2 = columns popped
                /\ (forall x, In x st.1 -> f_type x.2 <> "id")
                /\ (forall c,
                      d_mem String.eqb c st.1 = true ->
                      d_mem String.eqb c fields1 = true
                      \/ (d_get String.eqb c st.1
                          = Some (mkField "numerical" (Some "float"))
                          /\ forall r, In r (records st.2) -> row_get c r.2 <> NaN))))
      in Efill; [exact Efill| |split; [reflexivity | split; [exact A1 | auto]]].
    clear. intros [f t] column [f' t'] (HPc & HPa & HPi) _ Hbody. cbn [fst snd] in *.
    apply fill_step in Hbody
      as [(_ & -> & ->)|(Hnew & -> & fill_value & Hfill & ->)]; [auto|].
    split; [exact HPc|]. split.
    - intros x Hx. apply In_d_set in Hx as [->|Hx]; [discriminate | auto].
    - intros c Hc. rewrite d_mem_d_set in Hc. rewrite d_get_d_set.
      destruct (String.eqb_spec column c) as [E|N].
      + subst c. right. split; [reflexivity|]. intros r Hr.
        cbn [df_fillna_column records] in Hr. apply in_map_iff in Hr as (r0 & <- & _).
        cbn [snd]. destruct (isnull (row_get column r0.2)) eqn:En.
        * now rewrite row_get_row_set_eq.
        * intros E. rewrite E in En. discriminate.
      + destruct (HPi c Hc) as [H1|[Hg Hrows]]; [now left|]. right.
        split; [exact Hg|]. intros r Hr.
        cbn [df_fillna_column records] in Hr. apply in_map_iff in Hr as (r0 & <- & Hr0).
        cbn [snd]. destruct (isnull (row_get column r0.2)).
        * rewrite (row_get_row_set_ne column c _ _ N). now apply Hrows.
        * now apply Hrows. }
  assert (Q2 : forall c, In c (columns popped) -> d_mem String.eqb c fields2 = true).
  { intros c Hin.
    refine (rfor_each_covers
              (fun (c : string) (st : list (string * FieldMeta) * DataFrame) =>
                 d_mem String.eqb c st.1 = true)
              _ _ _ _ _ _ Efill c Hin).
    - intros [f t] x [f' t'] _ Hbody. cbn [fst snd] in *.
      apply fill_step in Hbody as [(Hm & -> & _)|(_ & -> & _)]; [exact Hm|].
      rewrite d_mem_d_set, String.eqb_refl. reflexivity.
    - intros [f t] y [f' t'] x _ HQ Hbody. cbn [fst snd] in *.
      apply fill_step in Hbody as [(_ & -> & _)|(_ & -> & _)]; [exact HQ|].
      rewrite d_mem_d_set, HQ. apply orb_true_r. }
  destruct P2 as (P2c & P2a & P2i).
  split; [exact P2a|]. split; [|split].
  - intros name Hname. rewrite P2c. now apply P1b.
  - intros c Hc. rewrite P2c in Hc. now apply Q2.
  - intros c Hc Hundeclared. rewrite P2c in Hc.
    destruct (P2i c (Q2 c Hc)) as [H1|H2]; [exfalso|exact H2].
    apply (d_mem_subset c fields1 (tm_fields (get_table_meta metadata table_name)))
      in H1; [congruence | auto].
Qed.
End Preparing.

(** X17 on the small instance: the parent table under its key, with a
    column [x] the schema does not declare and that misses a value. *)
Lemma prepare_for_modeling_result_witness :
  exists table_meta keys prepared,
    _prepare_for_modeling Toy.metadata
      (Toy.frame ["a"; "x"] [[Toy.num 10; Toy.num 4]; [Toy.num 20; NaN]])
      "parent" (Some "id") = Ok (table_meta, keys, prepared)
    /\ d_get String.eqb "x" (tm_fields table_meta)
       = Some (mkField "numerical" (Some "float"))
    /\ forall r, In r (records prepared) -> row_get "x" r.2 <> NaN.
Proof.
  destruct (_prepare_for_modeling Toy.metadata
              (Toy.frame ["a"; "x"] [[Toy.num 10; Toy.num 4]; [Toy.num 20; NaN]])
              "parent" (Some "id")) as [[[table_meta keys] prepared]|e] eqn:E;
    [|vm_compute in E; discriminate].
  exists table_meta, keys, prepared. split; [reflexivity|].
  destruct (prepare_for_modeling_result Toy.metadata _ _ _ _ _ _ E) as (_ & _ & _ & H).
  vm_compute in E. injection E as <- <- <-.
  apply (H "x"); [right; left; reflexivity | reflexivity].
Defined.

(** ** Finalizing: the tables that come back, and the parent that was
    not sampled *)

Lemma for_each_covers {W A S} (Q : A -> S -> Prop) (body : S -> A -> M W S)
    (xs : list A) (s s' : S) (w w' : W) :
  (forall s x w s' w', In x xs -> body s x w = Ok (s', w') -> Q x s') ->
  (forall s y w s' w' x, In y xs -> Q x s -> body s y w = Ok (s', w') -> Q x s') ->
  for_each body xs s w = Ok (s', w') ->
  forall x, In x xs -> Q x s'.
Proof.
  revert s w. induction xs as [|y xs IH]; intros s w Hest Hkeep H x Hx; [destruct Hx|].
  simpl in H. unfold mbind in H.
  destruct (body s y w) as [[s1 w1]|e] eqn:E; [|discriminate].
  destruct Hx as [->|Hx].
  - apply (for_each_invariant (Q x) body xs s1 s' w1 w');
      [|eapply Hest; [now left|exact E]|exact H].
    intros s2 z w2 s3 w3 HQ Hz Hb. apply (Hkeep s2 z w2 s3 w3 x); [now right|exact HQ|exact Hb].
  - apply (IH s1 w1); [| |exact H|exact Hx].
    + intros s2 z w2 s3 w3 Hz. apply Hest. now right.
    + intros s2 z w2 s3 w3 x' Hz. apply Hkeep. now right.
Qed.

Lemma d_get_In_keys {V} (k : string) (d : list (string * V)) :
  is_Some (d_get String.eqb k d) -> In k (map fst d).
Proof.
  unfold d_get. intros [v Hv].
  destruct (List.find (fun kv : string * V => String.eqb kv.1 k) d) as [x|] eqn:E;
    [|discriminate].
  apply List.find_some in E as [Hin Hk]. apply String.eqb_eq in Hk. subst k.
  now apply in_map.
Qed.

Section FinalizeTables.
Context {W dtype Model : Type}.
Context (metadata : Metadata dtype) (cap : Capability W dtype Model).

(** X18.  [_finalize] returns the tables it was given, no more and no
    fewer: a name has a table in the final data exactly when it has one
    in the sampled data. *)
Theorem finalize_returns_every_table (self : HMA1 Model)
    (sampled_data final_data : list (string * DataFrame)) (w w' : W) :
  _finalize metadata cap self sampled_data w = Ok (final_data, w') ->
  forall table_name,
    is_Some (d_get String.eqb table_name final_data)
    <-> is_Some (d_get String.eqb table_name sampled_data).
Proof.
  intros H table_name. split.
  - intros [rows Hrows].
    destruct (finalize_shape metadata cap self _ _ _ _ H table_name rows Hrows)
      as (_ & sampled & Hs & _).
    rewrite Hs. eauto.
  - intros Hin. apply d_get_In_keys in Hin.
    unfold _finalize in H. unfold mbind at 1 in H.
    match type of H with
    | match ?m w with _ => _ end = _ =>
        destruct (m w) as [[[sd fd] w1]|e] eqn:Eloop; [|discriminate]
    end.
    unfold mret in H. injection H as <- <-. cbn [snd].
    refine (for_each_covers
              (fun t (st : list (string * DataFrame) * list (string * DataFrame)) =>
                 is_Some (d_get String.eqb t st.2))
              _ _ _ _ _ _ _ _ Eloop table_name Hin).
    + intros [sd0 fd0] t w0 [sd1 fd1] w2 _ Hbody. cbn [snd].
      unfold mbind at 1 in Hbody.
      destruct (add_parent_keys metadata cap self t sd0 w0) as [[sd2 w3]|e];
        [|discriminate].
      unfold mbind at 1 in Hbody. unfold lift at 1 in Hbody.
      destruct (d_getitem String.eqb t sd2) as [rows|e]; [|discriminate].
      unfold mbind at 1 in Hbody. unfold lift at 1 in Hbody.
      destruct (apply_dtypes cap (get_dtypes metadata t) rows) as [typed|e]; [|discriminate].
      unfold mbind at 1 in Hbody. unfold lift at 1 in Hbody.
      destruct (df_select (map fst (get_dtypes metadata t)) typed) as [final|e];
        [|discriminate].
      unfold mret in Hbody. injection Hbody as _ <- _.
      rewrite d_get_d_set_eq. eauto.
    + intros [sd0 fd0] t w0 [sd1 fd1] w2 x _ HQ Hbody. cbn [snd] in *.
      unfold mbind at 1 in Hbody.
      destruct (add_parent_keys metadata cap self t sd0 w0) as [[sd2 w3]|e];
        [|discriminate].
      unfold mbind at 1 in Hbody. unfold lift at 1 in Hbody.
      destruct (d_getitem String.eqb t sd2) as [rows|e]; [|discriminate].
      unfold mbind at 1 in Hbody. unfold lift at 1 in Hbody.
      destruct (apply_dtypes cap (get_dtypes metadata t) rows) as [typed|e]; [|discriminate].
      unfold mbind at 1 in Hbody. unfold lift at 1 in Hbody.
      destruct (df_select (map fst (get_dtypes metadata t)) typed) as [final|e];
        [|discriminate].
      unfold mret in Hbody. injection Hbody as _ <- _.
      rewrite d_get_d_set. destruct (String.eqb t x); [eauto | exact HQ].
Qed.

(** X19.  The parent that [_find_parent_ids] does not find among the
    sampled tables is sampled from the ratio of the two fit-time sizes.
    A size that was never recorded ends the call with [KeyError], the
    parent's looked up first, and a table fit on no row with
    [ZeroDivisionError]; in each case before anything is sampled or
    drawn. *)
Theorem find_parent_ids_unsampled_parent (self : HMA1 Model)
    (table_name parent_name foreign_key : string)
    (sampled_data : list (string * DataFrame)) (table_rows : DataFrame) (w : W) :
  d_get String.eqb table_name sampled_data = Some table_rows ->
  d_get String.eqb parent_name sampled_data = None ->
  (_table_sizes self !! parent_name = None ->
   _find_parent_ids metadata cap self table_name parent_name foreign_key sampled_data w
   = Raise KeyError)
  /\ (is_Some (_table_sizes self !! parent_name) ->
      _table_sizes self !! table_name = None ->
      _find_parent_ids metadata cap self table_name parent_name foreign_key sampled_data w
      = Raise KeyError)
  /\ (is_Some (_table_sizes self !! parent_name) ->
      _table_sizes self !! table_name = Some 0%nat ->
      _find_parent_ids metadata cap self table_name parent_name foreign_key sampled_data w
      = Raise ZeroDivisionError).
Proof.
  intros Ht Hp. unfold _find_parent_ids.
  unfold mbind at 1. unfold lift at 1, d_getitem. rewrite Ht, Hp.
  unfold mbind at 1. unfold mbind at 1. unfold lift at 1, reg_getitem.
  split; [|split].
  - intros ->. reflexivity.
  - intros [p ->] Hn. unfold mbind at 1. unfold lift at 1. rewrite Hn. reflexivity.
  - intros [p ->] Hz. unfold mbind at 1. unfold lift at 1. rewrite Hz.
    unfold mbind at 1. unfold lift at 1. reflexivity.
Qed.
End FinalizeTables.

(** X18 on the small instance: the one sampled table, finalized. *)
Lemma finalize_returns_every_table_witness :
  exists final_data w',
    _finalize Toy.metadata Toy.cap Toy.fitted [("parent", Toy.gappy_parents)] 0%nat
      = Ok (final_data, w')
    /\ is_Some (d_get String.eqb "parent" final_data)
    /\ ~ is_Some (d_get String.eqb "child" final_data).
Proof.
  destruct (_finalize Toy.metadata Toy.cap Toy.fitted [("parent", Toy.gappy_parents)]
              0%nat) as [[final_data w']|e] eqn:E; [|vm_compute in E; discriminate].
  exists final_data, w'. split; [reflexivity|].
  pose proof (finalize_returns_every_table Toy.metadata Toy.cap Toy.fitted _ _ _ _ E)
    as H.
  split.
  - apply H. cbn. eauto.
  - intros Hc. apply H in Hc. destruct Hc as [x Hx]. discriminate.
Defined.

(** X19 on the small instance: child rows whose table was fit on no row,
    their parent not sampled. *)
Lemma find_parent_ids_unsampled_parent_witness :
  _find_parent_ids Toy.metadata Toy.cap
    (mkHMA1 ∅ (<["child" := 0%nat]> (<["parent" := 3%nat]> ∅)) ∅)
    "child" "parent" "parent_id" [("child", Toy.child_table)] 7%nat
  = Raise ZeroDivisionError.
Proof.
  apply (find_parent_ids_unsampled_parent Toy.metadata Toy.cap _ "child" "parent"
           "parent_id" [("child", Toy.child_table)] Toy.child_table 7%nat
           eq_refl eq_refl).
  - exists 3%nat. vm_compute. reflexivity.
  - vm_compute. reflexivity.
Defined.

(** * The claims on fitting a table with its children *)



Section ExtendTable.
Context {W dtype Model : Type}.
Context (metadata : Metadata dtype) (cap : Capability W dtype Model).




End ExtendTable.


(** ** C10: the foreign keys of a pair with several *)


Section FirstForeignKey.
Context {W dtype Model : Type}.
Context (cap : Capability W dtype Model).



End FirstForeignKey.


(** * The claim on recursive child sampling *)

Lemma values_zip_index (labels : list cell) (l : list Row) :
  length labels = length l ->
  map snd (zip_with (fun i (r : Row) => (i, r.2)) labels l) = map snd l.
Proof.
  revert labels. induction l as [|r l IH]; intros [|i labels] H; try discriminate;
    simpl; [reflexivity|].
  f_equal. apply IH. now injection H.
Qed.

Lemma column_concat_reset (c : string) (a b : DataFrame) :
  inb c (columns a) || inb c (columns b) = true ->
  map (fun r : Row => row_get c r.2) (records (concat_reset a b))
  = map (fun r : Row => row_get c r.2) (records a)
    ++ map (fun r : Row => row_get c r.2) (records b).
Proof.
  intros Hc.
  transitivity (map (row_get c) (map snd (records (concat_reset a b))));
    [now rewrite map_map|].
  unfold concat_reset, reset_index_drop. cbn [records].
  rewrite values_zip_index by (unfold df_len; cbn [records]; apply length_range_index).
  rewrite !map_map. cbn [snd]. rewrite <- map_app. apply map_ext. intros r.
  now rewrite row_get_reindex, inb_add_columns, Hc.
Qed.

Lemma column_set_scalar (c : string) (v : cell) (df : DataFrame) :
  map (fun r : Row => row_get c r.2) (records (df_set_scalar c v df))
  = repeat v (df_len df).
Proof.
  unfold df_set_scalar, df_len. cbn [records]. rewrite map_map. cbn [snd].
  induction (records df) as [|r rs IH]; simpl; [reflexivity|].
  now rewrite row_get_row_set_eq, IH.
Qed.

Lemma Forall2_In_r {A B} (R : A -> B -> Prop) (l : list A) (k : list B) (y : B) :
  Forall2 R l k -> In y k -> exists x, In x l /\ R x y.
Proof.
  induction 1 as [|x y' l k Hxy _ IH]; intros Hy; [destruct Hy|].
  destruct Hy as [<-|Hy]; [exists x; split; [now left | exact Hxy]|].
  destruct (IH Hy) as (x' & Hx' & HR). exists x'. split; [now right | exact HR].
Qed.

Section GeneratedChildren.
Context {W dtype Model : Type}.
Context (metadata : Metadata dtype) (cap : Capability W dtype Model).

(** The loop over the parent rows: one batch for each row, in order, on
    top of the rows the child table had. *)
Lemma sample_child_table_batches (self : HMA1 Model)
    (child_name parent_name foreign_key : string) (rows : list Row) :
  first (get_foreign_keys metadata parent_name child_name) = Ok foreign_key ->
  forall (sampled_data sampled_data' : list (string * DataFrame)) (w w' : W),
    (forall df, d_get String.eqb child_name sampled_data = Some df ->
                inb foreign_key (columns df) = true) ->
    for_each (fun sampled_data (row : Row) =>
                _sample_child_rows metadata cap self child_name parent_name row.2
                                   sampled_data)
             rows sampled_data w = Ok (sampled_data', w') ->
    exists batches,
      Forall2 (batch_of metadata cap self child_name parent_name foreign_key)
              rows batches
      /\ (forall name, name <> child_name ->
            d_get String.eqb name sampled_data' = d_get String.eqb name sampled_data)
      /\ match d_get String.eqb child_name sampled_data' with
         | Some df => map (fun r : Row => row_get foreign_key r.2) (records df)
         | None => []
         end
         = match d_get String.eqb child_name sampled_data with
           | Some df => map (fun r : Row => row_get foreign_key r.2) (records df)
           | None => []
           end
           ++ flat_map (fun batch : nat * cell => repeat batch.2 batch.1) batches.
Proof.
  intros Hfk. induction rows as [|row rows IH]; intros sd sd' w w' Hcol H.
  - cbn [for_each] in H. unfold mret in H. injection H as <- <-.
    exists []. split; [constructor|]. split; [reflexivity|].
    cbn [flat_map]. now rewrite app_nil_r.
  - cbn [for_each] in H. unfold mbind in H.
    destruct (_sample_child_rows metadata cap self child_name parent_name row.2 sd w)
      as [[sd1 w1]|e] eqn:E1; [|discriminate].
    apply sample_child_rows_inv in E1
      as (fk & params & fitted & model & batch & Hfk' & Hp & Hm & Hs & Hr & Hcases).
    rewrite Hfk in Hfk'. injection Hfk' as <-.
    destruct Hcases as [[Hz ->]|(Hnz & pid & Hpid & ->)].
    + destruct (IH sd sd' w1 w' Hcol H) as (batches & HF & Hother & Hcolumn).
      exists ((0%nat, NaN) :: batches). split; [|split; [exact Hother | exact Hcolumn]].
      constructor; [|exact HF].
      exists params, fitted, model, w, w1, batch. cbn [fst snd].
      repeat split; auto. intros N. now destruct N.
    + set (stamped := df_set_scalar foreign_key pid batch) in *.
      set (new := match d_get String.eqb child_name sd with
                  | None => stamped
                  | Some previous => concat_reset previous stamped
                  end) in *.
      assert (Hnewcol : inb foreign_key (columns new) = true).
      { unfold new. destruct (d_get String.eqb child_name sd) as [previous|].
        - unfold concat_reset, reset_index_drop. cbn [columns].
          rewrite inb_add_columns. unfold stamped. rewrite columns_set_scalar.
          apply orb_true_r.
        - apply columns_set_scalar. }
      assert (Hnew : map (fun r : Row => row_get foreign_key r.2) (records new)
                     = match d_get String.eqb child_name sd with
                       | Some df => map (fun r : Row => row_get foreign_key r.2)
                                        (records df)
                       | None => []
                       end ++ repeat pid (df_len batch)).
      { unfold new. destruct (d_get String.eqb child_name sd) as [previous|] eqn:Ep.
        - rewrite column_concat_reset.
          + unfold stamped. now rewrite column_set_scalar.
          + unfold stamped. rewrite columns_set_scalar. apply orb_true_r.
        - unfold stamped. now rewrite column_set_scalar. }
      destruct (IH (d_set String.eqb child_name new sd) sd' w1 w') as
        (batches & HF & Hother & Hcolumn); [|exact H|].
      { intros df Hdf. rewrite d_get_d_set_eq in Hdf. now injection Hdf as <-. }
      exists ((df_len batch, pid) :: batches). split; [|split].
      * constructor; [|exact HF].
        exists params, fitted, model, w, w1, batch. cbn [fst snd]. repeat split; auto.
      * intros name Hne. rewrite (Hother name Hne). apply d_get_d_set_ne. congruence.
      * rewrite Hcolumn, d_get_d_set_eq, Hnew. cbn [flat_map fst snd].
        now rewrite app_assoc.
Qed.

(** The foreign-key values of a generated table are keys of the parent
    rows. *)
Lemma generated_from_ids (self : HMA1 Model) (child_name : string)
    (child_rows : DataFrame) (parent_name : string) (parent_rows : DataFrame) :
  generated_from metadata cap self child_name child_rows parent_name parent_rows ->
  forall r, In r (records child_rows) ->
    exists foreign_key parent,
      first (get_foreign_keys metadata parent_name child_name) = Ok foreign_key
      /\ In parent (records parent_rows)
      /\ row_getitem (get_primary_key metadata parent_name) parent.2
         = Ok (row_get foreign_key r.2).
Proof.
  intros (fk & batches & Hfk & HF & Hcol) r Hr.
  assert (Hv : In (row_get fk r.2)
                  (flat_map (fun batch : nat * cell => repeat batch.2 batch.1) batches)).
  { rewrite <- Hcol. apply (in_map (fun r : Row => row_get fk r.2)). exact Hr. }
  apply in_flat_map in Hv as (batch & Hb & Hrep).
  assert (Hnz : batch.1 <> 0%nat) by (intros Z; rewrite Z in Hrep; destruct Hrep).
  apply repeat_spec in Hrep.
  destruct (Forall2_In_r _ _ _ _ HF Hb) as (parent & Hparent & Hbatch).
  destruct Hbatch as (_ & _ & _ & _ & _ & _ & _ & _ & _ & _ & _ & Hpid).
  exists fk, parent. split; [exact Hfk|]. split; [exact Hparent|].
  rewrite Hrep. now apply Hpid.
Qed.

(** [_sample_children] keeps the tables it finds, and each table it
    adds was generated from the rows of its parent table. *)
Lemma sample_children_generated (self : HMA1 Model) (fuel : nat) :
  forall (table_name : string) (sampled_data sampled_data' : list (string * DataFrame))
         (table_rows : DataFrame) (w w' : W),
    _sample_children metadata cap fuel self table_name sampled_data table_rows w
      = Ok (sampled_data', w') ->
    (forall name df, d_get String.eqb name sampled_data = Some df ->
                     d_get String.eqb name sampled_data' = Some df)
    /\ forall child_name child_rows,
         d_get String.eqb child_name sampled_data = None ->
         d_get String.eqb child_name sampled_data' = Some child_rows ->
         exists parent_name parent_rows,
           In child_name (get_children metadata parent_name)
           /\ ((parent_name = table_name /\ parent_rows = table_rows)
               \/ (d_get String.eqb parent_name sampled_data = None
                   /\ d_get String.eqb parent_name sampled_data' = Some parent_rows))
           /\ generated_from metadata cap self child_name child_rows
                             parent_name parent_rows.
Proof.
  induction fuel as [|fuel IH]; intros t sd sd' rows w w' Hrun; [discriminate|].
  cbn [_sample_children] in Hrun.
  apply (for_each_invariant
           (fun cur : list (string * DataFrame) =>
              (forall name df, d_get String.eqb name sd = Some df ->
                               d_get String.eqb name cur = Some df)
              /\ forall child_name child_rows,
                   d_get String.eqb child_name sd = None ->
                   d_get String.eqb child_name cur = Some child_rows ->
                   exists parent_name parent_rows,
                     In child_name (get_children metadata parent_name)
                     /\ ((parent_name = t /\ parent_rows = rows)
                         \/ (d_get String.eqb parent_name sd = None
                             /\ d_get String.eqb parent_name cur = Some parent_rows))
                     /\ generated_from metadata cap self child_name child_rows
                                       parent_name parent_rows)) in Hrun;
    [exact Hrun| |split; [auto | intros c cr H1 H2; congruence]].
  clear Hrun. intros cur c w1 cur' w2 [Hkeep Hgen] Hc Hbody. cbv beta in Hbody.
  destruct (d_mem String.eqb c cur) eqn:Em.
  { unfold mret in Hbody. injection Hbody as <- <-. split; assumption. }
  apply d_mem_d_get in Em.
  unfold mbind at 1 in Hbody.
  destruct (sample_child_table metadata cap self c t rows cur w1)
    as [[cur1 w3]|e] eqn:Eloop; [|discriminate].
  unfold mbind, lift, d_getitem in Hbody.
  destruct (d_get String.eqb c cur1) as [child_rows0|] eqn:Ec1; [|discriminate].
  destruct (IH c cur1 cur' child_rows0 w3 w2 Hbody) as [Hkeep' Hgen'].
  (* the loop over the parent rows *)
  assert (Hloop : exists foreign_key batches,
             first (get_foreign_keys metadata t c) = Ok foreign_key
             /\ Forall2 (batch_of metadata cap self c t foreign_key) (records rows) batches
             /\ (forall name, name <> c ->
                   d_get String.eqb name cur1 = d_get String.eqb name cur)
             /\ map (fun r : Row => row_get foreign_key r.2) (records child_rows0)
                = flat_map (fun batch : nat * cell => repeat batch.2 batch.1) batches).
  { unfold sample_child_table in Eloop.
    destruct (first (get_foreign_keys metadata t c)) as [fk|e] eqn:Efk.
    - destruct (sample_child_table_batches self c t fk (records rows) Efk
                  cur cur1 w1 w3) as (batches & HF & Hother & Hcolumn);
        [intros df Hdf; congruence | exact Eloop |].
      rewrite Ec1, Em in Hcolumn. exists fk, batches. auto.
    - exfalso. destruct (records rows) as [|row rest].
      + cbn [for_each] in Eloop. unfold mret in Eloop. injection Eloop as <- <-.
        congruence.
      + cbn [for_each] in Eloop. unfold mbind in Eloop.
        unfold _sample_child_rows at 1 in Eloop. unfold mbind at 1 in Eloop.
        rewrite Efk in Eloop. discriminate. }
  destruct Hloop as (fk & batches & Hfk & HF & Hother & Hcolumn).
  assert (Hkeep1 : forall name df, d_get String.eqb name cur = Some df ->
                                   d_get String.eqb name cur1 = Some df).
  { intros name df Hdf. rewrite Hother; [exact Hdf|]. intros ->. congruence. }
  assert (Hnone : forall name, d_get String.eqb name cur = None ->
                               d_get String.eqb name sd = None).
  { intros name Hn. destruct (d_get String.eqb name sd) as [df|] eqn:E; [|reflexivity].
    apply Hkeep in E. congruence. }
  split.
  - intros name df Hdf. auto.
  - intros x xr Hx Hxr.
    destruct (d_get String.eqb x cur) as [xr0|] eqn:Excur.
    + pose proof (Hkeep' x xr0 (Hkeep1 x xr0 Excur)) as Hsame.
      rewrite Hsame in Hxr. injection Hxr as <-.
      destruct (Hgen x xr0 Hx Excur) as (pn & pr & Hin & Hwhich & Hfrom).
      exists pn, pr. split; [exact Hin|]. split; [|exact Hfrom].
      destruct Hwhich as [H|[H1 H2]]; [now left | right]. split; [exact H1|]. auto.
    + destruct (String.eqb_spec x c) as [->|Hne].
      * rewrite (Hkeep' c child_rows0 Ec1) in Hxr. injection Hxr as <-.
        exists t, rows. split; [exact Hc|]. split; [now left|].
        exists fk, batches. auto.
      * assert (Hx1 : d_get String.eqb x cur1 = None) by (rewrite Hother; assumption).
        destruct (Hgen' x xr Hx1 Hxr) as (pn & pr & Hin & Hwhich & Hfrom).
        exists pn, pr. split; [exact Hin|]. split; [|exact Hfrom]. right.
        destruct Hwhich as [[-> ->]|[H1 H2]].
        -- split; [now apply Hnone | now apply Hkeep'].
        -- split; [|exact H2]. apply Hnone.
           destruct (d_get String.eqb pn cur) as [df|] eqn:E; [|reflexivity].
           apply Hkeep1 in E. congruence.
Qed.

(** C8.  Every table that [_sample_children] adds to the sampled data
    is the child of a table whose rows it was generated from: the rows
    [_sample_children] was called with, or those of another table it
    added.  There is one batch for each row of that parent table, in
    the order of the rows: as many child rows as the model set from
    the parameters of the parent row sampled, and the foreign-key
    column of the child table reads, batch after batch, the
    primary-key value of the parent row of the batch on each of its
    rows.  So the foreign-key value of every child row is the key of a
    row of the parent table. *)
Theorem child_foreign_keys_are_parent_ids (fuel : nat) (self : HMA1 Model)
    (table_name : string) (sampled_data sampled_data' : list (string * DataFrame))
    (table_rows : DataFrame) (w w' : W) :
  _sample_children metadata cap fuel self table_name sampled_data table_rows w
    = Ok (sampled_data', w') ->
  forall child_name child_rows,
    d_get String.eqb child_name sampled_data = None ->
    d_get String.eqb child_name sampled_data' = Some child_rows ->
    exists parent_name parent_rows,
      In child_name (get_children metadata parent_name)
      /\ ((parent_name = table_name /\ parent_rows = table_rows)
          \/ (d_get String.eqb parent_name sampled_data = None
              /\ d_get String.eqb parent_name sampled_data' = Some parent_rows))
      /\ generated_from metadata cap self child_name child_rows parent_name parent_rows
      /\ forall r, In r (records child_rows) ->
           exists foreign_key parent,
             first (get_foreign_keys metadata parent_name child_name) = Ok foreign_key
             /\ In parent (records parent_rows)
             /\ row_getitem (get_primary_key metadata parent_name) parent.2
                = Ok (row_get foreign_key r.2).
Proof.
  intros Hrun child_name child_rows Hnone Hsome.
  destruct (sample_children_generated self fuel _ _ _ _ _ _ Hrun) as [_ Hgen].
  destruct (Hgen child_name child_rows Hnone Hsome) as (pn & pr & Hin & Hwhich & Hfrom).
  exists pn, pr. split; [exact Hin|]. split; [exact Hwhich|]. split; [exact Hfrom|].
  exact (generated_from_ids self child_name child_rows pn pr Hfrom).
Qed.
End GeneratedChildren.

(** C8 on the small instance: three sampled parents, with keys 103, 104
    and 105, that ask for no, one and two child rows.  The child table
    was generated from them, and its foreign-key column reads 104, 105,
    105. *)
Lemma child_foreign_keys_are_parent_ids_witness :
  exists sampled_data' w' child_rows,
    _sample_children Toy.metadata Toy.cap 5 Toy.fitted "parent"
                     [("parent", Toy.sampled_parents)] Toy.sampled_parents 106%nat
      = Ok (sampled_data', w')
    /\ d_get String.eqb "child" sampled_data' = Some child_rows
    /\ generated_from Toy.metadata Toy.cap Toy.fitted "child" child_rows
                      "parent" Toy.sampled_parents
    /\ map (fun r : Row => row_get "parent_id" r.2) (records child_rows)
       = [Toy.num 104; Toy.num 105; Toy.num 105].
Proof.
  destruct (_sample_children Toy.metadata Toy.cap 5 Toy.fitted "parent"
              [("parent", Toy.sampled_parents)] Toy.sampled_parents 106%nat)
    as [[sd' w']|e] eqn:E; [|vm_compute in E; discriminate].
  destruct (d_get String.eqb "child" sd') as [child_rows|] eqn:Ed;
    [|vm_compute in E; injection E as <- <-; vm_compute in Ed; discriminate].
  exists sd', w', child_rows. split; [reflexivity|]. split; [exact Ed|].
  destruct (child_foreign_keys_are_parent_ids Toy.metadata Toy.cap 5 Toy.fitted "parent"
              [("parent", Toy.sampled_parents)] sd' Toy.sampled_parents 106%nat w' E
              "child" child_rows eq_refl Ed)
    as (parent_name & parent_rows & Hchild & Hwhich & Hfrom & _).
  assert (Hname : parent_name = "parent").
  { cbn [Toy.metadata Toy.schema get_children] in Hchild. unfold Toy.is_parent in Hchild.
    destruct (String.eqb_spec parent_name "parent") as [->|N];
      [reflexivity | destruct Hchild]. }
  subst parent_name.
  destruct Hwhich as [[_ ->]|[Hnone _]]; [|discriminate].
  split; [exact Hfrom|].
  vm_compute in E. injection E as <- <-. vm_compute in Ed. injection Ed as <-.
  reflexivity.
Defined.

(** * The claim on finalization *)



Section FinalizeValues.
Context {W dtype Model : Type}.
Context (metadata : Metadata dtype) (cap : Capability W dtype Model).






End FinalizeValues.

